(** * recipe-checker: normalisation, pairwise features and verdict of [app.py]

    A shallow embedding of the core of [src/app.py]: the three field
    normalisers ([normalize_dob], [normalize_mnn], [normalize_snils]), the
    pairwise feature extractor ([extract_features]) and the verdict block
    of the "check" button, together with the parts of the Python runtime
    they call ([str] methods, [re], [datetime.strptime]/[strftime],
    [pandas.isna], [fuzzywuzzy.fuzz]).

    Conventions.
    - A Python [str] is the list of its code points ([list N]); literals
      are written as UTF-8 text and decoded by [u].
    - Python values are the scalars a record field holds ([pyval]).
    - An exception is the [Raise] outcome of the result type [res];
      [try ... except] is a match on it.
    - Python floats are modelled by the rational numbers they denote, plus
      [NaN]; rounding is not modelled.
    - [fuzzywuzzy] is modelled with its pure-Python matcher,
      [difflib.SequenceMatcher]; the extractor takes the scorers through
      the interface [Fuzz], and the general theorems hold for any
      scorers. *)

From Stdlib Require Import ZArith NArith QArith Lia Bool List Ascii String.
From Stdlib Require Import DecimalString.
From stdpp Require Import base option list strings gmap.

Set Default Proof Using "Type".

(* ===================================================================== *)
(** * Python strings *)
(* ===================================================================== *)

(** A [str] is a sequence of Unicode code points. *)
Definition str : Type := list N.

(** UTF-8 decoding of a literal: [need] continuation bytes are still
    expected for the code point accumulated in [acc]. *)
Fixpoint utf8_decode (need : nat) (acc : N) (bs : list N) : str :=
  match bs with
  | [] => []
  | b :: t =>
    match need with
    | O =>
      if (b <? 0x80)%N then b :: utf8_decode 0 0%N t
      else if (b <? 0xE0)%N then utf8_decode 1 (N.land b 0x1F) t
      else if (b <? 0xF0)%N then utf8_decode 2 (N.land b 0x0F) t
      else utf8_decode 3 (N.land b 0x07) t
    | S n =>
      let acc' := (acc * 64 + N.land b 0x3F)%N in
      match n with
      | O => acc' :: utf8_decode 0 0%N t
      | S _ => utf8_decode n acc' t
      end
    end
  end.

Definition u (s : string) : str :=
  utf8_decode 0 0%N (map N_of_ascii (list_ascii_of_string s)).

(** [Py_UNICODE_ISSPACE]: the characters of [str.isspace], [str.strip],
    [str.split] and of [\s] in a [str] pattern. *)
Definition is_space (c : N) : bool :=
  ((0x09 <=? c) && (c <=? 0x0D) || (0x1C <=? c) && (c <=? 0x20)
   || (c =? 0x85) || (c =? 0xA0) || (c =? 0x1680)
   || (0x2000 <=? c) && (c <=? 0x200A)
   || (c =? 0x2028) || (c =? 0x2029) || (c =? 0x202F) || (c =? 0x205F)
   || (c =? 0x3000))%N.

(** The code points of the digit zero of every block of ten decimal digits
    (general category Nd, Unicode 14.0, the database of CPython 3.11):
    [\d] in a [str] pattern matches exactly the Nd characters, and [int]
    reads each of them with its decimal value. *)
Definition unicode_Nd_zeros : list N :=
  [ 0x30; 0x660; 0x6f0; 0x7c0; 0x966; 0x9e6; 0xa66; 0xae6; 0xb66; 0xbe6;
    0xc66; 0xce6; 0xd66; 0xde6; 0xe50; 0xed0; 0xf20; 0x1040; 0x1090;
    0x17e0; 0x1810; 0x1946; 0x19d0; 0x1a80; 0x1a90; 0x1b50; 0x1bb0;
    0x1c40; 0x1c50; 0xa620; 0xa8d0; 0xa900; 0xa9d0; 0xa9f0; 0xaa50;
    0xabf0; 0xff10; 0x104a0; 0x10d30; 0x11066; 0x110f0; 0x11136; 0x111d0;
    0x112f0; 0x11450; 0x114d0; 0x11650; 0x116c0; 0x11730; 0x118e0;
    0x11950; 0x11c50; 0x11d50; 0x11da0; 0x16a60; 0x16ac0; 0x16b50;
    0x1d7ce; 0x1d7d8; 0x1d7e2; 0x1d7ec; 0x1d7f6; 0x1e140; 0x1e2f0;
    0x1e950; 0x1fbf0 ]%N.

Definition in_block (c z : N) : bool := ((z <=? c) && (c <? z + 10))%N.

Definition is_decimal (c : N) : bool :=
  existsb (in_block c) unicode_Nd_zeros.

Definition decimal_value (c : N) : N :=
  match List.find (in_block c) unicode_Nd_zeros with
  | Some z => (c - z)%N
  | None => 0%N
  end.

(** [str.lower], one code point at a time.  The table covers the capital
    letters of Basic Latin and of the Cyrillic range U+0400-U+042F, the
    alphabets of the application's records, and the two other code points
    whose lower case contains a Basic Latin letter (U+0130 and the Kelvin
    sign U+212A); any other code point is returned as it is.  For
    [normalize_dob] this loses nothing: a code point outside the table
    neither is nor lowers to a character that the allow-list of the second
    substitution keeps. *)
Definition lower_cp (c : N) : str :=
  if ((0x41 <=? c) && (c <=? 0x5A))%N then [(c + 0x20)%N]
  else if ((0x410 <=? c) && (c <=? 0x42F))%N then [(c + 0x20)%N]
  else if ((0x400 <=? c) && (c <=? 0x40F))%N then [(c + 0x50)%N]
  else if (c =? 0x130)%N then [0x69; 0x307]%N
  else if (c =? 0x212A)%N then [0x6B]%N
  else [c].

Definition py_lower (s : str) : str := flat_map lower_cp s.

(** [str.strip()] *)
Fixpoint lstrip (s : str) : str :=
  match s with
  | c :: t => if is_space c then lstrip t else s
  | [] => []
  end.

Definition py_strip (s : str) : str := rev (lstrip (rev (lstrip s))).

(** [s.startswith(w)] *)
Fixpoint startswith (w s : str) : bool :=
  match w, s with
  | [], _ => true
  | a :: w', b :: s' => (a =? b)%N && startswith w' s'
  | _ :: _, [] => false
  end.

(** [w in s] *)
Fixpoint py_in (w s : str) : bool :=
  startswith w s ||
  match s with
  | [] => false
  | _ :: t => py_in w t
  end.

(** [s.replace(w, r)] for a non-empty [w]: the occurrences are replaced
    from the left and do not overlap; [skip] counts the characters of the
    occurrence just replaced that are still to be passed over. *)
Fixpoint replace_from (w r : str) (skip : nat) (s : str) : str :=
  match s with
  | [] => []
  | c :: t =>
    match skip with
    | S n => replace_from w r n t
    | O =>
      if startswith w s then r ++ replace_from w r (length w - 1) t
      else c :: replace_from w r 0 t
    end
  end.

Definition py_replace (w r s : str) : str := replace_from w r 0 s.

Definition str_eqb (a b : str) : bool := bool_decide (a = b).

(* ===================================================================== *)
(** * The fragment of [re] used by the program *)
(* ===================================================================== *)

(** Patterns: literals, character classes, concatenation, ordered
    alternation, a greedy [+] over a class, and named groups. *)
Inductive regex : Type :=
| Eps
| Lit (c : N)
| Class (p : N → bool)
| Cat (r1 r2 : regex)
| Alt (r1 r2 : regex)
| Plus (p : N → bool)
| Group (name : N) (r : regex).

(** The groups matched so far, latest first. *)
Definition groups : Type := list (N * str).

(** Greedy repetition of a class with backtracking: the longest run is
    tried first, then shorter ones. *)
Fixpoint star {A} (p : N → bool) (s : str) (pos : nat)
    (k : str → nat → option A) : option A :=
  match s with
  | c :: t =>
    if p c then
      match star p t (S pos) k with
      | Some a => Some a
      | None => k s pos
      end
    else k s pos
  | [] => k s pos
  end.

(** The backtracking matcher of [re], in continuation-passing style: [s]
    is the text from position [pos] on, [k] is what remains to be matched.
    The first success in the order of the alternatives is the answer. *)
Fixpoint rmatch {A} (r : regex) (s : str) (pos : nat) (gs : groups)
    (k : str → nat → groups → option A) : option A :=
  match r with
  | Eps => k s pos gs
  | Lit c =>
    match s with
    | x :: t => if (x =? c)%N then k t (S pos) gs else None
    | [] => None
    end
  | Class p =>
    match s with
    | x :: t => if p x then k t (S pos) gs else None
    | [] => None
    end
  | Cat r1 r2 => rmatch r1 s pos gs (fun s' pos' gs' => rmatch r2 s' pos' gs' k)
  | Alt r1 r2 =>
    match rmatch r1 s pos gs k with
    | Some a => Some a
    | None => rmatch r2 s pos gs k
    end
  | Plus p =>
    match s with
    | x :: t => if p x then star p t (S pos) (fun s' pos' => k s' pos' gs) else None
    | [] => None
    end
  | Group name r1 =>
    rmatch r1 s pos gs
      (fun s' pos' gs' => k s' pos' ((name, take (pos' - pos) s) :: gs'))
  end.

(** [pattern.match(s)]: the end of the match and its groups. *)
Definition re_match (r : regex) (s : str) : option (nat * groups) :=
  rmatch r s 0 [] (fun _ pos gs => Some (pos, gs)).

(** [re.sub(pattern, repl, s)] for a pattern that matches no empty text
    (all patterns of the program): the text is scanned from the left, each
    match is replaced by [repl] and the scan resumes after it. *)
Fixpoint re_sub_from (r : regex) (repl : str) (skip : nat) (s : str) : str :=
  match s with
  | [] => []
  | c :: t =>
    match skip with
    | S n => re_sub_from r repl n t
    | O =>
      match re_match r s with
      | Some (S n, _) => repl ++ re_sub_from r repl n t
      | _ => c :: re_sub_from r repl 0 t
      end
    end
  end.

Definition re_sub (r : regex) (repl s : str) : str := re_sub_from r repl 0 s.

(** A literal word as a pattern. *)
Fixpoint re_word (w : str) : regex :=
  match w with
  | [] => Eps
  | c :: w' => Cat (Lit c) (re_word w')
  end.

(** [\D] *)
Definition re_nondigit : regex := Class (fun c => negb (is_decimal c)).

(** [\s+] *)
Definition re_spaces : regex := Plus is_space.

(* ===================================================================== *)
(** * Python values and exceptions *)
(* ===================================================================== *)

(** The scalars found in a field of a record: a missing value ([None] or
    the float [nan] of pandas), an [int], a [str]. *)
Inductive pyval : Type :=
| PyNone
| PyNaN
| PyInt (z : Z)
| PyStr (s : str).

Inductive exn : Type :=
| KeyError (key : string)
| TypeError
| ValueError.

Inductive res (A : Type) : Type :=
| Ok (a : A)
| Raise (e : exn).
Arguments Ok {A} a.
Arguments Raise {A} e.

#[global] Instance res_ret : MRet res := fun A a => Ok a.
#[global] Instance res_bind : MBind res := fun A B f m =>
  match m with
  | Ok a => f a
  | Raise e => Raise e
  end.
#[global] Instance res_fmap : FMap res := fun A B f m =>
  match m with
  | Ok a => Ok (f a)
  | Raise e => Raise e
  end.

(** [str(v)] *)
Definition py_str (v : pyval) : str :=
  match v with
  | PyNone => u "None"
  | PyNaN => u "nan"
  | PyInt z => u (NilZero.string_of_int (Z.to_int z))
  | PyStr s => s
  end.

(** [isinstance(v, str)] *)
Definition isinstance_str (v : pyval) : bool :=
  match v with
  | PyStr _ => true
  | _ => false
  end.

(** [pd.isna(v)] on a scalar *)
Definition pd_isna (v : pyval) : bool :=
  match v with
  | PyNone | PyNaN => true
  | _ => false
  end.

(** [v == ""] *)
Definition is_empty_str (v : pyval) : bool :=
  match v with
  | PyStr [] => true
  | _ => false
  end.

(* ===================================================================== *)
(** * normalize_snils *)
(* ===================================================================== *)

Definition normalize_snils (snils_str : pyval) : res str :=
  let snils_str := if isinstance_str snils_str then snils_str
                   else PyStr (py_str snils_str) in
  let digits := re_sub re_nondigit [] (py_str snils_str) in
  mret (if length digits =? 11 then digits else []).

(* ===================================================================== *)
(** * [datetime]: strptime and strftime *)
(* ===================================================================== *)

(** The date part of a [datetime]; the formats of the program set no time
    field. *)
Record datetime : Type := Datetime { year : N; month : N; day : N }.

Definition is_leap (y : N) : bool :=
  ((y mod 4 =? 0) && (negb (y mod 100 =? 0) || (y mod 400 =? 0)))%N.

Definition days_in_month (y m : N) : N :=
  (if m =? 2 then (if is_leap y then 29 else 28)
   else if (m =? 4) || (m =? 6) || (m =? 9) || (m =? 11) then 30
   else 31)%N.

(** The checks of the [datetime] constructor (MINYEAR = 1, MAXYEAR = 9999). *)
Definition valid_date (y m d : N) : bool :=
  ((1 <=? y) && (y <=? 9999) && (1 <=? m) && (m <=? 12)
   && (1 <=? d) && (d <=? days_in_month y m))%N.

Definition mk_datetime (y m d : N) : res datetime :=
  if valid_date y m d then Ok (Datetime y m d) else Raise ValueError.

(** [int(s)] on the text of a group: decimal digits, possibly inside
    white space. *)
Definition py_int (s : str) : res N :=
  let ds := py_strip s in
  if forallb is_decimal ds && negb (length ds =? 0) then
    Ok (fold_left (fun acc c => (acc * 10 + decimal_value c)%N) ds 0%N)
  else Raise ValueError.

Definition in_range (lo hi c : N) : bool := ((lo <=? c) && (c <=? hi))%N.

Definition ch (a : ascii) : N := N_of_ascii a.

(** The directives of [_strptime.TimeRE] that the formats of the program
    use:
<<
  'd': (?P<d>3[0-1]|[1-2]\d|0[1-9]|[1-9]| [1-9])
  'm': (?P<m>1[0-2]|0[1-9]|[1-9])
  'y': (?P<y>\d\d)
  'Y': (?P<Y>\d\d\d\d)
>>
    Any other directive is refused. *)
Definition re_day : regex :=
  Alt (Cat (Lit (ch "3")) (Class (in_range (ch "0") (ch "1"))))
 (Alt (Cat (Class (in_range (ch "1") (ch "2"))) (Class is_decimal))
 (Alt (Cat (Lit (ch "0")) (Class (in_range (ch "1") (ch "9"))))
 (Alt (Class (in_range (ch "1") (ch "9")))
      (Cat (Lit (ch " ")) (Class (in_range (ch "1") (ch "9"))))))).

Definition re_month : regex :=
  Alt (Cat (Lit (ch "1")) (Class (in_range (ch "0") (ch "2"))))
 (Alt (Cat (Lit (ch "0")) (Class (in_range (ch "1") (ch "9"))))
      (Class (in_range (ch "1") (ch "9")))).

Definition re_year2 : regex := Cat (Class is_decimal) (Class is_decimal).

Definition re_year4 : regex :=
  Cat (Class is_decimal) (Cat (Class is_decimal)
 (Cat (Class is_decimal) (Class is_decimal))).

Definition directive_regex (c : N) : option regex :=
  if (c =? ch "d")%N then Some (Group c re_day)
  else if (c =? ch "m")%N then Some (Group c re_month)
  else if (c =? ch "y")%N then Some (Group c re_year2)
  else if (c =? ch "Y")%N then Some (Group c re_year4)
  else None.

(** [TimeRE.pattern]: a run of white space of the format becomes [\s+], a
    directive becomes its pattern, any other character stands for itself.
    (The pattern is compiled with IGNORECASE; the formats of the program
    contain no letter outside their directives.) *)
Inductive fmt_mode : Type := InText | InSpace | AfterPercent.

Fixpoint pattern (mode : fmt_mode) (format : str) : option regex :=
  match format with
  | [] => match mode with AfterPercent => None | _ => Some Eps end
  | c :: t =>
    match mode with
    | AfterPercent =>
      r ← directive_regex c; rest ← pattern InText t; Some (Cat r rest)
    | _ =>
      if (c =? ch "%")%N then pattern AfterPercent t
      else if is_space c then
        match mode with
        | InSpace => pattern InSpace t
        | _ => rest ← pattern InSpace t; Some (Cat re_spaces rest)
        end
      else rest ← pattern InText t; Some (Cat (Lit c) rest)
    end
  end.

(** The value of a group, if the format has it. *)
Fixpoint group (name : N) (gs : groups) : option str :=
  match gs with
  | [] => None
  | (n, s) :: rest => if (n =? name)%N then Some s else group name rest
  end.

Definition int_group (name : N) (default : N) (gs : groups) : res N :=
  match group name gs with
  | Some s => py_int s
  | None => Ok default
  end.

(** The second half of [_strptime]: the fields of the date from the groups
    of the match.  A two-digit year up to 68 is in the century 2000, from
    69 on in 1900; a field the format lacks has its default (1900-01-01);
    the [datetime] constructor checks the fields. *)
Definition date_of_groups (found : groups) : res datetime :=
  y ← match group (ch "y") found, group (ch "Y") found with
      | _, Some s => py_int s
      | Some s, None =>
        yy ← py_int s;
        mret (if (yy <=? 68)%N then (yy + 2000)%N else (yy + 1900)%N)
      | None, None => Ok 1900%N
      end;
  m ← int_group (ch "m") 1%N found;
  d ← int_group (ch "d") 1%N found;
  mk_datetime y m d.

(** [datetime.strptime(data_string, format)]: the text must match the
    pattern of the format, the match must reach the end of the text, and
    the fields must form a date. *)
Definition strptime (data_string format : str) : res datetime :=
  match pattern InText format with
  | None => Raise ValueError
  | Some format_regex =>
    match re_match format_regex data_string with
    | None => Raise ValueError
    | Some (fin, found) =>
      if negb (length data_string =? fin) then Raise ValueError
      else date_of_groups found
    end
  end.

(** [%0wd] of a number below [10^w], as the fields of a date are. *)
Fixpoint zero_pad (w : nat) (n : N) : str :=
  match w with
  | O => []
  | S w' => zero_pad w' (n / 10)%N ++ [(ch "0" + n mod 10)%N]
  end.

(** [dt.strftime(format)] for the directives [%Y], [%m], [%d], as the
    library documents them: the year with century, the month and the day,
    zero-padded to four, two and two digits.  (The call goes to the C
    library, and some print a year below 1000 without the padding; the
    model follows the documentation.) *)
Fixpoint strftime_from (dt : datetime) (percent : bool) (format : str) : str :=
  match format with
  | [] => []
  | c :: t =>
    if percent then
      (if (c =? ch "Y")%N then zero_pad 4 (year dt)
       else if (c =? ch "m")%N then zero_pad 2 (month dt)
       else if (c =? ch "d")%N then zero_pad 2 (day dt)
       else [ch "%"; c]) ++ strftime_from dt false t
    else if (c =? ch "%")%N then strftime_from dt true t
    else c :: strftime_from dt false t
  end.

Definition strftime (dt : datetime) (format : str) : str :=
  strftime_from dt false format.

(* ===================================================================== *)
(** * normalize_dob *)
(* ===================================================================== *)

(** [[гг\.]]: the Cyrillic letter U+0433, twice, and the full stop. *)
Definition re_year_marks : regex :=
  Class (fun c => (c =? 0x433) || (c =? 0x433) || (c =? ch "."))%N.

(** [[^0-9a-zа-яё\s\-\/\.\']] *)
Definition dob_allowed (c : N) : bool :=
  in_range (ch "0") (ch "9") c || in_range (ch "a") (ch "z") c
  || in_range 0x430 0x44F c || (c =? 0x451)%N || is_space c
  || (c =? ch "-")%N || (c =? ch "/")%N || (c =? ch ".")%N || (c =? ch "'")%N.

Definition re_not_allowed : regex := Class (fun c => negb (dob_allowed c)).

Definition month_map : list (str * str) :=
  [ (u "янв", u "01"); (u "фев", u "02"); (u "мар", u "03");
    (u "апр", u "04"); (u "май", u "05"); (u "июн", u "06");
    (u "июл", u "07"); (u "авг", u "08"); (u "сен", u "09");
    (u "окт", u "10"); (u "ноя", u "11"); (u "дек", u "12") ].

Definition formats : list str :=
  [ u "%d.%m.%Y"; u "%d/%m/%Y"; u "%Y-%m-%d"; u "%d %m %Y"; u "%d.%m'%y" ].

(** The loop over [month_map.items()]. *)
Definition sub_months (s : str) : str :=
  fold_left
    (fun s wn => if py_in wn.1 s then re_sub (re_word wn.1) wn.2 s else s)
    month_map s.

(** The loop over [formats]: the first format that parses wins, an
    exception of [strptime] moves on to the next one. *)
Fixpoint try_formats (s : str) (fmts : list str) : res str :=
  match fmts with
  | [] => mret []
  | fmt :: rest =>
    match dt ← strptime s fmt; mret (strftime dt (u "%Y-%m-%d")) with
    | Ok r => Ok r
    | Raise _ => try_formats s rest
    end
  end.

(** The text handed to [strptime]. *)
Definition dob_clean (dob_str : pyval) : str :=
  let s := py_lower (py_str dob_str) in
  let s := re_sub re_year_marks [] s in
  let s := re_sub re_not_allowed [] s in
  sub_months s.

Definition normalize_dob (dob_str : pyval) : res str :=
  if pd_isna dob_str || is_empty_str dob_str then mret []
  else try_formats (dob_clean dob_str) formats.

(** The canonical text of a date, and its shape: four digits, a hyphen,
    two digits, a hyphen, two digits. *)
Definition iso_date (y m d : N) : str :=
  zero_pad 4 y ++ ch "-" :: zero_pad 2 m ++ ch "-" :: zero_pad 2 d.

Definition is_ascii_digit (c : N) : bool := in_range (ch "0") (ch "9") c.

Definition iso_shape (s : str) : bool :=
  match s with
  | [y1; y2; y3; y4; h1; m1; m2; h2; d1; d2] =>
    forallb is_ascii_digit [y1; y2; y3; y4; m1; m2; d1; d2]
    && (h1 =? ch "-")%N && (h2 =? ch "-")%N
  | _ => false
  end.

(** The characters of a canonical date. *)
Definition iso_char (c : N) : bool := is_ascii_digit c || (c =? ch "-")%N.

(* ===================================================================== *)
(** * normalize_mnn *)
(* ===================================================================== *)

Definition typo_fix : list (str * str) :=
  [ (u "парацитамол", u "парацетамол"); (u "ибупрафен", u "ибупрофен") ].

Definition normalize_mnn (mnn : pyval) : res str :=
  if pd_isna mnn then mret []
  else
    let s := py_lower (py_strip (py_str mnn)) in
    let s := re_sub re_spaces [ch " "] s in
    mret (fold_left
            (fun s wr => if py_in wr.1 s then py_replace wr.1 wr.2 s else s)
            typo_fix s).


(** The interface of [fuzzywuzzy.fuzz] to the extractor: three scorers,
    each an integer percentage. *)
Class Fuzz : Type := {
  fuzz_ratio : str → str → Z;
  fuzz_partial_ratio : str → str → Z;
  fuzz_token_sort_ratio : str → str → Z
}.

(* ===================================================================== *)
(** * [difflib.SequenceMatcher] and [fuzzywuzzy.fuzz] *)
(* ===================================================================== *)

(** [SequenceMatcher(None, a, b)]: no junk predicate, [autojunk] on. *)
Module difflib.

(** A [Match(a, b, size)]. *)
Definition block : Type := (nat * nat * nat)%type.

Definition count (x : N) (b : str) : nat :=
  length (List.filter (N.eqb x) b).

(** [bpopular]: in a [b] of 200 elements or more, the elements that occur
    more than [n // 100 + 1] times. *)
Definition popular (b : str) (x : N) : bool :=
  (200 <=? length b) && (length b / 100 + 1 <? count x b).

Fixpoint indices (x : N) (b : str) (j : nat) : list nat :=
  match b with
  | [] => []
  | y :: t => if (x =? y)%N then j :: indices x t (S j) else indices x t (S j)
  end.

(** [b2j.get(x, [])]: the positions of [x] in [b], ascending, none for a
    popular element. *)
Definition b2j (b : str) (x : N) : list nat :=
  if popular b x then [] else indices x b 0.

(** The loop over [j] for one [i]: [best] is [(besti, bestj, bestsize)]. *)
Fixpoint scan_row (js : list nat) (i blo bhi : nat)
    (j2len newj2len : gmap nat nat) (best : block)
    : gmap nat nat * block :=
  match js with
  | [] => (newj2len, best)
  | j :: rest =>
    if j <? blo then scan_row rest i blo bhi j2len newj2len best
    else if bhi <=? j then (newj2len, best)
    else
      let k := match j with
               | O => 0
               | S j' => default 0 (j2len !! j')
               end + 1 in
      let best := if best.2 <? k then (i + 1 - k, j + 1 - k, k) else best in
      scan_row rest i blo bhi j2len (<[j := k]> newj2len) best
  end.

(** The loop over [i] in [range(alo, ahi)]. *)
Fixpoint scan (a b : str) (is_ : list nat) (blo bhi : nat)
    (j2len : gmap nat nat) (best : block) : block :=
  match is_ with
  | [] => best
  | i :: rest =>
    let '(newj2len, best) :=
      scan_row (b2j b (nth i a 0%N)) i blo bhi j2len ∅ best in
    scan a b rest blo bhi newj2len best
  end.

(** The first [while] loop: the best block is extended to the left by
    equal elements (the popular ones, which [b2j] lacks), as long as
    [besti > alo] and [bestj > blo]. *)
Fixpoint extend_left (a b : str) (alo blo : nat) (besti bestj bestsize : nat)
    : block :=
  match besti with
  | O => (besti, bestj, bestsize)
  | S i' =>
    if (alo <? besti) && (blo <? bestj)
       && (nth i' a 0 =? nth (bestj - 1) b 0)%N
    then extend_left a b alo blo i' (bestj - 1) (bestsize + 1)
    else (besti, bestj, bestsize)
  end.

(** The second [while] loop, to the right; [room] is
    [ahi - (besti + bestsize)], so that [besti + bestsize < ahi] is
    [room > 0]. *)
Fixpoint extend_right (a b : str) (bhi : nat) (besti bestj bestsize : nat)
    (room : nat) : block :=
  match room with
  | O => (besti, bestj, bestsize)
  | S room' =>
    if (bestj + bestsize <? bhi)
       && (nth (besti + bestsize) a 0 =? nth (bestj + bestsize) b 0)%N
    then extend_right a b bhi besti bestj (bestsize + 1) room'
    else (besti, bestj, bestsize)
  end.

(** [find_longest_match(alo, ahi, blo, bhi)].  With no junk the last two
    [while] loops, which extend by junk elements, never run. *)
Definition find_longest_match (a b : str) (alo ahi blo bhi : nat) : block :=
  let '(besti, bestj, bestsize) :=
    scan a b (seq alo (ahi - alo)) blo bhi ∅ (alo, blo, 0) in
  let '(besti, bestj, bestsize) :=
    extend_left a b alo blo besti bestj bestsize in
  extend_right a b bhi besti bestj bestsize (ahi - (besti + bestsize)).

(** The [while queue] loop of [get_matching_blocks]; the list [queue]
    has the end of the Python list at its head.  Each round removes a
    region from the queue and adds at most two smaller ones; [fuel] bounds
    the number of rounds, and [blocks_loop_fuel] shows that it is never
    used up. *)
Fixpoint blocks_loop (a b : str) (fuel : nat)
    (queue : list (nat * nat * nat * nat)) (matching_blocks : list block)
    : list block :=
  match fuel, queue with
  | S fuel, (alo, ahi, blo, bhi) :: queue =>
    let '(i, j, k) := find_longest_match a b alo ahi blo bhi in
    if k =? 0 then blocks_loop a b fuel queue matching_blocks
    else
      let queue := if (alo <? i) && (blo <? j)
                   then (alo, i, blo, j) :: queue else queue in
      let queue := if (i + k <? ahi) && (j + k <? bhi)
                   then (i + k, ahi, j + k, bhi) :: queue else queue in
      blocks_loop a b fuel queue (matching_blocks ++ [(i, j, k)])
  | _, _ => matching_blocks
  end.

(** Tuple order, for [matching_blocks.sort()]. *)
Definition block_leb (x y : block) : bool :=
  let '(i1, j1, k1) := x in
  let '(i2, j2, k2) := y in
  (i1 <? i2) || (i1 =? i2) && ((j1 <? j2) || (j1 =? j2) && (k1 <=? k2)).

Fixpoint insert_block (x : block) (l : list block) : list block :=
  match l with
  | [] => [x]
  | y :: t => if block_leb x y then x :: l else y :: insert_block x t
  end.

Definition sort_blocks (l : list block) : list block :=
  foldr insert_block [] l.

(** The loop that collapses adjacent equal blocks; [cur] is
    [(i1, j1, k1)]. *)
Fixpoint collapse (cur : block) (l : list block) : list block :=
  let '(i1, j1, k1) := cur in
  match l with
  | [] => if k1 =? 0 then [] else [cur]
  | (i2, j2, k2) :: t =>
    if (i1 + k1 =? i2) && (j1 + k1 =? j2) then collapse (i1, j1, k1 + k2) t
    else (if k1 =? 0 then [] else [cur]) ++ collapse (i2, j2, k2) t
  end.

Definition get_matching_blocks (a b : str) : list block :=
  let la := length a in
  let lb := length b in
  let matching_blocks :=
    blocks_loop a b (2 * la + 2) [(0, la, 0, lb)] [] in
  collapse (0, 0, 0) (sort_blocks matching_blocks) ++ [(la, lb, 0)].

(** The measure of the queue, which every round decreases, and the
    region in which a block lies. *)
Definition queue_measure (queue : list (nat * nat * nat * nat)) : nat :=
  foldr (fun '(alo, ahi, _, _) acc => 2 * (ahi - alo) + 1 + acc) 0 queue.

Definition block_within (alo hi : nat) (best : block) : Prop :=
  alo ≤ best.1.1 ∧ best.1.1 + best.2 ≤ hi.

(** [ratio()]: [2.0 * matches / length], 1.0 for two empty sequences. *)
Definition ratio (a b : str) : Q :=
  let matches := foldr (fun x acc => x.2 + acc) 0 (get_matching_blocks a b) in
  let total := length a + length b in
  if total =? 0 then 1
  else (Z.of_nat (2 * matches) # Pos.of_nat total).

End difflib.

(** [fuzzywuzzy.fuzz] on two [str], with the pure-Python matcher. *)
Module fuzz.

(** [utils.intr]: [int(round(n))], the nearest integer, a tie going to
    the even one. *)
Definition intr (q : Q) : Z :=
  let n := Qnum q in
  let d := Z.pos (Qden q) in
  let fl := (n / d)%Z in
  let twice_rest := (2 * (n - fl * d))%Z in
  if (twice_rest <? d)%Z then fl
  else if (d <? twice_rest)%Z then (fl + 1)%Z
  else if Z.even fl then fl else (fl + 1)%Z.

(** The decorators [check_for_equivalence] and [check_empty_string]
    ([check_for_none] never fires on a [str]). *)
Definition checked (s1 s2 : str) (body : Z) : Z :=
  if str_eqb s1 s2 then 100%Z
  else if (length s1 =? 0) || (length s2 =? 0) then 0%Z
  else body.

Definition ratio (s1 s2 : str) : Z :=
  checked s1 s2 (intr (100 * difflib.ratio s1 s2)).

Definition Qmax (x y : Q) : Q := if Qle_bool x y then y else x.

(** The loop over the blocks: [Some] score when a block reaches 0.995
    ([return 100]), otherwise the scores collected. *)
Fixpoint block_scores (shorter longer : str) (blocks : list difflib.block)
    : option Z * list Q :=
  match blocks with
  | [] => (None, [])
  | (i, j, _) :: rest =>
    let long_start := j - i in
    let long_substr := take (length shorter) (drop long_start longer) in
    let r := difflib.ratio shorter long_substr in
    if negb (Qle_bool r (995 # 1000)) then (Some 100%Z, [])
    else
      let '(early, scores) := block_scores shorter longer rest in
      (early, r :: scores)
  end.

Definition partial_ratio (s1 s2 : str) : Z :=
  checked s1 s2
    (let '(shorter, longer) :=
       if length s1 <=? length s2 then (s1, s2) else (s2, s1) in
     let blocks := difflib.get_matching_blocks shorter longer in
     match block_scores shorter longer blocks with
     | (Some score, _) => score
     | (None, scores) => intr (100 * foldr Qmax 0%Q scores)
     end).

(** [\w] on the alphabets of the model: Basic Latin letters, the
    underscore, the letters of the Cyrillic blocks and the decimal
    digits. *)
Definition is_word (c : N) : bool :=
  in_range (ch "a") (ch "z") c || in_range (ch "A") (ch "Z") c
  || (c =? ch "_")%N || in_range 0x400 0x481 c || in_range 0x48A 0x52F c
  || is_decimal c.

(** [utils.full_process(s, force_ascii=True)]: the code points 128-255
    are deleted, every character that is not a word character becomes a
    space, the text is lowered and stripped. *)
Definition full_process (s : str) : str :=
  let s := List.filter (fun c => negb (in_range 128 255 c)) s in
  let s := re_sub (Class (fun c => negb (is_word c))) [ch " "] s in
  py_strip (py_lower s).

(** [s.split()]: the maximal runs of characters that are not white
    space; [cur] is the run being read, reversed. *)
Fixpoint split_from (cur : str) (s : str) : list str :=
  match s with
  | [] => match cur with [] => [] | _ => [rev cur] end
  | c :: t =>
    if is_space c then
      match cur with
      | [] => split_from [] t
      | _ => rev cur :: split_from [] t
      end
    else split_from (c :: cur) t
  end.

(** The order of [str]: by code points, a prefix first. *)
Fixpoint str_leb (x y : str) : bool :=
  match x, y with
  | [], _ => true
  | _ :: _, [] => false
  | a :: x', b :: y' => (a <? b)%N || (a =? b)%N && str_leb x' y'
  end.

Fixpoint insert_str (x : str) (l : list str) : list str :=
  match l with
  | [] => [x]
  | y :: t => if str_leb x y then x :: l else y :: insert_str x t
  end.

(** [" ".join(tokens)] *)
Fixpoint join (tokens : list str) : str :=
  match tokens with
  | [] => []
  | [t] => t
  | t :: rest => t ++ ch " " :: join rest
  end.

Definition process_and_sort (s : str) : str :=
  let tokens := split_from [] (full_process s) in
  py_strip (join (foldr insert_str [] tokens)).

Definition token_sort_ratio (s1 s2 : str) : Z :=
  ratio (process_and_sort s1) (process_and_sort s2).

End fuzz.

#[global] Instance fuzzywuzzy : Fuzz := {
  fuzz_ratio := fuzz.ratio;
  fuzz_partial_ratio := fuzz.partial_ratio;
  fuzz_token_sort_ratio := fuzz.token_sort_ratio
}.

(* ===================================================================== *)
(** * extract_features *)
(* ===================================================================== *)

(** A float: the rational it denotes, or [nan]. *)
Inductive pyfloat : Type :=
| Fl (q : Q)
| NaN.

(** A record is a [dict] from column names to values. *)
Definition K_SNILS : string := "СНИЛС".
Definition K_DOB : string := "Дата рождения пациента".
Definition K_MNN : string := "МНН".
Definition K_ISSUED : string := "Выписано ЛС".
Definition K_DISP : string := "ЛС (отпущенное / зарезервированное)".
Definition K_QTY_ISSUED : string := "Кол-во выписано".
Definition K_QTY_DISP : string := "Кол-во отпущенного ЛС".

(** [row[key]] *)
Definition getitem (row : gmap string pyval) (key : string) : res pyval :=
  match row !! key with
  | Some v => Ok v
  | None => Raise (KeyError key)
  end.

(** [a - b]: defined on numbers; [None] and [str] have no subtraction. *)
Definition py_sub (a b : pyval) : res pyval :=
  match a, b with
  | PyInt x, PyInt y => Ok (PyInt (x - y))
  | PyInt _, PyNaN | PyNaN, PyInt _ | PyNaN, PyNaN => Ok PyNaN
  | _, _ => Raise TypeError
  end.

(** The values that are no number: [None] and any [str]. *)
Definition non_numeric (v : pyval) : bool :=
  match v with
  | PyNone | PyStr _ => true
  | PyNaN | PyInt _ => false
  end.

(** [abs(v)] *)
Definition py_abs (v : pyval) : res pyval :=
  match v with
  | PyInt x => Ok (PyInt (Z.abs x))
  | PyNaN => Ok PyNaN
  | _ => Raise TypeError
  end.

(** The float that [np.array] stores for a number. *)
Definition np_float (v : pyval) : res pyfloat :=
  match v with
  | PyInt x => Ok (Fl (inject_Z x))
  | PyNaN => Ok NaN
  | _ => Raise ValueError
  end.

(** [score / 100.0] *)
Definition percent (score : Z) : pyfloat := Fl (score # 100).

(** [1.0 if cond else 0.0] *)
Definition flag (cond : bool) : pyfloat := if cond then Fl 1 else Fl 0.

Definition extract_features `{Fuzz} (row_a row_b : gmap string pyval)
    : res (list pyfloat) :=
  mnn_a ← getitem row_a K_MNN ≫= normalize_mnn;
  mnn_b ← getitem row_b K_MNN ≫= normalize_mnn;
  let mnn_ratio := percent (fuzz_ratio mnn_a mnn_b) in
  let mnn_partial := percent (fuzz_partial_ratio mnn_a mnn_b) in

  issued_a ← py_str <$> getitem row_a K_ISSUED;
  issued_b ← py_str <$> getitem row_b K_ISSUED;
  let issued_ratio := percent (fuzz_ratio issued_a issued_b) in
  let issued_token := percent (fuzz_token_sort_ratio issued_a issued_b) in

  disp_a ← py_str <$> getitem row_a K_DISP;
  disp_b ← py_str <$> getitem row_b K_DISP;
  let disp_ratio := percent (fuzz_ratio disp_a disp_b) in

  snils_a ← getitem row_a K_SNILS ≫= normalize_snils;
  snils_b ← getitem row_b K_SNILS ≫= normalize_snils;
  let snils_match := flag (str_eqb snils_a snils_b && (length snils_a =? 11)) in

  dob_a ← getitem row_a K_DOB ≫= normalize_dob;
  dob_b ← getitem row_b K_DOB ≫= normalize_dob;
  let dob_match := flag (str_eqb dob_a dob_b && negb (str_eqb dob_a [])) in

  qa ← getitem row_a K_QTY_ISSUED;
  qb ← getitem row_b K_QTY_ISSUED;
  qty_issued_diff ← py_sub qa qb ≫= py_abs;
  qa ← getitem row_a K_QTY_DISP;
  qb ← getitem row_b K_QTY_DISP;
  qty_disp_diff ← py_sub qa qb ≫= py_abs;

  qty_issued_diff ← np_float qty_issued_diff;
  qty_disp_diff ← np_float qty_disp_diff;
  mret [ mnn_ratio; mnn_partial; issued_ratio; issued_token; disp_ratio;
         snils_match; dob_match; qty_issued_diff; qty_disp_diff ].

(** The dimensions of the vector, numbered from 1 as in the data model. *)
Definition dim (i : nat) (features : list pyfloat) : option pyfloat :=
  features !! (i - 1).

(** A record with the seven columns. *)
Definition record (snils dob mnn issued disp qty_issued qty_disp : pyval)
    : gmap string pyval :=
  list_to_map
    [ (K_SNILS, snils); (K_DOB, dob); (K_MNN, mnn); (K_ISSUED, issued);
      (K_DISP, disp); (K_QTY_ISSUED, qty_issued); (K_QTY_DISP, qty_disp) ].

Definition EXAMPLE_RECORDS : list (gmap string pyval) :=
  [ record (PyStr (u "12345678900")) (PyStr (u "1990-01-01"))
      (PyStr (u "Ибупрофен")) (PyStr (u "Ибупрофен таблетки 200мг №30"))
      (PyStr (u "Ибупрофен таб. 200мг")) (PyInt 2) (PyInt 2);
    record (PyStr (u "123-456-789 00")) (PyStr (u "01.01.1990"))
      (PyStr (u "Парацетамол")) (PyStr (u "Парацетамол таб. 500мг – №20"))
      (PyStr (u "Парацетамол таб. 500мг")) (PyInt 3) (PyInt 2);
    record (PyStr (u "123 456 789 00")) (PyStr (u "1 янв 1990 г."))
      (PyStr (u "парацетамол")) (PyStr (u "ПАРАЦЕТАМОЛ ТАБ 500МГ N20"))
      (PyStr (u "Парацетамол таб 500мг")) (PyInt 3) (PyInt 1) ].

(* ===================================================================== *)
(** * The verdict block of the check button *)
(* ===================================================================== *)

Inductive verdict : Type := SAME | DIFFERENT.

(** [prob > 0.5]; a comparison with [nan] is false. *)
Definition gt_half (prob : pyfloat) : bool :=
  match prob with
  | Fl q => negb (Qle_bool q (1 # 2))
  | NaN => false
  end.

(** [1 - prob] *)
Definition one_minus (prob : pyfloat) : pyfloat :=
  match prob with
  | Fl q => Fl (1 - q)
  | NaN => NaN
  end.

(** The two branches: [st.success] reports [prob] for one prescription,
    [st.error] reports [1 - prob] for different ones. *)
Definition decide_verdict (prob : pyfloat) : verdict * pyfloat :=
  if gt_half prob then (SAME, prob) else (DIFFERENT, one_minus prob).

(** Lines 240-247: the features, the probability of the model (the scaler
    and the network, [score]), the verdict.  An exception of the extractor
    or of the model leaves the block. *)
Definition verdict_block `{Fuzz} (score : list pyfloat → res pyfloat)
    (row1 row2 : gmap string pyval) : res (verdict * pyfloat) :=
  features ← extract_features row1 row2;
  prob ← score features;
  mret (decide_verdict prob).

(** The five text columns of a record. *)
Definition text_columns : list string :=
  [K_MNN; K_ISSUED; K_DISP; K_SNILS; K_DOB].

(* ===================================================================== *)
(** * The handler of the check button *)
(* ===================================================================== *)

(** The values of the widgets: five [st.text_input] and two
    [st.number_input] (integers, as [min_value=1] is one) for each of the
    two records. *)
Record form : Type := Form {
  snils1 : str; dob1 : str; mnn1 : str; issued1 : str; disp1 : str;
  qty_issued1 : Z; qty_disp1 : Z;
  snils2 : str; dob2 : str; mnn2 : str; issued2 : str; disp2 : str;
  qty_issued2 : Z; qty_disp2 : Z
}.

(** The ten text inputs in the order of [required_fields], with their
    labels. *)
Definition text_inputs (f : form) : list (string * str) :=
  [ ("СНИЛС 1", snils1 f);
    ("Дата рождения 1", dob1 f);
    ("МНН 1", mnn1 f);
    ("Выписано ЛС 1", issued1 f);
    ("Отпущено ЛС 1", disp1 f);
    ("СНИЛС 2", snils2 f);
    ("Дата рождения 2", dob2 f);
    ("МНН 2", mnn2 f);
    ("Выписано ЛС 2", issued2 f);
    ("Отпущено ЛС 2", disp2 f) ]%string.

(** [required_fields]: each label with the stripped value. *)
Definition required_fields (f : form) : list (string * str) :=
  map (fun nv => (nv.1, py_strip nv.2)) (text_inputs f).

(** [not val] for a [str] *)
Definition py_not (val : str) : bool := length val =? 0.

(** [[name for name, val in required_fields if not val]] *)
Definition missing (f : form) : list string :=
  map fst (List.filter (fun nv => py_not nv.2) (required_fields f)).

(** The two dictionaries: the values as typed, not stripped. *)
Definition row1 (f : form) : gmap string pyval :=
  record (PyStr (snils1 f)) (PyStr (dob1 f)) (PyStr (mnn1 f))
    (PyStr (issued1 f)) (PyStr (disp1 f))
    (PyInt (qty_issued1 f)) (PyInt (qty_disp1 f)).

Definition row2 (f : form) : gmap string pyval :=
  record (PyStr (snils2 f)) (PyStr (dob2 f)) (PyStr (mnn2 f))
    (PyStr (issued2 f)) (PyStr (disp2 f))
    (PyInt (qty_issued2 f)) (PyInt (qty_disp2 f)).

(** What the handler shows: the warning naming the missing fields, or the
    verdict with its confidence. *)
Inductive shown : Type :=
| Warning (fields : list string)
| Verdict (v : verdict) (confidence : pyfloat).

(** Lines 202-247. *)
Definition on_check `{Fuzz} (score : list pyfloat → res pyfloat) (f : form)
    : res shown :=
  match missing f with
  | _ :: _ => mret (Warning (missing f))
  | [] =>
    vc ← verdict_block score (row1 f) (row2 f);
    mret (Verdict vc.1 vc.2)
  end.

(* ===================================================================== *)
(** * The texts of the fields of a date *)
(* ===================================================================== *)

(** The texts that the patterns of the directives [%d], [%m] and [%Y]
    read, alternative by alternative, and the run of white space that a
    space of a format stands for. *)
Definition is_day_text (t : str) : bool :=
  match t with
  | [a] => in_range (ch "1") (ch "9") a
  | [a; b] =>
    (a =? ch "3")%N && in_range (ch "0") (ch "1") b
    || in_range (ch "1") (ch "2") a && is_decimal b
    || (a =? ch "0")%N && in_range (ch "1") (ch "9") b
    || (a =? ch " ")%N && in_range (ch "1") (ch "9") b
  | _ => false
  end.

Definition is_month_text (t : str) : bool :=
  match t with
  | [a] => in_range (ch "1") (ch "9") a
  | [a; b] =>
    (a =? ch "1")%N && in_range (ch "0") (ch "2") b
    || (a =? ch "0")%N && in_range (ch "1") (ch "9") b
  | _ => false
  end.

Definition is_year_text (t : str) : bool :=
  (length t =? 4) && forallb is_decimal t.

Definition is_blank (t : str) : bool :=
  negb (length t =? 0) && forallb is_space t.

(** The date that the texts of the three fields denote. *)
Definition date_of_texts (yt mt dt : str) : res datetime :=
  y ← py_int yt; m ← py_int mt; d ← py_int dt; mk_datetime y m d.

(** What follows a field does not start with a digit. *)
Definition no_digit_ahead (t : str) : Prop :=
  match t with
  | c :: _ => is_decimal c = false
  | [] => True
  end.

(** The three layouts of a text that a format of the program can parse:
    day/month/year with slashes, year-month-day with hyphens, and day,
    month and year separated by white space. *)
Inductive layout : Type := Slashes | Hyphens | Spaces.

Definition laid_out (l : layout) (dt mt yt s : str) : Prop :=
  match l with
  | Slashes => s = dt ++ ch "/" :: mt ++ ch "/" :: yt
  | Hyphens => s = yt ++ ch "-" :: mt ++ ch "-" :: dt
  | Spaces =>
    ∃ ws1 ws2, is_blank ws1 = true ∧ is_blank ws2 = true
               ∧ s = dt ++ ws1 ++ mt ++ ws2 ++ yt
  end.

Definition layout_format (l : layout) : str :=
  match l with
  | Slashes => u "%d/%m/%Y"
  | Hyphens => u "%Y-%m-%d"
  | Spaces => u "%d %m %Y"
  end.

(** A text in one of the layouts, with fields that the directives read. *)
Definition dob_text (l : layout) (dt mt yt s : str) : Prop :=
  laid_out l dt mt yt s
  ∧ is_day_text dt = true ∧ is_month_text mt = true
  ∧ is_year_text yt = true.

(** What the loop over the formats returns for a date of [strptime]. *)
Definition iso_result (date : res datetime) : res str :=
  match date with
  | Ok dt => Ok (strftime dt (u "%Y-%m-%d"))
  | Raise _ => Ok []
  end.

(** The characters of a text in a layout: digits, white space and the
    separator of the layout. *)
Definition separator (l : layout) (c : N) : bool :=
  match l with
  | Slashes => (c =? ch "/")%N
  | Hyphens => (c =? ch "-")%N
  | Spaces => false
  end.

Definition layout_char (l : layout) (c : N) : bool :=
  is_decimal c || is_space c || separator l c.

(** The characters that the cleaning of [normalize_dob] leaves as they
    are: ASCII digits, white space, the slash and the hyphen. *)
Definition dob_plain (c : N) : bool :=
  is_ascii_digit c || is_space c || (c =? ch "/")%N || (c =? ch "-")%N.

(** The small Cyrillic letters from U+0430 to U+044F, of which the month
    words are made. *)
Definition is_letter (c : N) : bool := in_range 0x430 0x44F c.

(** What the two deletions of [normalize_dob] leave of a text. *)
Definition dob_kept (s : str) : str :=
  re_sub re_not_allowed [] (re_sub re_year_marks [] (py_lower s)).

(** A number of one or two digits as a text: padded with a zero to two
    digits, or, below ten, as its single digit. *)
Definition num_text (n : N) (t : str) : Prop :=
  t = zero_pad 2 n ∨ ((n < 10)%N ∧ t = zero_pad 1 n).

(** The step of the loop over [month_map.items()]. *)
Definition month_step (s : str) (wn : str * str) : str :=
  if py_in wn.1 s then re_sub (re_word wn.1) wn.2 s else s.

(** A text that writes the calendar date [y]-[m]-[d] with numbers, in one
    of the three layouts. *)
Definition writes_date (y m d : N) (s : str) : Prop :=
  valid_date y m d = true
  ∧ ∃ l dt mt, num_text d dt ∧ num_text m mt
               ∧ laid_out l dt mt (zero_pad 4 y) s.

(* ===================================================================== *)
(** * The normal form of a drug name *)
(* ===================================================================== *)

(** [str.lower] is the model [py_lower]: exact on Basic Latin and on the
    Russian alphabet, the identity on the cased letters outside the table
    of [lower_cp].  What is proved below of the result of [normalize_mnn]
    is proved of that model. *)

(** The suffixes of a text that are not empty. *)
Fixpoint tails (l : str) : list str :=
  match l with
  | [] => []
  | _ :: t => l :: tails t
  end.

(** Two texts agree when one starts with the other. *)
Definition agree (a b : str) : bool := startswith a b || startswith b a.

(** An occurrence of [x] cannot touch an occurrence of [r]: it can neither
    start inside [r] nor run into it. *)
Definition no_clash (x r : str) : bool :=
  forallb (fun t => negb (agree x t)) (tails r)
  && forallb (fun y => negb (agree y r)) (tails (tl x)).

(** White space in normal form: every white space character is U+0020,
    no two of them are adjacent, and none ends the text; with
    [after_space] set, none starts it either. *)
Fixpoint single_spaced (after_space : bool) (s : str) : bool :=
  match s with
  | [] => negb after_space
  | c :: t =>
    if is_space c
    then (c =? ch " ")%N && negb after_space && single_spaced true t
    else single_spaced false t
  end.

Definition ws_normal (s : str) : bool :=
  (length s =? 0) || single_spaced true s.

(** A text that [str.lower] leaves alone, character by character. *)
Definition is_lowered (s : str) : bool :=
  forallb (fun c => bool_decide (lower_cp c = [c])) s.

(** The step of the loop over [typo_fix.items()], and the loop. *)
Definition typo_step (s : str) (wr : str * str) : str :=
  if py_in wr.1 s then py_replace wr.1 wr.2 s else s.

Definition fix_typos (s : str) : str := fold_left typo_step typo_fix s.

(** A table of replacements in which no word is empty and no word can
    touch a replacement text. *)
Definition typo_table_ok (l : list (str * str)) : bool :=
  forallb (fun x => negb (length x =? 0)
                    && forallb (fun wr : str * str => no_clash x wr.2) l)
    (map fst l).

(* ===================================================================== *)
(** * Properties of the runtime model *)
(* ===================================================================== *)

Lemma bind_Ok {A B} (m : res A) (f : A → res B) (b : B) :
  m ≫= f = Ok b → ∃ a, m = Ok a ∧ f a = Ok b.
Proof. destruct m as [a|e]; simpl; [eauto | discriminate]. Qed.

Lemma fmap_Ok {A B} (m : res A) (f : A → B) (b : B) :
  f <$> m = Ok b → ∃ a, m = Ok a ∧ f a = b.
Proof. destruct m as [a|e]; simpl; [intros [= <-]; eauto | discriminate]. Qed.

Lemma getitem_Ok (row : gmap string pyval) (key : string) (v : pyval) :
  getitem row key = Ok v ↔ row !! key = Some v.
Proof.
  unfold getitem. destruct (row !! key); split; intros E; congruence.
Qed.

(** Substituting the empty text for a character class deletes the
    characters of the class and keeps the others in order. *)
Lemma re_sub_class_delete (p : N → bool) (s : str) :
  re_sub (Class p) [] s = List.filter (fun c => negb (p c)) s.
Proof.
  unfold re_sub. induction s as [|c t IH]; [reflexivity|].
  cbn [re_sub_from List.filter]. unfold re_match. cbn [rmatch].
  destruct (p c); cbn [negb app]; rewrite IH; reflexivity.
Qed.

Lemma filter_negb_negb (p : N → bool) (s : str) :
  List.filter (fun c => negb (negb (p c))) s = List.filter p s.
Proof.
  apply List.filter_ext. intros c. apply negb_involutive.
Qed.

(** Every normaliser answers [Ok]. *)
Lemma normalize_snils_Ok (v : pyval) :
  normalize_snils v =
  Ok (let digits := List.filter is_decimal (py_str v) in
      if length digits =? 11 then digits else []).
Proof.
  unfold normalize_snils, re_nondigit. rewrite re_sub_class_delete.
  rewrite filter_negb_negb. destruct v; reflexivity.
Qed.

Lemma try_formats_Ok (s : str) (fmts : list str) :
  ∃ r, try_formats s fmts = Ok r.
Proof.
  induction fmts as [|fmt rest IH]; cbn [try_formats]; [by eexists|].
  destruct (_ ≫= _) as [r|e]; [by eexists | exact IH].
Qed.

(* ===================================================================== *)
(** * The queue loop of the matcher ends *)
(* ===================================================================== *)

Lemma scan_row_within (js : list nat) (i alo blo bhi : nat)
    (j2len newj2len : gmap nat nat) (best : difflib.block) :
  alo ≤ i →
  map_Forall (fun _ v => v ≤ i - alo) j2len →
  map_Forall (fun _ v => v ≤ i + 1 - alo) newj2len →
  difflib.block_within alo (i + 1) best →
  map_Forall (fun _ v => v ≤ i + 1 - alo)
    (difflib.scan_row js i blo bhi j2len newj2len best).1
  ∧ difflib.block_within alo (i + 1)
      (difflib.scan_row js i blo bhi j2len newj2len best).2.
Proof.
  intros Hi Hold. revert newj2len best.
  induction js as [|j rest IH]; intros newj2len best Hnew Hbest;
    cbn [difflib.scan_row]; [done|].
  destruct (j <? blo); [by apply IH|].
  destruct (bhi <=? j); [done|].
  set (k := match j with O => 0 | S j' => default 0 (j2len !! j') end + 1).
  assert (k ≤ i + 1 - alo) as Hk.
  { unfold k. destruct j as [|j']; [lia|].
    destruct (j2len !! j') as [v|] eqn:E; simpl; [|lia].
    specialize (Hold _ _ E). simpl in Hold. lia. }
  apply IH.
  - by apply map_Forall_insert_2.
  - destruct (best.2 <? k); [|done]. unfold difflib.block_within. cbn. lia.
Qed.

Lemma scan_within (a b : str) (n alo i blo bhi : nat)
    (j2len : gmap nat nat) (best : difflib.block) :
  alo ≤ i →
  map_Forall (fun _ v => v ≤ i - alo) j2len →
  difflib.block_within alo i best →
  difflib.block_within alo (i + n)
    (difflib.scan a b (seq i n) blo bhi j2len best).
Proof.
  revert i j2len best. induction n as [|n IH]; intros i j2len best Hi Hj Hb.
  - cbn. by rewrite Nat.add_0_r.
  - cbn [seq difflib.scan].
    destruct (difflib.scan_row _ i blo bhi j2len ∅ best) as [new best'] eqn:E.
    pose proof (scan_row_within (difflib.b2j b (nth i a 0%N)) i alo blo bhi
                  j2len ∅ best Hi Hj) as H.
    rewrite E in H. cbn [fst snd] in H.
    destruct H as [Hnew Hbest'].
    { apply map_Forall_empty. }
    { destruct Hb. split; [done | lia]. }
    replace (i + S n) with (S i + n) by lia. apply IH; [lia | | ].
    + by replace (S i - alo) with (i + 1 - alo) by lia.
    + by replace (S i) with (i + 1) by lia.
Qed.

Lemma extend_left_within (a b : str) (alo blo hi : nat)
    (besti bestj bestsize : nat) :
  difflib.block_within alo hi (besti, bestj, bestsize) →
  difflib.block_within alo hi
    (difflib.extend_left a b alo blo besti bestj bestsize).
Proof.
  revert bestj bestsize.
  induction besti as [|i' IH]; intros bestj bestsize Hb; [done|].
  cbn [difflib.extend_left]. destruct (_ && _) eqn:E; [|done].
  apply IH. apply andb_true_iff in E as [[Hi%Nat.ltb_lt _]%andb_true_iff _].
  destruct Hb as [H1 H2]. cbn in *. split; cbn; lia.
Qed.

Lemma extend_right_within (a b : str) (alo ahi bhi : nat)
    (besti bestj bestsize room : nat) :
  difflib.block_within alo ahi (besti, bestj, bestsize) →
  room ≤ ahi - (besti + bestsize) →
  difflib.block_within alo ahi
    (difflib.extend_right a b bhi besti bestj bestsize room).
Proof.
  revert bestsize.
  induction room as [|room IH]; intros bestsize Hb Hr; [done|].
  cbn [difflib.extend_right]. destruct (_ && _) eqn:E; [|done].
  apply IH; [|lia]. destruct Hb as [H1 H2]. cbn in *. split; cbn; lia.
Qed.

(** The block that [find_longest_match] returns lies in the region of
    [a] it was asked about. *)
Lemma find_longest_match_within (a b : str) (alo ahi blo bhi : nat) :
  alo ≤ ahi →
  difflib.block_within alo ahi
    (difflib.find_longest_match a b alo ahi blo bhi).
Proof.
  intros H. unfold difflib.find_longest_match.
  pose proof (scan_within a b (ahi - alo) alo alo blo bhi ∅ (alo, blo, 0))
    as Hs.
  replace (alo + (ahi - alo)) with ahi in Hs by lia.
  destruct (difflib.scan a b _ blo bhi ∅ (alo, blo, 0)) as [[i j] k].
  pose proof (extend_left_within a b alo blo ahi i j k) as Hl.
  destruct (difflib.extend_left a b alo blo i j k) as [[i' j'] k'].
  apply extend_right_within; [|done].
  apply Hl, Hs; [done | apply map_Forall_empty | split; cbn; lia].
Qed.

(** The fuel of the queue loop is never used up: more fuel than the
    measure of the queue changes nothing. *)
Lemma blocks_loop_fuel (a b : str) (fuel extra : nat)
    (queue : list (nat * nat * nat * nat))
    (matching_blocks : list difflib.block) :
  Forall (fun '(alo, ahi, _, _) => alo ≤ ahi) queue →
  difflib.queue_measure queue ≤ fuel →
  difflib.blocks_loop a b (fuel + extra) queue matching_blocks
  = difflib.blocks_loop a b fuel queue matching_blocks.
Proof.
  revert queue matching_blocks.
  induction fuel as [|fuel IH]; intros queue acc Hq Hm.
  - destruct queue as [|[[[alo ahi] blo] bhi] queue]; cbn in Hm; [|lia].
    by destruct extra.
  - destruct queue as [|[[[alo ahi] blo] bhi] queue]; [reflexivity|].
    cbn [Nat.add difflib.blocks_loop].
    apply Forall_cons in Hq as [Hlo Hq]. cbn [difflib.queue_measure foldr] in Hm.
    pose proof (find_longest_match_within a b alo ahi blo bhi Hlo) as Hw.
    destruct (difflib.find_longest_match a b alo ahi blo bhi)
      as [[i j] k]. destruct Hw as [Hw1 Hw2]. cbn in Hw1, Hw2.
    fold (difflib.queue_measure queue) in Hm.
    destruct (k =? 0) eqn:Ek; [apply IH; [done | lia]|].
    apply Nat.eqb_neq in Ek.
    assert ((alo <? i) && (blo <? j) = true → alo < i) as H1
      by (intros [?%Nat.ltb_lt _]%andb_true_iff; lia).
    assert ((i + k <? ahi) && (j + k <? bhi) = true → i + k < ahi) as H2
      by (intros [?%Nat.ltb_lt _]%andb_true_iff; lia).
    destruct ((alo <? i) && (blo <? j)) eqn:E1;
      destruct ((i + k <? ahi) && (j + k <? bhi)) eqn:E2;
      try specialize (H1 eq_refl); try specialize (H2 eq_refl);
      (apply IH;
       [repeat (constructor; [cbn; lia|]); exact Hq
       |cbn [difflib.queue_measure foldr];
        fold (difflib.queue_measure queue); lia]).
Qed.

Lemma get_matching_blocks_fuel (a b : str) (extra : nat) :
  difflib.blocks_loop a b (2 * length a + 2 + extra)
    [(0, length a, 0, length b)] []
  = difflib.blocks_loop a b (2 * length a + 2)
      [(0, length a, 0, length b)] [].
Proof.
  apply blocks_loop_fuel; [repeat constructor; lia | cbn; lia].
Qed.

(* ===================================================================== *)
(** * normalize_snils *)
(* ===================================================================== *)

(** C4.  For every input string, [normalize_snils] deletes every character
    that is not a decimal digit and returns the remaining digits if and
    only if there are exactly 11 of them; for any other number of digits
    it returns the empty string. *)
Theorem normalize_snils_spec (s : str) :
  normalize_snils (PyStr s) =
  Ok (if length (List.filter is_decimal s) =? 11
      then List.filter is_decimal s else []).
Proof.
  unfold normalize_snils. cbn [isinstance_str py_str mret res_ret].
  f_equal. unfold re_nondigit. rewrite re_sub_class_delete.
  by rewrite filter_negb_negb.
Qed.

(** The result is the empty sentinel or an 11-digit text. *)
Lemma normalize_snils_length (v : pyval) (r : str) :
  normalize_snils v = Ok r → r = [] ∨ length r = 11.
Proof.
  rewrite normalize_snils_Ok. cbv zeta. intros [= <-].
  destruct (length _ =? 11) eqn:E; [right | by left].
  by apply Nat.eqb_eq.
Qed.


Lemma normalize_mnn_Ok (v : pyval) : ∃ s, normalize_mnn v = Ok s.
Proof. unfold normalize_mnn. destruct (pd_isna v); by eexists. Qed.

Lemma normalize_dob_Ok (v : pyval) : ∃ s, normalize_dob v = Ok s.
Proof.
  unfold normalize_dob. destruct (_ || _); [by eexists|].
  apply try_formats_Ok.
Qed.

Lemma try_formats_all_fail (s : str) (fmts : list str) :
  (∀ fmt, fmt ∈ fmts → ∃ e, strptime s fmt = Raise e) →
  try_formats s fmts = Ok [].
Proof.
  induction fmts as [|fmt rest IH]; intros Hfail; [reflexivity|].
  cbn [try_formats]. destruct (Hfail fmt) as [e ->]; [left|].
  cbn. apply IH. intros f Hf. apply Hfail. by right.
Qed.

(* ===================================================================== *)
(** * Totality of the normalisers *)
(* ===================================================================== *)


(* ===================================================================== *)
(** * The decision policy *)
(* ===================================================================== *)

Lemma gt_half_spec (p : Q) : gt_half (Fl p) = true ↔ (1 # 2 < p)%Q.
Proof.
  cbn [gt_half]. rewrite negb_true_iff, <- not_true_iff_false, Qle_bool_iff.
  split; [apply Qnot_le_lt | apply Qlt_not_le].
Qed.

(** C9.  A probability [p] gives the verdict SAME exactly when [p > 0.5],
    DIFFERENT otherwise; the confidence reported is [p] for SAME and
    [1 - p] for DIFFERENT. *)
Theorem decide_verdict_spec (p : Q) :
  (decide_verdict (Fl p) = (SAME, Fl p) ∧ (1 # 2 < p)%Q)
  ∨ (decide_verdict (Fl p) = (DIFFERENT, Fl (1 - p)) ∧ ¬ (1 # 2 < p)%Q).
Proof.
  unfold decide_verdict. destruct (gt_half (Fl p)) eqn:E.
  - left. split; [reflexivity | by apply gt_half_spec].
  - right. split; [reflexivity|]. rewrite <- gt_half_spec. congruence.
Qed.

(** What the block does with the value of the model: nothing is checked.
    C5, as the code has it.  Once the features are there, whatever
    probability the scoring function returns, inside [0,1] or not, goes
    straight to the verdict: SAME with that value when it exceeds 0.5,
    DIFFERENT with one minus it otherwise.  Only an exception of the
    scoring call itself leaves the block, unchanged. *)
Theorem verdict_block_unchecked `{Fuzz} (score : list pyfloat → res pyfloat)
    (row1 row2 : gmap string pyval) (features : list pyfloat) :
  extract_features row1 row2 = Ok features →
  verdict_block score row1 row2 =
  match score features with
  | Ok prob => Ok (decide_verdict prob)
  | Raise e => Raise e
  end.
Proof.
  intros E. unfold verdict_block. rewrite E. cbn.
  destruct (score features); reflexivity.
Qed.

(** C5 fails on the code: a scoring function that answers 1.5, or -0.5,
    gets a verdict (with the "confidence" 1.5), not an error. *)
Lemma verdict_block_out_of_range :
  verdict_block (fun _ => Ok (Fl (3 # 2)))
    (EXAMPLE_RECORDS !!! 1%nat) (EXAMPLE_RECORDS !!! 2%nat)
  = Ok (SAME, Fl (3 # 2))
  ∧ verdict_block (fun _ => Ok (Fl (-1 # 2)))
      (EXAMPLE_RECORDS !!! 1%nat) (EXAMPLE_RECORDS !!! 2%nat)
    = Ok (DIFFERENT, Fl (3 # 2)).
Proof. split; vm_compute; reflexivity. Qed.

Lemma verdict_block_unchecked_witness :
  extract_features (EXAMPLE_RECORDS !!! 1%nat) (EXAMPLE_RECORDS !!! 2%nat)
  = Ok [ Fl (100 # 100); Fl (100 # 100); Fl (34 # 100); Fl (86 # 100);
         Fl (98 # 100); Fl 1; Fl 0; Fl 0; Fl 1 ]
  ∧ verdict_block (fun _ => Ok (Fl (3 # 2)))
      (EXAMPLE_RECORDS !!! 1%nat) (EXAMPLE_RECORDS !!! 2%nat)
    = Ok (decide_verdict (Fl (3 # 2))).
Proof.
  split; [vm_compute; reflexivity|].
  apply (verdict_block_unchecked (fun _ => Ok (Fl (3 # 2)))
           (EXAMPLE_RECORDS !!! 1%nat) (EXAMPLE_RECORDS !!! 2%nat)
           [ Fl (100 # 100); Fl (100 # 100); Fl (34 # 100); Fl (86 # 100);
             Fl (98 # 100); Fl 1; Fl 0; Fl 0; Fl 1 ]).
  vm_compute; reflexivity.
Defined.

(* ===================================================================== *)
(** * The birth dates of the example records *)
(* ===================================================================== *)

(** C1, evaluated.  The first substitution deletes every full stop, so
    ["01.01.1990"] reaches [strptime] as ["01011990"] and ["1 янв 1990 г."]
    as ["1 01 1990 "] (with the space that preceded "г."); no format
    parses either, both normalise to the empty string, and the birth-date
    flag of the two example records that carry these dates is 0.0,
    whatever the scorers. *)
Theorem dob_dotted_and_abbreviated `{Fuzz} :
  dob_clean (PyStr (u "01.01.1990")) = u "01011990"
  ∧ dob_clean (PyStr (u "1 янв 1990 г.")) = u "1 01 1990 "
  ∧ normalize_dob (PyStr (u "01.01.1990")) = Ok []
  ∧ normalize_dob (PyStr (u "1 янв 1990 г.")) = Ok []
  ∧ dim 7 <$> extract_features (EXAMPLE_RECORDS !!! 1%nat)
                (EXAMPLE_RECORDS !!! 2%nat) = Ok (Some (Fl 0)).
Proof. repeat split; vm_compute; reflexivity. Qed.

(* ===================================================================== *)
(** * The feature vector *)
(* ===================================================================== *)

(** The absolute difference of one quantity column, as line 88 or 89
    computes it. *)
Lemma qty_diff_swap (qa qb : pyval) :
  (py_sub qa qb ≫= py_abs) = (py_sub qb qa ≫= py_abs).
Proof.
  destruct qa as [| |x|?], qb as [| |y|?]; try reflexivity.
  cbn. do 2 f_equal. lia.
Qed.

Lemma qty_diff_Ok (qa qb d : pyval) :
  py_sub qa qb ≫= py_abs = Ok d →
  (∃ x y, qa = PyInt x ∧ qb = PyInt y ∧ d = PyInt (Z.abs (x - y)))
  ∨ (d = PyNaN ∧ (qa = PyNaN ∨ qb = PyNaN)).
Proof.
  destruct qa as [| |x|?], qb as [| |y|?]; cbn; intros [= <-]; eauto 10.
Qed.

(** When the extractor returns, every step of it has returned. *)
Lemma extract_features_Ok `{Fuzz} (row_a row_b : gmap string pyval)
    (features : list pyfloat) :
  extract_features row_a row_b = Ok features ↔
  ∃ mnn_a mnn_b issued_a issued_b disp_a disp_b snils_a snils_b dob_a dob_b
    qi_a qi_b qi qd_a qd_b qd fi fd,
    getitem row_a K_MNN ≫= normalize_mnn = Ok mnn_a
    ∧ getitem row_b K_MNN ≫= normalize_mnn = Ok mnn_b
    ∧ py_str <$> getitem row_a K_ISSUED = Ok issued_a
    ∧ py_str <$> getitem row_b K_ISSUED = Ok issued_b
    ∧ py_str <$> getitem row_a K_DISP = Ok disp_a
    ∧ py_str <$> getitem row_b K_DISP = Ok disp_b
    ∧ getitem row_a K_SNILS ≫= normalize_snils = Ok snils_a
    ∧ getitem row_b K_SNILS ≫= normalize_snils = Ok snils_b
    ∧ getitem row_a K_DOB ≫= normalize_dob = Ok dob_a
    ∧ getitem row_b K_DOB ≫= normalize_dob = Ok dob_b
    ∧ getitem row_a K_QTY_ISSUED = Ok qi_a
    ∧ getitem row_b K_QTY_ISSUED = Ok qi_b
    ∧ py_sub qi_a qi_b ≫= py_abs = Ok qi
    ∧ getitem row_a K_QTY_DISP = Ok qd_a
    ∧ getitem row_b K_QTY_DISP = Ok qd_b
    ∧ py_sub qd_a qd_b ≫= py_abs = Ok qd
    ∧ np_float qi = Ok fi
    ∧ np_float qd = Ok fd
    ∧ features =
      [ percent (fuzz_ratio mnn_a mnn_b);
        percent (fuzz_partial_ratio mnn_a mnn_b);
        percent (fuzz_ratio issued_a issued_b);
        percent (fuzz_token_sort_ratio issued_a issued_b);
        percent (fuzz_ratio disp_a disp_b);
        flag (str_eqb snils_a snils_b && (length snils_a =? 11));
        flag (str_eqb dob_a dob_b && negb (str_eqb dob_a []));
        fi; fd ].
Proof.
  unfold extract_features. split.
  - intros E.
    repeat (apply bind_Ok in E as (? & ? & E)).
    injection E as <-. do 18 eexists. repeat (split; [eassumption|]).
    reflexivity.
  - intros (mnn_a & mnn_b & issued_a & issued_b & disp_a & disp_b & snils_a
            & snils_b & dob_a & dob_b & qi_a & qi_b & qi & qd_a & qd_b & qd
            & fi & fd & E1 & E2 & E3 & E4 & E5 & E6 & E7 & E8 & E9 & E10
            & E11 & E12 & E13 & E14 & E15 & E16 & E17 & E18 & ->).
    rewrite E1; cbn [mbind res_bind]. rewrite E2; cbn [mbind res_bind].
    rewrite E3; cbn [mbind res_bind]. rewrite E4; cbn [mbind res_bind].
    rewrite E5; cbn [mbind res_bind]. rewrite E6; cbn [mbind res_bind].
    rewrite E7; cbn [mbind res_bind]. rewrite E8; cbn [mbind res_bind].
    rewrite E9; cbn [mbind res_bind]. rewrite E10; cbn [mbind res_bind].
    rewrite E11; cbn [mbind res_bind]. rewrite E12; cbn [mbind res_bind].
    rewrite E13; cbn [mbind res_bind]. rewrite E14; cbn [mbind res_bind].
    rewrite E15; cbn [mbind res_bind]. rewrite E16; cbn [mbind res_bind].
    rewrite E17; cbn [mbind res_bind]. rewrite E18; cbn [mbind res_bind].
    reflexivity.
Qed.

Lemma flag_snils (snils_a snils_b : str) :
  snils_a = [] ∨ length snils_a = 11 →
  flag (str_eqb snils_a snils_b && (length snils_a =? 11)) =
  if bool_decide (snils_a ≠ [] ∧ snils_b ≠ [] ∧ snils_a = snils_b)
  then Fl 1 else Fl 0.
Proof.
  intros Hlen. unfold str_eqb.
  destruct (decide (snils_a = snils_b)) as [<-|Hne].
  - rewrite bool_decide_eq_true_2 by done. cbn [andb].
    destruct Hlen as [-> | Hl].
    + rewrite bool_decide_eq_false_2; [reflexivity | by intros [? _]].
    + rewrite Hl. rewrite bool_decide_eq_true_2; [reflexivity|].
      repeat split; intros ->; discriminate.
  - rewrite (bool_decide_eq_false_2 _ Hne). cbn [andb].
    rewrite bool_decide_eq_false_2; [reflexivity | by intros (_ & _ & ?)].
Qed.

Lemma flag_dob (dob_a dob_b : str) :
  flag (str_eqb dob_a dob_b && negb (str_eqb dob_a [])) =
  if bool_decide (dob_a ≠ [] ∧ dob_b ≠ [] ∧ dob_a = dob_b)
  then Fl 1 else Fl 0.
Proof.
  unfold str_eqb.
  destruct (decide (dob_a = dob_b)) as [<-|Hne].
  - rewrite bool_decide_eq_true_2 by done. cbn [andb].
    destruct (decide (dob_a = [])) as [->|Hn].
    + rewrite bool_decide_eq_true_2 by done.
      rewrite bool_decide_eq_false_2; [reflexivity | by intros [? _]].
    + rewrite (bool_decide_eq_false_2 _ Hn).
      rewrite bool_decide_eq_true_2; [reflexivity | done].
  - rewrite (bool_decide_eq_false_2 _ Hne). cbn [andb].
    rewrite bool_decide_eq_false_2; [reflexivity | by intros (_ & _ & ?)].
Qed.

(** C3.  In a vector that the extractor returns, dimension 6 is 1.0
    exactly when the two normalised identifiers are non-empty and equal,
    and 0.0 otherwise; dimension 7 likewise for the two normalised birth
    dates.  In particular two empty normalisations give 0.0. *)
Theorem exact_match_flags `{Fuzz} (row_a row_b : gmap string pyval)
    (features : list pyfloat) :
  extract_features row_a row_b = Ok features →
  ∃ snils_a snils_b dob_a dob_b,
    getitem row_a K_SNILS ≫= normalize_snils = Ok snils_a
    ∧ getitem row_b K_SNILS ≫= normalize_snils = Ok snils_b
    ∧ getitem row_a K_DOB ≫= normalize_dob = Ok dob_a
    ∧ getitem row_b K_DOB ≫= normalize_dob = Ok dob_b
    ∧ dim 6 features =
      Some (if bool_decide (snils_a ≠ [] ∧ snils_b ≠ [] ∧ snils_a = snils_b)
            then Fl 1 else Fl 0)
    ∧ dim 7 features =
      Some (if bool_decide (dob_a ≠ [] ∧ dob_b ≠ [] ∧ dob_a = dob_b)
            then Fl 1 else Fl 0).
Proof.
  intros E. apply extract_features_Ok in E
    as (mnn_a & mnn_b & issued_a & issued_b & disp_a & disp_b & snils_a
        & snils_b & dob_a & dob_b & qi_a & qi_b & qi & qd_a & qd_b & qd
        & fi & fd & _ & _ & _ & _ & _ & _ & Esa & Esb & Eda & Edb & _ & _
        & _ & _ & _ & _ & _ & _ & ->).
  exists snils_a, snils_b, dob_a, dob_b. repeat (split; [assumption|]).
  cbn [dim lookup list_lookup Nat.sub]. split.
  - f_equal. apply flag_snils.
    apply bind_Ok in Esa as (v & _ & Ev). by apply normalize_snils_length in Ev.
  - f_equal. apply flag_dob.
Qed.

Lemma exact_match_flags_witness :
  extract_features (EXAMPLE_RECORDS !!! 0%nat) (EXAMPLE_RECORDS !!! 2%nat)
  = Ok [ Fl (30 # 100); Fl (33 # 100); Fl (15 # 100); Fl (54 # 100);
         Fl (54 # 100); Fl 1; Fl 0; Fl 1; Fl 1 ]
  ∧ ∃ snils_a snils_b dob_a dob_b,
      getitem (EXAMPLE_RECORDS !!! 0%nat) K_SNILS ≫= normalize_snils
      = Ok snils_a
      ∧ getitem (EXAMPLE_RECORDS !!! 2%nat) K_SNILS ≫= normalize_snils
        = Ok snils_b
      ∧ getitem (EXAMPLE_RECORDS !!! 0%nat) K_DOB ≫= normalize_dob = Ok dob_a
      ∧ getitem (EXAMPLE_RECORDS !!! 2%nat) K_DOB ≫= normalize_dob = Ok dob_b
      ∧ dim 6 [ Fl (30 # 100); Fl (33 # 100); Fl (15 # 100); Fl (54 # 100);
                Fl (54 # 100); Fl 1; Fl 0; Fl 1; Fl 1 ] =
        Some (if bool_decide (snils_a ≠ [] ∧ snils_b ≠ [] ∧ snils_a = snils_b)
              then Fl 1 else Fl 0)
      ∧ dim 7 [ Fl (30 # 100); Fl (33 # 100); Fl (15 # 100); Fl (54 # 100);
                Fl (54 # 100); Fl 1; Fl 0; Fl 1; Fl 1 ] =
        Some (if bool_decide (dob_a ≠ [] ∧ dob_b ≠ [] ∧ dob_a = dob_b)
              then Fl 1 else Fl 0).
Proof.
  split; [vm_compute; reflexivity|].
  apply (exact_match_flags (EXAMPLE_RECORDS !!! 0%nat)
           (EXAMPLE_RECORDS !!! 2%nat)).
  vm_compute; reflexivity.
Defined.

(** The three sentinels of the data model: an empty, a non-numeric and a
    too short identifier all normalise to the empty string, and two such
    records have the identifier flag 0.0. *)
Example snils_sentinels `{Fuzz} :
  normalize_snils (PyStr (u "")) = Ok []
  ∧ normalize_snils (PyStr (u "abc")) = Ok []
  ∧ normalize_snils (PyStr (u "123")) = Ok []
  ∧ dim 6 <$> extract_features
      (record (PyStr (u "abc")) (PyStr (u "1990-01-01")) (PyStr (u "a"))
         (PyStr (u "b")) (PyStr (u "c")) (PyInt 1) (PyInt 1))
      (record (PyStr (u "123")) (PyStr (u "1990-01-01")) (PyStr (u "a"))
         (PyStr (u "b")) (PyStr (u "c")) (PyInt 1) (PyInt 1))
    = Ok (Some (Fl 0)).
Proof. repeat split; vm_compute; reflexivity. Qed.

Lemma qty_diff_Raise (qa qb : pyval) (e : exn) :
  py_sub qa qb ≫= py_abs = Raise e → e = TypeError.
Proof.
  destruct qa as [| |x|?], qb as [| |y|?]; cbn; congruence.
Qed.

Lemma qty_diff_numeric (qa qb d : pyval) :
  py_sub qa qb ≫= py_abs = Ok d →
  non_numeric qa = false ∧ non_numeric qb = false.
Proof.
  destruct qa as [| |x|?], qb as [| |y|?]; cbn; intros [= <-]; done.
Qed.

Lemma np_float_diff (qa qb d : pyval) :
  py_sub qa qb ≫= py_abs = Ok d → ∃ f, np_float d = Ok f.
Proof.
  intros [(x & y & _ & _ & ->) | [-> _]]%qty_diff_Ok; by eexists.
Qed.

(** The only exceptions of the extractor: the [KeyError] of a column that
    one of the records lacks, and the [TypeError] of a subtraction. *)
Lemma extract_features_Raise `{Fuzz} (row_a row_b : gmap string pyval)
    (e : exn) :
  extract_features row_a row_b = Raise e →
  e = TypeError
  ∨ ∃ k, e = KeyError k ∧ (row_a !! k = None ∨ row_b !! k = None).
Proof.
  unfold extract_features, getitem.
  destruct (row_a !! K_MNN) as [v|] eqn:?; cbn [mbind res_bind fmap res_fmap];
    [destruct (normalize_mnn_Ok v) as [? ->]; cbn [mbind res_bind]
    |intros [= <-]; eauto].
  destruct (row_b !! K_MNN) as [v'|] eqn:?; cbn [mbind res_bind fmap res_fmap];
    [destruct (normalize_mnn_Ok v') as [? ->]; cbn [mbind res_bind]
    |intros [= <-]; eauto].
  destruct (row_a !! K_ISSUED) eqn:?; cbn [mbind res_bind fmap res_fmap];
    [|intros [= <-]; eauto].
  destruct (row_b !! K_ISSUED) eqn:?; cbn [mbind res_bind fmap res_fmap];
    [|intros [= <-]; eauto].
  destruct (row_a !! K_DISP) eqn:?; cbn [mbind res_bind fmap res_fmap];
    [|intros [= <-]; eauto].
  destruct (row_b !! K_DISP) eqn:?; cbn [mbind res_bind fmap res_fmap];
    [|intros [= <-]; eauto].
  destruct (row_a !! K_SNILS) as [w|] eqn:?; cbn [mbind res_bind fmap res_fmap];
    [rewrite (normalize_snils_Ok w); cbn [mbind res_bind]
    |intros [= <-]; eauto].
  destruct (row_b !! K_SNILS) as [w'|] eqn:?; cbn [mbind res_bind fmap res_fmap];
    [rewrite (normalize_snils_Ok w'); cbn [mbind res_bind]
    |intros [= <-]; eauto].
  destruct (row_a !! K_DOB) as [b|] eqn:?; cbn [mbind res_bind fmap res_fmap];
    [destruct (normalize_dob_Ok b) as [? ->]; cbn [mbind res_bind]
    |intros [= <-]; eauto].
  destruct (row_b !! K_DOB) as [b'|] eqn:?; cbn [mbind res_bind fmap res_fmap];
    [destruct (normalize_dob_Ok b') as [? ->]; cbn [mbind res_bind]
    |intros [= <-]; eauto].
  destruct (row_a !! K_QTY_ISSUED) as [qa|] eqn:?; cbn [mbind res_bind];
    [|intros [= <-]; eauto].
  destruct (row_b !! K_QTY_ISSUED) as [qb|] eqn:?; cbn [mbind res_bind];
    [|intros [= <-]; eauto].
  destruct (py_sub qa qb ≫= py_abs) as [d|e1] eqn:Ed; cbn [mbind res_bind];
    [|intros [= <-]; left; by eapply qty_diff_Raise].
  destruct (row_a !! K_QTY_DISP) as [qa'|] eqn:?; cbn [mbind res_bind];
    [|intros [= <-]; eauto].
  destruct (row_b !! K_QTY_DISP) as [qb'|] eqn:?; cbn [mbind res_bind];
    [|intros [= <-]; eauto].
  destruct (py_sub qa' qb' ≫= py_abs) as [d'|e2] eqn:Ed'; cbn [mbind res_bind];
    [|intros [= <-]; left; by eapply qty_diff_Raise].
  destruct (np_float_diff _ _ _ Ed) as [f ->].
  destruct (np_float_diff _ _ _ Ed') as [f' ->]. discriminate.
Qed.



(** How the three kinds of bad quantity end, on the first example record:
    an absent column is a [KeyError] that names it, [None] and a string
    are a [TypeError]. *)
Example bad_quantity_kinds :
  extract_features (delete K_QTY_DISP (EXAMPLE_RECORDS !!! 0%nat))
    (EXAMPLE_RECORDS !!! 1%nat) = Raise (KeyError K_QTY_DISP)
  ∧ extract_features (<[K_QTY_ISSUED := PyNone]> (EXAMPLE_RECORDS !!! 0%nat))
      (EXAMPLE_RECORDS !!! 1%nat) = Raise TypeError
  ∧ extract_features (EXAMPLE_RECORDS !!! 0%nat)
      (<[K_QTY_DISP := PyStr (u "2")]> (EXAMPLE_RECORDS !!! 1%nat))
    = Raise TypeError.
Proof. repeat split; vm_compute; reflexivity. Qed.


(* ===================================================================== *)
(** * The order of the two records *)
(* ===================================================================== *)

Lemma str_eqb_sym (a b : str) : str_eqb a b = str_eqb b a.
Proof. unfold str_eqb. apply bool_decide_ext. split; congruence. Qed.

Lemma flag_snils_swap (snils_a snils_b : str) :
  flag (str_eqb snils_b snils_a && (length snils_b =? 11)) =
  flag (str_eqb snils_a snils_b && (length snils_a =? 11)).
Proof.
  rewrite (str_eqb_sym snils_b). unfold str_eqb.
  destruct (decide (snils_a = snils_b)) as [->|Hne]; [reflexivity|].
  by rewrite (bool_decide_eq_false_2 _ Hne).
Qed.

Lemma flag_dob_swap (dob_a dob_b : str) :
  flag (str_eqb dob_b dob_a && negb (str_eqb dob_b [])) =
  flag (str_eqb dob_a dob_b && negb (str_eqb dob_a [])).
Proof.
  rewrite (str_eqb_sym dob_b dob_a). unfold str_eqb at 1 3.
  destruct (decide (dob_a = dob_b)) as [->|Hne]; [reflexivity|].
  by rewrite (bool_decide_eq_false_2 _ Hne).
Qed.

Lemma percent_inj (x y : Z) : Some (percent x) = Some (percent y) ↔ x = y.
Proof. unfold percent. split; [intros [= ->] | intros ->]; reflexivity. Qed.

(** C2, as the code has it.  When the extractor returns for (A, B) it
    returns for (B, A) too, and the two vectors agree in dimensions 6 to
    9; they agree in a similarity dimension (1 to 5) exactly when the
    scorer of that dimension gives the same score to its two arguments in
    both orders, which the extractor itself does nothing to ensure. *)
Theorem extract_features_swapped `{Fuzz} (row_a row_b : gmap string pyval)
    (fa : list pyfloat) :
  extract_features row_a row_b = Ok fa →
  ∃ fb mnn_a mnn_b issued_a issued_b disp_a disp_b,
    extract_features row_b row_a = Ok fb
    ∧ length fa = 9 ∧ length fb = 9
    ∧ getitem row_a K_MNN ≫= normalize_mnn = Ok mnn_a
    ∧ getitem row_b K_MNN ≫= normalize_mnn = Ok mnn_b
    ∧ py_str <$> getitem row_a K_ISSUED = Ok issued_a
    ∧ py_str <$> getitem row_b K_ISSUED = Ok issued_b
    ∧ py_str <$> getitem row_a K_DISP = Ok disp_a
    ∧ py_str <$> getitem row_b K_DISP = Ok disp_b
    ∧ (dim 1 fa = dim 1 fb ↔ fuzz_ratio mnn_a mnn_b = fuzz_ratio mnn_b mnn_a)
    ∧ (dim 2 fa = dim 2 fb ↔
       fuzz_partial_ratio mnn_a mnn_b = fuzz_partial_ratio mnn_b mnn_a)
    ∧ (dim 3 fa = dim 3 fb ↔
       fuzz_ratio issued_a issued_b = fuzz_ratio issued_b issued_a)
    ∧ (dim 4 fa = dim 4 fb ↔
       fuzz_token_sort_ratio issued_a issued_b
       = fuzz_token_sort_ratio issued_b issued_a)
    ∧ (dim 5 fa = dim 5 fb ↔
       fuzz_ratio disp_a disp_b = fuzz_ratio disp_b disp_a)
    ∧ dim 6 fa = dim 6 fb ∧ dim 7 fa = dim 7 fb
    ∧ dim 8 fa = dim 8 fb ∧ dim 9 fa = dim 9 fb.
Proof.
  intros E. apply extract_features_Ok in E
    as (mnn_a & mnn_b & issued_a & issued_b & disp_a & disp_b & snils_a
        & snils_b & dob_a & dob_b & qi_a & qi_b & qi & qd_a & qd_b & qd
        & fi & fd & E1 & E2 & E3 & E4 & E5 & E6 & E7 & E8 & E9 & E10
        & E11 & E12 & E13 & E14 & E15 & E16 & E17 & E18 & ->).
  rewrite qty_diff_swap in E13, E16.
  eexists _, mnn_a, mnn_b, issued_a, issued_b, disp_a, disp_b.
  split.
  { apply extract_features_Ok. do 18 eexists.
    repeat (split; [eassumption|]). reflexivity. }
  repeat (split; [done|]).
  cbn [dim lookup list_lookup Nat.sub].
  rewrite flag_snils_swap, flag_dob_swap, !percent_inj.
  repeat split; congruence.
Qed.

Lemma extract_features_swapped_witness :
  extract_features (EXAMPLE_RECORDS !!! 0%nat) (EXAMPLE_RECORDS !!! 1%nat)
  = Ok [ Fl (30 # 100); Fl (33 # 100); Fl (50 # 100); Fl (51 # 100);
         Fl (57 # 100); Fl 1; Fl 0; Fl 1; Fl 0 ]
  ∧ ∃ fb mnn_a mnn_b issued_a issued_b disp_a disp_b,
      extract_features (EXAMPLE_RECORDS !!! 1%nat) (EXAMPLE_RECORDS !!! 0%nat)
      = Ok fb
      ∧ length [ Fl (30 # 100); Fl (33 # 100); Fl (50 # 100); Fl (51 # 100);
                 Fl (57 # 100); Fl 1; Fl 0; Fl 1; Fl 0 ] = 9
      ∧ length fb = 9
      ∧ getitem (EXAMPLE_RECORDS !!! 0%nat) K_MNN ≫= normalize_mnn = Ok mnn_a
      ∧ getitem (EXAMPLE_RECORDS !!! 1%nat) K_MNN ≫= normalize_mnn = Ok mnn_b
      ∧ py_str <$> getitem (EXAMPLE_RECORDS !!! 0%nat) K_ISSUED = Ok issued_a
      ∧ py_str <$> getitem (EXAMPLE_RECORDS !!! 1%nat) K_ISSUED = Ok issued_b
      ∧ py_str <$> getitem (EXAMPLE_RECORDS !!! 0%nat) K_DISP = Ok disp_a
      ∧ py_str <$> getitem (EXAMPLE_RECORDS !!! 1%nat) K_DISP = Ok disp_b
      ∧ (dim 1 [ Fl (30 # 100); Fl (33 # 100); Fl (50 # 100); Fl (51 # 100);
                 Fl (57 # 100); Fl 1; Fl 0; Fl 1; Fl 0 ] = dim 1 fb ↔
         fuzz_ratio mnn_a mnn_b = fuzz_ratio mnn_b mnn_a)
      ∧ (dim 2 [ Fl (30 # 100); Fl (33 # 100); Fl (50 # 100); Fl (51 # 100);
                 Fl (57 # 100); Fl 1; Fl 0; Fl 1; Fl 0 ] = dim 2 fb ↔
         fuzz_partial_ratio mnn_a mnn_b = fuzz_partial_ratio mnn_b mnn_a)
      ∧ (dim 3 [ Fl (30 # 100); Fl (33 # 100); Fl (50 # 100); Fl (51 # 100);
                 Fl (57 # 100); Fl 1; Fl 0; Fl 1; Fl 0 ] = dim 3 fb ↔
         fuzz_ratio issued_a issued_b = fuzz_ratio issued_b issued_a)
      ∧ (dim 4 [ Fl (30 # 100); Fl (33 # 100); Fl (50 # 100); Fl (51 # 100);
                 Fl (57 # 100); Fl 1; Fl 0; Fl 1; Fl 0 ] = dim 4 fb ↔
         fuzz_token_sort_ratio issued_a issued_b
         = fuzz_token_sort_ratio issued_b issued_a)
      ∧ (dim 5 [ Fl (30 # 100); Fl (33 # 100); Fl (50 # 100); Fl (51 # 100);
                 Fl (57 # 100); Fl 1; Fl 0; Fl 1; Fl 0 ] = dim 5 fb ↔
         fuzz_ratio disp_a disp_b = fuzz_ratio disp_b disp_a)
      ∧ dim 6 [ Fl (30 # 100); Fl (33 # 100); Fl (50 # 100); Fl (51 # 100);
                Fl (57 # 100); Fl 1; Fl 0; Fl 1; Fl 0 ] = dim 6 fb
      ∧ dim 7 [ Fl (30 # 100); Fl (33 # 100); Fl (50 # 100); Fl (51 # 100);
                Fl (57 # 100); Fl 1; Fl 0; Fl 1; Fl 0 ] = dim 7 fb
      ∧ dim 8 [ Fl (30 # 100); Fl (33 # 100); Fl (50 # 100); Fl (51 # 100);
                Fl (57 # 100); Fl 1; Fl 0; Fl 1; Fl 0 ] = dim 8 fb
      ∧ dim 9 [ Fl (30 # 100); Fl (33 # 100); Fl (50 # 100); Fl (51 # 100);
                Fl (57 # 100); Fl 1; Fl 0; Fl 1; Fl 0 ] = dim 9 fb.
Proof.
  split; [vm_compute; reflexivity|].
  apply (extract_features_swapped (EXAMPLE_RECORDS !!! 0%nat)
           (EXAMPLE_RECORDS !!! 1%nat)).
  vm_compute; reflexivity.
Defined.

(** C2 fails on the code.  Two records that differ in the drug name only,
    ["abcd"] against ["xabc"]: [fuzz.partial_ratio] takes its first
    argument as the shorter text when the lengths are equal, scores
    ["abcd"] against the window ["abc"] (86) but ["xabc"] against the
    window ["abcd"] (75), and dimension 2 depends on the order. *)
Lemma extract_features_order_matters :
  extract_features
    (record (PyStr (u "12345678900")) (PyStr (u "1990-01-01"))
       (PyStr (u "abcd")) (PyStr (u "tab 500mg")) (PyStr (u "tab 500mg"))
       (PyInt 1) (PyInt 1))
    (record (PyStr (u "12345678900")) (PyStr (u "1990-01-01"))
       (PyStr (u "xabc")) (PyStr (u "tab 500mg")) (PyStr (u "tab 500mg"))
       (PyInt 1) (PyInt 1))
  = Ok [ Fl (75 # 100); Fl (86 # 100); Fl (100 # 100); Fl (100 # 100);
         Fl (100 # 100); Fl 1; Fl 1; Fl 0; Fl 0 ]
  ∧ extract_features
      (record (PyStr (u "12345678900")) (PyStr (u "1990-01-01"))
         (PyStr (u "xabc")) (PyStr (u "tab 500mg")) (PyStr (u "tab 500mg"))
         (PyInt 1) (PyInt 1))
      (record (PyStr (u "12345678900")) (PyStr (u "1990-01-01"))
         (PyStr (u "abcd")) (PyStr (u "tab 500mg")) (PyStr (u "tab 500mg"))
         (PyInt 1) (PyInt 1))
    = Ok [ Fl (75 # 100); Fl (75 # 100); Fl (100 # 100); Fl (100 # 100);
           Fl (100 # 100); Fl 1; Fl 1; Fl 0; Fl 0 ].
Proof. split; vm_compute; reflexivity. Qed.

(** The same on two of the program's own example records: with the
    pure-Python matcher, [fuzz.ratio] of the two prescribed texts is 15 in
    one order and 23 in the other (dimension 3). *)
Example example_records_order_matters :
  dim 3 <$> extract_features (EXAMPLE_RECORDS !!! 0%nat)
              (EXAMPLE_RECORDS !!! 2%nat) = Ok (Some (Fl (15 # 100)))
  ∧ dim 3 <$> extract_features (EXAMPLE_RECORDS !!! 2%nat)
                (EXAMPLE_RECORDS !!! 0%nat) = Ok (Some (Fl (23 # 100))).
Proof. split; vm_compute; reflexivity. Qed.

(* ===================================================================== *)
(** * The result of normalize_dob *)
(* ===================================================================== *)

Lemma strptime_valid (s fmt : str) (dt : datetime) :
  strptime s fmt = Ok dt →
  valid_date (year dt) (month dt) (day dt) = true.
Proof.
  unfold strptime. destruct (pattern InText fmt); [|discriminate].
  destruct (re_match _ _) as [[fin found]|]; [|discriminate].
  destruct (negb _); [discriminate|]. unfold date_of_groups.
  intros (y & _ & (m & _ & (d & _ & E)%bind_Ok)%bind_Ok)%bind_Ok.
  unfold mk_datetime in E. destruct (valid_date y m d) eqn:V; [|discriminate].
  by injection E as <-.
Qed.

Lemma try_formats_cases (s : str) (fmts : list str) :
  try_formats s fmts = Ok []
  ∨ ∃ fmt dt, fmt ∈ fmts ∧ strptime s fmt = Ok dt
              ∧ try_formats s fmts = Ok (strftime dt (u "%Y-%m-%d")).
Proof.
  induction fmts as [|fmt rest IH]; [by left|].
  cbn [try_formats]. destruct (strptime s fmt) as [dt|e] eqn:E; cbn.
  - right. exists fmt, dt. split; [left|done].
  - destruct IH as [IH | (f & dt & Hin & Hp & Hr)]; [by left|].
    right. exists f, dt. split; [by right | done].
Qed.

Lemma strftime_iso (y m d : N) :
  strftime (Datetime y m d) (u "%Y-%m-%d") = iso_date y m d.
Proof. reflexivity. Qed.

Lemma digit_char (n : N) : is_ascii_digit (ch "0" + n mod 10)%N = true.
Proof.
  unfold is_ascii_digit, in_range. change (ch "0") with 48%N.
  change (ch "9") with 57%N.
  assert (n mod 10 < 10)%N as Hlt by (apply N.mod_upper_bound; lia).
  revert Hlt. generalize (n mod 10)%N. intros k Hlt.
  apply andb_true_intro. split.
  - apply N.leb_le. lia.
  - apply N.leb_le. lia.
Qed.

Lemma iso_date_shape (y m d : N) : iso_shape (iso_date y m d) = true.
Proof.
  unfold iso_date. cbn [zero_pad app iso_shape forallb].
  rewrite !digit_char. reflexivity.
Qed.

(** ** Canonical dates are fixed points *)

Lemma ascii_digit_cases (c : N) :
  is_ascii_digit c = true →
  (c = 48 ∨ c = 49 ∨ c = 50 ∨ c = 51 ∨ c = 52 ∨ c = 53 ∨ c = 54 ∨ c = 55
   ∨ c = 56 ∨ c = 57)%N.
Proof.
  unfold is_ascii_digit, in_range. change (ch "0") with 48%N.
  change (ch "9") with 57%N.
  intros [H1%N.leb_le H2%N.leb_le]%andb_true_iff. lia.
Qed.

Ltac digit_cases H :=
  apply ascii_digit_cases in H;
  destruct H as [->|[->|[->|[->|[->|[->|[->|[->|[->| ->]]]]]]]]].

Lemma digit_is_decimal (c : N) : is_ascii_digit c = true → is_decimal c = true.
Proof. intros H. digit_cases H; reflexivity. Qed.

Lemma digit_decimal_value (c : N) :
  is_ascii_digit c = true → decimal_value c = (c - 48)%N.
Proof. intros H. digit_cases H; reflexivity. Qed.

Lemma digit_not_space (c : N) : is_ascii_digit c = true → is_space c = false.
Proof. intros H. digit_cases H; reflexivity. Qed.

Lemma iso_char_cases (c : N) :
  iso_char c = true → is_ascii_digit c = true ∨ c = 45%N.
Proof.
  unfold iso_char. intros [H | H%N.eqb_eq]%orb_true_iff; [by left | by right].
Qed.

Lemma iso_char_lower (c : N) : iso_char c = true → lower_cp c = [c].
Proof. intros [H | ->]%iso_char_cases; [digit_cases H|]; reflexivity. Qed.

Lemma iso_char_kept (c : N) :
  iso_char c = true →
  ((c =? 0x433) || (c =? 0x433) || (c =? ch "."))%N = false
  ∧ dob_allowed c = true ∧ (c <? 128)%N = true.
Proof. intros [H | ->]%iso_char_cases; [digit_cases H|]; done. Qed.

Lemma filter_all {A} (f : A → bool) (l : list A) :
  Forall (fun x => f x = true) l → List.filter f l = l.
Proof.
  induction 1 as [|x l Hx _ IH]; [reflexivity|].
  cbn [List.filter]. by rewrite Hx, IH.
Qed.

Lemma py_lower_iso (s : str) :
  Forall (fun c => iso_char c = true) s → py_lower s = s.
Proof.
  unfold py_lower. induction 1 as [|c s Hc _ IH]; [reflexivity|].
  cbn [flat_map]. by rewrite (iso_char_lower c Hc), IH.
Qed.

(** A word that starts outside Basic Latin does not occur in a Basic Latin
    text. *)
Lemma py_in_high (h : N) (w s : str) :
  (h <? 128)%N = false → Forall (fun c => (c <? 128)%N = true) s →
  py_in (h :: w) s = false.
Proof.
  intros Hh. induction 1 as [|c s Hc _ IH]; [reflexivity|].
  cbn [py_in startswith]. rewrite IH.
  destruct (h =? c)%N eqn:E; [|reflexivity].
  apply N.eqb_eq in E as ->. congruence.
Qed.

Lemma sub_months_latin (s : str) :
  Forall (fun c => (c <? 128)%N = true) s → sub_months s = s.
Proof.
  intros Hs. unfold sub_months.
  assert (Forall (fun wn : str * str =>
            ∃ h w, wn.1 = h :: w ∧ (h <? 128)%N = false) month_map) as Hm.
  { repeat constructor; by eexists _, _. }
  induction Hm as [|[w n] l (h & w' & Hw & Hh) _ IH]; [reflexivity|].
  cbn [fold_left fst snd] in *. subst w. by rewrite (py_in_high h w' s Hh Hs).
Qed.

Lemma dob_clean_iso (s : str) :
  Forall (fun c => iso_char c = true) s → dob_clean (PyStr s) = s.
Proof.
  intros Hs. unfold dob_clean, re_year_marks, re_not_allowed. cbn [py_str].
  rewrite py_lower_iso by done. rewrite !re_sub_class_delete.
  rewrite (filter_all _ s).
  2:{ eapply Forall_impl; [exact Hs|]. intros c Hc. cbv beta.
      by destruct (iso_char_kept c Hc) as (-> & _ & _). }
  rewrite (filter_all _ s).
  2:{ eapply Forall_impl; [exact Hs|]. intros c Hc. cbv beta.
      by destruct (iso_char_kept c Hc) as (_ & -> & _). }
  apply sub_months_latin. eapply Forall_impl; [exact Hs|].
  intros c Hc. by destruct (iso_char_kept c Hc) as (_ & _ & ->).
Qed.

Lemma zero_pad_digits (w : nat) (n : N) :
  Forall (fun c => is_ascii_digit c = true) (zero_pad w n).
Proof.
  revert n. induction w as [|w IH]; intros n; cbn [zero_pad]; [constructor|].
  apply Forall_app. split; [apply IH|]. repeat constructor. apply digit_char.
Qed.

Lemma zero_pad_length (w : nat) (n : N) : length (zero_pad w n) = w.
Proof.
  revert n. induction w as [|w IH]; intros n; cbn [zero_pad]; [reflexivity|].
  rewrite length_app, IH. cbn. lia.
Qed.

Lemma iso_date_chars (y m d : N) :
  Forall (fun c => iso_char c = true) (iso_date y m d).
Proof.
  assert (∀ w n, Forall (fun c => iso_char c = true) (zero_pad w n)) as Hz.
  { intros w n. eapply Forall_impl; [apply zero_pad_digits|].
    intros c Hc. unfold iso_char. by rewrite Hc. }
  unfold iso_date.
  apply Forall_app; split; [apply Hz|]. apply Forall_cons; split; [reflexivity|].
  apply Forall_app; split; [apply Hz|]. apply Forall_cons; split; [reflexivity|].
  apply Hz.
Qed.

(** The patterns of the five formats. *)

Lemma pattern_dmy_dot :
  pattern InText (u "%d.%m.%Y") =
  Some (Cat (Group (ch "d") re_day) (Cat (Lit (ch "."))
       (Cat (Group (ch "m") re_month) (Cat (Lit (ch "."))
       (Cat (Group (ch "Y") re_year4) Eps))))).
Proof. reflexivity. Qed.

Lemma pattern_dmy_slash :
  pattern InText (u "%d/%m/%Y") =
  Some (Cat (Group (ch "d") re_day) (Cat (Lit (ch "/"))
       (Cat (Group (ch "m") re_month) (Cat (Lit (ch "/"))
       (Cat (Group (ch "Y") re_year4) Eps))))).
Proof. reflexivity. Qed.

Lemma pattern_ymd :
  pattern InText (u "%Y-%m-%d") =
  Some (Cat (Group (ch "Y") re_year4) (Cat (Lit (ch "-"))
       (Cat (Group (ch "m") re_month) (Cat (Lit (ch "-"))
       (Cat (Group (ch "d") re_day) Eps))))).
Proof. reflexivity. Qed.

Lemma pattern_dmy_space :
  pattern InText (u "%d %m %Y") =
  Some (Cat (Group (ch "d") re_day) (Cat re_spaces
       (Cat (Group (ch "m") re_month) (Cat re_spaces
       (Cat (Group (ch "Y") re_year4) Eps))))).
Proof. reflexivity. Qed.

Lemma pattern_dmy_short :
  pattern InText (u "%d.%m'%y") =
  Some (Cat (Group (ch "d") re_day) (Cat (Lit (ch "."))
       (Cat (Group (ch "m") re_month) (Cat (Lit (ch "'"))
       (Cat (Group (ch "y") re_year2) Eps))))).
Proof. reflexivity. Qed.

(** The day pattern reads one or two characters: if what follows fails
    after either, the whole fails. *)
Lemma rmatch_day_fails {A} (a b : N) (t : str) (pos : nat) (gs : groups)
    (k : str → nat → groups → option A) :
  (∀ p g, k (b :: t) p g = None) → (∀ p g, k t p g = None) →
  rmatch re_day (a :: b :: t) pos gs k = None.
Proof.
  intros H1 H2. unfold re_day. cbn [rmatch]. rewrite !H1, !H2.
  repeat match goal with |- context [if ?c then _ else _] => destruct c end;
    reflexivity.
Qed.

Lemma rmatch_year4_digits {A} (a b c e : N) (t : str) (pos : nat)
    (gs : groups) (k : str → nat → groups → option A) :
  is_decimal a = true → is_decimal b = true → is_decimal c = true →
  is_decimal e = true →
  rmatch re_year4 (a :: b :: c :: e :: t) pos gs k
  = k t (S (S (S (S pos)))) gs.
Proof.
  intros Ha Hb Hc He. unfold re_year4. cbn [rmatch].
  by rewrite Ha, Hb, Hc, He.
Qed.

Lemma rmatch_month_pad {A} (m : N) (t : str) (pos : nat) (gs : groups)
    (k : str → nat → groups → option A) (r : A) :
  (1 <= m <= 12)%N → k t (S (S pos)) gs = Some r →
  rmatch re_month (zero_pad 2 m ++ t) pos gs k = Some r.
Proof.
  intros Hm Hk.
  assert (m = 1 ∨ m = 2 ∨ m = 3 ∨ m = 4 ∨ m = 5 ∨ m = 6 ∨ m = 7 ∨ m = 8
          ∨ m = 9 ∨ m = 10 ∨ m = 11 ∨ m = 12)%N as Hc by lia.
  destruct Hc as [->|[->|[->|[->|[->|[->|[->|[->|[->|[->|[->| ->]]]]]]]]]]];
    cbn; by rewrite Hk.
Qed.

Lemma rmatch_day_pad {A} (d : N) (t : str) (pos : nat) (gs : groups)
    (k : str → nat → groups → option A) (r : A) :
  (1 <= d <= 31)%N → k t (S (S pos)) gs = Some r →
  rmatch re_day (zero_pad 2 d ++ t) pos gs k = Some r.
Proof.
  intros Hd Hk.
  assert (d = 1 ∨ d = 2 ∨ d = 3 ∨ d = 4 ∨ d = 5 ∨ d = 6 ∨ d = 7 ∨ d = 8
          ∨ d = 9 ∨ d = 10 ∨ d = 11 ∨ d = 12 ∨ d = 13 ∨ d = 14 ∨ d = 15
          ∨ d = 16 ∨ d = 17 ∨ d = 18 ∨ d = 19 ∨ d = 20 ∨ d = 21 ∨ d = 22
          ∨ d = 23 ∨ d = 24 ∨ d = 25 ∨ d = 26 ∨ d = 27 ∨ d = 28 ∨ d = 29
          ∨ d = 30 ∨ d = 31)%N as Hc by lia.
  repeat (destruct Hc as [-> | Hc]); [.. | subst d]; cbn; by rewrite Hk.
Qed.

Lemma lstrip_digits (s : str) :
  Forall (fun c => is_ascii_digit c = true) s → lstrip s = s.
Proof.
  destruct 1 as [|c s Hc _]; [reflexivity|].
  cbn [lstrip]. by rewrite (digit_not_space c Hc).
Qed.

Lemma py_strip_digits (s : str) :
  Forall (fun c => is_ascii_digit c = true) s → py_strip s = s.
Proof.
  intros Hs. unfold py_strip. rewrite (lstrip_digits s Hs).
  rewrite lstrip_digits by (by apply Forall_rev). apply rev_involutive.
Qed.

(** The number that a text of ASCII digits denotes. *)
Lemma fold_digits_zero_pad (w : nat) (n : N) :
  (n < 10 ^ N.of_nat w)%N →
  fold_left (fun acc c => (acc * 10 + decimal_value c)%N) (zero_pad w n) 0%N
  = n.
Proof.
  revert n. induction w as [|w IH]; intros n Hn.
  - cbn in *. lia.
  - cbn [zero_pad]. rewrite fold_left_app. cbn [fold_left].
    rewrite IH.
    + rewrite (digit_decimal_value _ (digit_char n)).
      change (ch "0") with 48%N.
      assert (n = 10 * (n / 10) + n mod 10)%N as E
        by (apply N.div_mod; lia).
      revert E. generalize (n / 10)%N (n mod 10)%N. intros q r E. lia.
    + rewrite Nat2N.inj_succ, N.pow_succ_r' in Hn.
      apply N.Div0.div_lt_upper_bound. lia.
Qed.

Lemma py_int_zero_pad (w : nat) (n : N) :
  w ≠ 0 → (n < 10 ^ N.of_nat w)%N → py_int (zero_pad w n) = Ok n.
Proof.
  intros Hw Hn. unfold py_int.
  rewrite (py_strip_digits _ (zero_pad_digits w n)).
  rewrite zero_pad_length.
  assert (forallb is_decimal (zero_pad w n) = true) as ->.
  { induction (zero_pad_digits w n) as [|c l Hc _ IH]; [reflexivity|].
    cbn [forallb]. by rewrite (digit_is_decimal c Hc), IH. }
  destruct w; [done|]. cbn [Nat.eqb negb andb].
  by rewrite fold_digits_zero_pad.
Qed.

Lemma digit_not_sep (c : N) :
  is_ascii_digit c = true →
  (c =? ch ".")%N = false ∧ (c =? ch "/")%N = false.
Proof. intros H. digit_cases H; done. Qed.

Lemma zero_pad_4 (n : N) :
  zero_pad 4 n =
  [ (ch "0" + n / 10 / 10 / 10 mod 10)%N; (ch "0" + n / 10 / 10 mod 10)%N;
    (ch "0" + n / 10 mod 10)%N; (ch "0" + n mod 10)%N ].
Proof. reflexivity. Qed.

Lemma take_zero_pad (w : nat) (n : N) (t : str) :
  take w (zero_pad w n ++ t) = zero_pad w n.
Proof.
  rewrite take_app_length'; [reflexivity | by rewrite zero_pad_length].
Qed.

Lemma valid_date_bounds (y m d : N) :
  valid_date y m d = true →
  (y < 10 ^ N.of_nat 4 ∧ 1 <= m <= 12 ∧ 1 <= d <= 31)%N.
Proof.
  unfold valid_date. rewrite !andb_true_iff, !N.leb_le.
  intros (((((Hy1 & Hy2) & Hm1) & Hm2) & Hd1) & Hd2).
  assert (days_in_month y m <= 31)%N.
  { unfold days_in_month. repeat case_match; lia. }
  change (10 ^ N.of_nat 4)%N with 10000%N. lia.
Qed.

Lemma strptime_iso_date (y m d : N) :
  valid_date y m d = true →
  strptime (iso_date y m d) (u "%Y-%m-%d") = Ok (Datetime y m d).
Proof.
  intros V. destruct (valid_date_bounds y m d V) as (Hy & Hm & Hd).
  unfold strptime. rewrite pattern_ymd. unfold re_match. cbn [rmatch].
  unfold iso_date. rewrite zero_pad_4. cbn [app].
  rewrite rmatch_year4_digits by apply digit_is_decimal, digit_char.
  rewrite N.eqb_refl.
  erewrite rmatch_month_pad; [|exact Hm|].
  2:{ rewrite N.eqb_refl. apply rmatch_day_pad; [exact Hd | reflexivity]. }
  cbn [length]. rewrite length_app, zero_pad_length.
  cbn [length Nat.add Nat.eqb negb]. rewrite zero_pad_length.
  cbn [Nat.eqb negb Nat.sub take]. rewrite !take_zero_pad.
  rewrite <- zero_pad_4.
  change (date_of_groups _) with
    (y' ← py_int (zero_pad 4 y); m' ← py_int (zero_pad 2 m);
     d' ← py_int (zero_pad 2 d); mk_datetime y' m' d').
  rewrite !py_int_zero_pad by (done || change (10 ^ N.of_nat 2)%N with 100%N; lia).
  cbn [mbind res_bind]. unfold mk_datetime. by rewrite V.
Qed.

Lemma strptime_iso_not_dmy (y m d : N) :
  strptime (iso_date y m d) (u "%d.%m.%Y") = Raise ValueError
  ∧ strptime (iso_date y m d) (u "%d/%m/%Y") = Raise ValueError.
Proof.
  unfold strptime. rewrite pattern_dmy_dot, pattern_dmy_slash.
  unfold re_match. cbn [rmatch]. unfold iso_date. rewrite zero_pad_4.
  cbn [app].
  split; rewrite rmatch_day_fails; try reflexivity; intros p g;
    match goal with |- context [(?c =? _)%N] =>
      destruct (digit_not_sep c (digit_char _)) as [E1 E2] end;
    by rewrite ?E1, ?E2.
Qed.

(** A canonical date is a fixed point of the normaliser. *)
Lemma normalize_dob_iso_date (y m d : N) :
  valid_date y m d = true →
  normalize_dob (PyStr (iso_date y m d)) = Ok (iso_date y m d).
Proof.
  intros V. unfold normalize_dob.
  replace (pd_isna _ || is_empty_str _) with false by reflexivity.
  rewrite (dob_clean_iso _ (iso_date_chars y m d)).
  unfold formats, try_formats.
  destruct (strptime_iso_not_dmy y m d) as [-> ->]. cbn [mbind res_bind].
  rewrite (strptime_iso_date y m d V). cbn [mbind res_bind mret res_ret].
  by rewrite strftime_iso.
Qed.

(** The two outcomes of the normaliser. *)
Lemma normalize_dob_cases (v : pyval) :
  normalize_dob v = Ok []
  ∨ ∃ fmt y m d,
      fmt ∈ formats
      ∧ strptime (dob_clean v) fmt = Ok (Datetime y m d)
      ∧ valid_date y m d = true
      ∧ normalize_dob v = Ok (iso_date y m d).
Proof.
  unfold normalize_dob. destruct (_ || _); [by left|].
  destruct (try_formats_cases (dob_clean v) formats)
    as [E | (fmt & [y m d] & Hin & Hp & E)]; [by left|].
  right. exists fmt, y, m, d.
  pose proof (strptime_valid _ _ _ Hp) as V. cbn [year month day] in V.
  by rewrite strftime_iso in E.
Qed.




(** What does parse: the year first with hyphens, the day first with
    slashes or with spaces (an abbreviated month included, when no "г."
    follows). *)
Example normalize_dob_parsed :
  normalize_dob (PyStr (u "1990-01-01")) = Ok (u "1990-01-01")
  ∧ normalize_dob (PyStr (u "31/12/1990")) = Ok (u "1990-12-31")
  ∧ normalize_dob (PyStr (u "1 янв 1990")) = Ok (u "1990-01-01")
  ∧ normalize_dob (PyStr (u "29/2/1990")) = Ok []
  ∧ normalize_dob (PyStr (u "29/2/2000")) = Ok (u "2000-02-29").
Proof. repeat split; vm_compute; reflexivity. Qed.

(** ** The dotted formats never parse *)

(** A match hands to its continuation a suffix of the text. *)
Lemma star_suffix {A} (p : N → bool) (s : str) (pos : nat)
    (k : str → nat → option A) (a : A) :
  star p s pos k = Some a →
  ∃ s' pos', s' `suffix_of` s ∧ k s' pos' = Some a.
Proof.
  revert pos. induction s as [|c t IH]; intros pos; cbn [star].
  - intros E. by exists [], pos.
  - destruct (p c); [|intros E; by exists (c :: t), pos].
    destruct (star p t (S pos) k) as [a'|] eqn:E'.
    + intros [= ->]. destruct (IH _ E') as (s' & pos' & Hs & Hk).
      exists s', pos'. split; [by apply suffix_cons_r | done].
    + intros E. by exists (c :: t), pos.
Qed.

Lemma rmatch_suffix {A} (r : regex) (s : str) (pos : nat) (gs : groups)
    (k : str → nat → groups → option A) (a : A) :
  rmatch r s pos gs k = Some a →
  ∃ s' pos' gs', s' `suffix_of` s ∧ k s' pos' gs' = Some a.
Proof.
  revert s pos gs k.
  induction r as [|c|p|r1 IH1 r2 IH2|r1 IH1 r2 IH2|p|name r1 IH1];
    intros s pos gs k; cbn [rmatch].
  - intros E. by exists s, pos, gs.
  - destruct s as [|x t]; [discriminate|]. destruct (x =? c)%N; [|discriminate].
    intros E. exists t, (S pos), gs. split; [by apply suffix_cons_r | done].
  - destruct s as [|x t]; [discriminate|]. destruct (p x); [|discriminate].
    intros E. exists t, (S pos), gs. split; [by apply suffix_cons_r | done].
  - intros (s1 & pos1 & gs1 & Hs1 & E1)%IH1.
    apply IH2 in E1 as (s2 & pos2 & gs2 & Hs2 & E2).
    exists s2, pos2, gs2. split; [by etrans | done].
  - destruct (rmatch r1 s pos gs k) as [a'|] eqn:E1.
    + intros [= ->]. by apply IH1 in E1.
    + apply IH2.
  - destruct s as [|x t]; [discriminate|]. destruct (p x); [|discriminate].
    intros (s' & pos' & Hs & E)%star_suffix.
    exists s', pos', gs. split; [by apply suffix_cons_r | done].
  - intros (s' & pos' & gs' & Hs & E)%IH1. by eexists s', pos', _.
Qed.

(** A pattern with a literal after its first part matches only a text
    that contains the literal. *)
Lemma re_match_literal (r1 r2 : regex) (c : N) (s : str) :
  is_Some (re_match (Cat r1 (Cat (Lit c) r2)) s) → c ∈ s.
Proof.
  intros [a E]. unfold re_match in E. cbn [rmatch] in E.
  apply rmatch_suffix in E as (s' & pos' & gs' & [pre ->] & E).
  destruct s' as [|x t]; [discriminate|].
  destruct (x =? c)%N eqn:Ex; [|discriminate].
  apply N.eqb_eq in Ex as ->. apply elem_of_app. right. left.
Qed.

Lemma re_sub_from_elem (r : regex) (repl : str) (skip : nat) (s : str)
    (c : N) :
  c ∈ re_sub_from r repl skip s → c ∈ s ∨ c ∈ repl.
Proof.
  revert skip. induction s as [|x t IH]; intros skip; cbn [re_sub_from].
  - intros H. by apply elem_of_nil in H.
  - destruct skip as [|n].
    + destruct (re_match r (x :: t)) as [[[|n] gs]|].
      * intros [->|H]%elem_of_cons; [left; left|].
        destruct (IH _ H); [left; by right | by right].
      * intros [H|H]%elem_of_app; [by right|].
        destruct (IH _ H); [left; by right | by right].
      * intros [->|H]%elem_of_cons; [left; left|].
        destruct (IH _ H); [left; by right | by right].
    + intros H. destruct (IH _ H); [left; by right | by right].
Qed.

Lemma filter_elem (f : N → bool) (s : str) (c : N) :
  c ∈ List.filter f s → c ∈ s ∧ f c = true.
Proof.
  rewrite !list_elem_of_In. apply filter_In.
Qed.

(** The text handed to [strptime] never contains a full stop. *)
Lemma dob_clean_no_dot (v : pyval) : ch "." ∉ dob_clean v.
Proof.
  unfold dob_clean, re_year_marks, re_not_allowed.
  rewrite !re_sub_class_delete.
  set (s0 := List.filter _ (List.filter _ _)).
  assert (ch "." ∉ s0) as H0.
  { intros [[_ H]%filter_elem _]%filter_elem. discriminate. }
  clearbody s0. unfold sub_months.
  assert (Forall (fun wn : str * str => ch "." ∉ wn.2) month_map) as Hm.
  { repeat constructor; rewrite list_elem_of_In; vm_compute;
      intuition discriminate. }
  revert s0 H0. induction Hm as [|[w n] l Hn _ IH]; intros s0 H0; [done|].
  cbn [fold_left fst snd] in *. apply IH.
  destruct (py_in w s0); [|done].
  intros [H|H]%re_sub_from_elem; done.
Qed.

(** So the two formats with a full stop are dead: no input at all reaches
    [strptime] in a form that they parse. *)
Lemma dotted_formats_never_parse (v : pyval) :
  strptime (dob_clean v) (u "%d.%m.%Y") = Raise ValueError
  ∧ strptime (dob_clean v) (u "%d.%m'%y") = Raise ValueError.
Proof.
  unfold strptime. rewrite pattern_dmy_dot, pattern_dmy_short.
  split.
  - destruct (re_match _ _) as [[fin found]|] eqn:E; [|reflexivity].
    destruct (dob_clean_no_dot v). eapply re_match_literal. by rewrite E.
  - destruct (re_match _ _) as [[fin found]|] eqn:E; [|reflexivity].
    destruct (dob_clean_no_dot v). eapply re_match_literal. by rewrite E.
Qed.

(* ===================================================================== *)
(** * Records with every column *)
(* ===================================================================== *)

Lemma lookup_text_Ok (row : gmap string pyval) (k : string)
    (f : pyval → res str) :
  is_Some (row !! k) → (∀ v, ∃ s, f v = Ok s) →
  ∃ s, getitem row k ≫= f = Ok s.
Proof.
  intros [v Hv] Hf. unfold getitem. rewrite Hv. cbn. apply Hf.
Qed.

Lemma lookup_str_Ok (row : gmap string pyval) (k : string) :
  is_Some (row !! k) → ∃ s, py_str <$> getitem row k = Ok s.
Proof. intros [v Hv]. unfold getitem. rewrite Hv. by eexists. Qed.

Lemma normalize_snils_total (v : pyval) : ∃ s, normalize_snils v = Ok s.
Proof. rewrite normalize_snils_Ok. by eexists. Qed.

Ltac text_column :=
  match goal with
  | H : ∀ k, k ∈ text_columns → _ |- is_Some _ =>
    apply H; rewrite list_elem_of_In; cbn; tauto
  end.

(** The vector of two records that have the five text columns and integer
    quantities. *)
Lemma extract_features_present `{Fuzz} (row_a row_b : gmap string pyval)
    (qi_a qd_a qi_b qd_b : Z) :
  (∀ k, k ∈ text_columns → is_Some (row_a !! k)) →
  (∀ k, k ∈ text_columns → is_Some (row_b !! k)) →
  row_a !! K_QTY_ISSUED = Some (PyInt qi_a) →
  row_a !! K_QTY_DISP = Some (PyInt qd_a) →
  row_b !! K_QTY_ISSUED = Some (PyInt qi_b) →
  row_b !! K_QTY_DISP = Some (PyInt qd_b) →
  ∃ s1 s2 s3 s4 s5 f6 f7,
    extract_features row_a row_b =
    Ok [ percent s1; percent s2; percent s3; percent s4; percent s5;
         flag f6; flag f7;
         Fl (inject_Z (Z.abs (qi_a - qi_b)));
         Fl (inject_Z (Z.abs (qd_a - qd_b))) ].
Proof.
  intros Ha Hb Hia Hda Hib Hdb.
  destruct (lookup_text_Ok row_a K_MNN normalize_mnn) as [mnn_a E1];
    [text_column | apply normalize_mnn_Ok |].
  destruct (lookup_text_Ok row_b K_MNN normalize_mnn) as [mnn_b E2];
    [text_column | apply normalize_mnn_Ok |].
  destruct (lookup_str_Ok row_a K_ISSUED) as [issued_a E3]; [text_column|].
  destruct (lookup_str_Ok row_b K_ISSUED) as [issued_b E4]; [text_column|].
  destruct (lookup_str_Ok row_a K_DISP) as [disp_a E5]; [text_column|].
  destruct (lookup_str_Ok row_b K_DISP) as [disp_b E6]; [text_column|].
  destruct (lookup_text_Ok row_a K_SNILS normalize_snils) as [snils_a E7];
    [text_column | apply normalize_snils_total |].
  destruct (lookup_text_Ok row_b K_SNILS normalize_snils) as [snils_b E8];
    [text_column | apply normalize_snils_total |].
  destruct (lookup_text_Ok row_a K_DOB normalize_dob) as [dob_a E9];
    [text_column | apply normalize_dob_Ok |].
  destruct (lookup_text_Ok row_b K_DOB normalize_dob) as [dob_b E10];
    [text_column | apply normalize_dob_Ok |].
  do 7 eexists. apply extract_features_Ok.
  exists mnn_a, mnn_b, issued_a, issued_b, disp_a, disp_b, snils_a, snils_b,
    dob_a, dob_b, (PyInt qi_a), (PyInt qi_b), (PyInt (Z.abs (qi_a - qi_b))),
    (PyInt qd_a), (PyInt qd_b), (PyInt (Z.abs (qd_a - qd_b))).
  do 2 eexists.
  split; [exact E1|]. split; [exact E2|]. split; [exact E3|].
  split; [exact E4|]. split; [exact E5|]. split; [exact E6|].
  split; [exact E7|]. split; [exact E8|].
  split; [exact E9|]. split; [exact E10|].
  split; [by apply getitem_Ok|]. split; [by apply getitem_Ok|].
  split; [reflexivity|].
  split; [by apply getitem_Ok|]. split; [by apply getitem_Ok|].
  split; [reflexivity|]. split; [reflexivity|]. split; reflexivity.
Qed.



(* ===================================================================== *)
(** * The handler of the check button *)
(* ===================================================================== *)

Lemma lstrip_nil (s : str) : lstrip s = [] ↔ forallb is_space s = true.
Proof.
  induction s as [|c t IH]; [done|]. cbn [lstrip forallb].
  destruct (is_space c); [exact IH | done].
Qed.

Lemma py_strip_nil (s : str) : py_strip s = [] ↔ forallb is_space s = true.
Proof.
  unfold py_strip. rewrite <- lstrip_nil. split.
  - intros E. apply (f_equal (@rev N)) in E. rewrite rev_involutive in E.
    cbn in E. destruct (lstrip s) as [|c t] eqn:El; [done|].
    exfalso. revert E. rewrite lstrip_nil.
    assert (is_space c = false) as Hc.
    { clear -El. induction s as [|x s IH]; [done|]. cbn in El.
      destruct (is_space x) eqn:Ex; [auto | congruence]. }
    rewrite forallb_forall. intros Hall.
    rewrite (Hall c) in Hc; [done|]. apply in_rev. rewrite rev_involutive.
    by left.
  - by intros ->.
Qed.

Lemma py_not_strip (s : str) :
  py_not (py_strip s) = forallb is_space s.
Proof.
  unfold py_not. apply eq_true_iff_eq. rewrite <- py_strip_nil.
  rewrite Nat.eqb_eq. by destruct (py_strip s).
Qed.

Lemma missing_blank (f : form) :
  missing f =
  map fst (List.filter (fun nv => forallb is_space nv.2) (text_inputs f)).
Proof.
  unfold missing, required_fields.
  induction (text_inputs f) as [|[n v] l IH]; [reflexivity|].
  cbn [map List.filter fst snd]. rewrite py_not_strip.
  destruct (forallb is_space v); cbn [map fst]; by rewrite IH.
Qed.

(** X2.  The required-field check.  The handler shows the warning
    exactly when one of the ten text inputs is empty or holds white space
    only; the warning names the labels of exactly these inputs, in the
    order of the form, and nothing is scored.  *)
Theorem on_check_warning `{Fuzz} (score : list pyfloat → res pyfloat)
    (f : form) :
  missing f =
    map fst (List.filter (fun nv => forallb is_space nv.2) (text_inputs f))
  ∧ ((∃ names, on_check score f = Ok (Warning names)) ↔
     ∃ nv, nv ∈ text_inputs f ∧ forallb is_space nv.2 = true)
  ∧ ∀ names, on_check score f = Ok (Warning names) → names = missing f.
Proof.
  split; [apply missing_blank|]. split.
  - unfold on_check. rewrite missing_blank. split.
    + intros [names E].
      destruct (List.filter _ _) as [|nv l] eqn:Ef.
      * cbn in E. destruct (verdict_block _ _ _); discriminate.
      * exists nv.
        assert (In nv (List.filter (fun nv => forallb is_space nv.2)
                         (text_inputs f))) as Hin by (rewrite Ef; by left).
        apply filter_In in Hin as [Hin Hsp].
        split; [by apply list_elem_of_In | done].
    + intros (nv & Hin & Hsp).
      destruct (List.filter _ _) as [|nv' l] eqn:Ef.
      * exfalso.
        assert (In nv (List.filter (fun nv => forallb is_space nv.2)
                         (text_inputs f))) as Hf.
        { apply filter_In. split; [by apply list_elem_of_In | done]. }
        by rewrite Ef in Hf.
      * cbn [map]. by eexists.
  - intros names. unfold on_check.
    destruct (missing f) as [|n l]; cbn.
    + destruct (verdict_block _ _ _); discriminate.
    + by intros [= <-].
Qed.

Lemma form_rows_extract `{Fuzz} (f : form) :
  ∃ features, extract_features (row1 f) (row2 f) = Ok features
              ∧ length features = 9.
Proof.
  destruct (extract_features_present (row1 f) (row2 f)
              (qty_issued1 f) (qty_disp1 f) (qty_issued2 f) (qty_disp2 f))
    as (s1 & s2 & s3 & s4 & s5 & f6 & f7 & E); try reflexivity.
  - intros k Hk. apply list_elem_of_In in Hk. cbn in Hk.
    destruct Hk as [<-|[<-|[<-|[<-|[<-|[]]]]]]; by eexists.
  - intros k Hk. apply list_elem_of_In in Hk. cbn in Hk.
    destruct Hk as [<-|[<-|[<-|[<-|[<-|[]]]]]]; by eexists.
  - eexists. split; [exact E | reflexivity].
Qed.

(** X3.  When every text input holds a character that is not white
    space, the handler cannot fail before the model is called: the
    extractor returns a vector of nine floats for the two dictionaries of
    the form, whatever was typed, and what is shown is the verdict on the
    probability that the model gives for that vector (an exception of the
    model is the only one that can leave the handler). *)
Theorem on_check_verdict `{Fuzz} (score : list pyfloat → res pyfloat)
    (f : form) :
  (∀ nv, nv ∈ text_inputs f → forallb is_space nv.2 = false) →
  ∃ features,
    extract_features (row1 f) (row2 f) = Ok features
    ∧ length features = 9
    ∧ on_check score f =
      match score features with
      | Ok prob => Ok (Verdict (decide_verdict prob).1 (decide_verdict prob).2)
      | Raise e => Raise e
      end.
Proof.
  intros Hfull. destruct (form_rows_extract f) as (features & E & Hlen).
  exists features. split; [exact E|]. split; [exact Hlen|].
  unfold on_check. rewrite missing_blank.
  destruct (List.filter _ _) as [|nv l] eqn:Ef.
  - cbn [map]. unfold verdict_block. rewrite E. cbn.
    destruct (score features); reflexivity.
  - exfalso.
    assert (In nv (List.filter (fun nv => forallb is_space nv.2)
                     (text_inputs f))) as Hin by (rewrite Ef; by left).
    apply filter_In in Hin as [Hin Hsp].
    rewrite (Hfull nv) in Hsp; [done | by apply list_elem_of_In].
Qed.

Lemma on_check_verdict_witness :
  ∃ features,
    extract_features
      (row1 (Form (u "12345678900") (u "1990-01-01") (u "Ибупрофен")
               (u "Ибупрофен 200мг") (u "Ибупрофен таб.") 2 2
               (u "123-456-789 00") (u "01/01/1990") (u "ибупрафен")
               (u "ибупрофен 200 мг") (u "ибупрофен таб") 3 2))
      (row2 (Form (u "12345678900") (u "1990-01-01") (u "Ибупрофен")
               (u "Ибупрофен 200мг") (u "Ибупрофен таб.") 2 2
               (u "123-456-789 00") (u "01/01/1990") (u "ибупрафен")
               (u "ибупрофен 200 мг") (u "ибупрофен таб") 3 2))
    = Ok features
    ∧ length features = 9
    ∧ on_check (fun _ => Ok (Fl (9 # 10)))
        (Form (u "12345678900") (u "1990-01-01") (u "Ибупрофен")
           (u "Ибупрофен 200мг") (u "Ибупрофен таб.") 2 2
           (u "123-456-789 00") (u "01/01/1990") (u "ибупрафен")
           (u "ибупрофен 200 мг") (u "ибупрофен таб") 3 2)
      = Ok (Verdict SAME (Fl (9 # 10))).
Proof.
  apply (on_check_verdict (fun _ => Ok (Fl (9 # 10)))).
  intros nv Hnv. apply list_elem_of_In in Hnv. cbn [text_inputs In] in Hnv.
  repeat (destruct Hnv as [<- | Hnv]; [reflexivity|]). destruct Hnv.
Defined.

(* ===================================================================== *)
(** * The confidence shown *)
(* ===================================================================== *)

(* ===================================================================== *)
(** * The identifier *)
(* ===================================================================== *)

Lemma filter_filter_same {A} (p : A → bool) (l : list A) :
  List.filter p (List.filter p l) = List.filter p l.
Proof.
  induction l as [|x l IH]; [reflexivity|]. cbn [List.filter].
  destruct (p x) eqn:E; [|exact IH]. cbn [List.filter]. by rewrite E, IH.
Qed.

(** X5.  [normalize_snils] is idempotent: what it returns, the empty
    sentinel or eleven digits, it returns again when given its own
    result. *)
Theorem normalize_snils_idempotent (v : pyval) (r : str) :
  normalize_snils v = Ok r → normalize_snils (PyStr r) = Ok r.
Proof.
  rewrite !normalize_snils_Ok. cbv zeta. cbn [py_str]. intros [= <-].
  destruct (length (List.filter is_decimal (py_str v)) =? 11) eqn:E.
  - by rewrite filter_filter_same, E.
  - reflexivity.
Qed.

Lemma normalize_snils_idempotent_witness :
  normalize_snils (PyStr (u "12345678900")) = Ok (u "12345678900").
Proof.
  apply (normalize_snils_idempotent (PyStr (u "123-456-789 00"))).
  reflexivity.
Defined.

(** X6.  Two identifiers given as text are flagged as the same in
    dimension 6 exactly when their decimal digits, read in order, are the
    same eleven digits: separators, letters and their positions play no
    part. *)
Theorem snils_flag_digits `{Fuzz} (row_a row_b : gmap string pyval)
    (sa sb : str) (features : list pyfloat) :
  row_a !! K_SNILS = Some (PyStr sa) →
  row_b !! K_SNILS = Some (PyStr sb) →
  extract_features row_a row_b = Ok features →
  dim 6 features =
  Some (if bool_decide (List.filter is_decimal sa = List.filter is_decimal sb
                        ∧ length (List.filter is_decimal sa) = 11)
        then Fl 1 else Fl 0).
Proof.
  intros Ha Hb
    (mnn_a & mnn_b & issued_a & issued_b & disp_a & disp_b & snils_a
     & snils_b & dob_a & dob_b & qi_a & qi_b & qi & qd_a & qd_b & qd
     & fi & fd & _ & _ & _ & _ & _ & _ & E7 & E8 & _ & _
     & _ & _ & _ & _ & _ & _ & _ & _ & ->)%extract_features_Ok.
  unfold getitem in E7, E8. rewrite Ha in E7. rewrite Hb in E8.
  cbn [mbind res_bind] in E7, E8.
  rewrite normalize_snils_Ok in E7, E8. cbv zeta in E7, E8.
  cbn [py_str] in E7, E8. injection E7 as <-. injection E8 as <-.
  cbn [dim Nat.sub lookup list_lookup]. f_equal. unfold str_eqb.
  set (da := List.filter is_decimal sa). set (db := List.filter is_decimal sb).
  destruct (length da =? 11) eqn:La.
  - apply Nat.eqb_eq in La. rewrite La. cbn [Nat.eqb]. rewrite andb_true_r.
    destruct (length db =? 11) eqn:Lb.
    + destruct (decide (da = db)) as [E|E].
      * rewrite !bool_decide_eq_true_2; done.
      * rewrite !bool_decide_eq_false_2; [done | by intros [? _] | done].
    + apply Nat.eqb_neq in Lb.
      rewrite !bool_decide_eq_false_2; [done | | ].
      * intros [E _]. by rewrite E in La.
      * intros E. by rewrite E in La.
  - apply Nat.eqb_neq in La. cbn [length Nat.eqb]. rewrite andb_false_r.
    rewrite bool_decide_eq_false_2; [done | by intros [_ ?]].
Qed.

Lemma snils_flag_digits_witness :
  ∃ features,
    extract_features (EXAMPLE_RECORDS !!! 1) (EXAMPLE_RECORDS !!! 2)
    = Ok features
    ∧ dim 6 features = Some (Fl 1).
Proof.
  destruct (extract_features (EXAMPLE_RECORDS !!! 1) (EXAMPLE_RECORDS !!! 2))
    as [features|e] eqn:E; [|vm_compute in E; discriminate].
  exists features. split; [reflexivity|].
  exact (snils_flag_digits (EXAMPLE_RECORDS !!! 1) (EXAMPLE_RECORDS !!! 2)
           (u "123-456-789 00") (u "123 456 789 00") features
           eq_refl eq_refl E).
Defined.

(* ===================================================================== *)
(** * A record against itself *)
(* ===================================================================== *)

Lemma fuzz_ratio_same (s : str) : fuzz.ratio s s = 100%Z.
Proof.
  unfold fuzz.ratio, fuzz.checked, str_eqb.
  by rewrite bool_decide_eq_true_2.
Qed.

Lemma fuzz_partial_ratio_same (s : str) : fuzz.partial_ratio s s = 100%Z.
Proof.
  unfold fuzz.partial_ratio, fuzz.checked, str_eqb.
  by rewrite bool_decide_eq_true_2.
Qed.

Lemma fuzz_token_sort_ratio_same (s : str) :
  fuzz.token_sort_ratio s s = 100%Z.
Proof. unfold fuzz.token_sort_ratio. apply fuzz_ratio_same. Qed.

(** X7.  A record compared with itself, with the scorers of fuzzywuzzy:
    the five similarities are 1.0; an integer quantity gives the
    difference 0; the two flags are 1.0 exactly when the identifier,
    respectively the birth date, normalises to something other than the
    empty sentinel, so that a record whose birth date is not understood
    does not even match itself in dimension 7. *)
Theorem extract_features_self (row : gmap string pyval)
    (features : list pyfloat) :
  extract_features row row = Ok features →
  ∃ snils dob f8 f9,
    getitem row K_SNILS ≫= normalize_snils = Ok snils
    ∧ getitem row K_DOB ≫= normalize_dob = Ok dob
    ∧ features =
      [ percent 100; percent 100; percent 100; percent 100; percent 100;
        flag (negb (str_eqb snils [])); flag (negb (str_eqb dob []));
        f8; f9 ]
    ∧ (∀ n, row !! K_QTY_ISSUED = Some (PyInt n) → f8 = Fl 0)
    ∧ (∀ n, row !! K_QTY_DISP = Some (PyInt n) → f9 = Fl 0).
Proof.
  intros
    (mnn_a & mnn_b & issued_a & issued_b & disp_a & disp_b & snils_a
     & snils_b & dob_a & dob_b & qi_a & qi_b & qi & qd_a & qd_b & qd
     & fi & fd & E1 & E2 & E3 & E4 & E5 & E6 & E7 & E8 & E9 & E10
     & E11 & E12 & E13 & E14 & E15 & E16 & E17 & E18 & ->)%extract_features_Ok.
  rewrite E1 in E2. injection E2 as <-.
  rewrite E3 in E4. injection E4 as <-.
  rewrite E5 in E6. injection E6 as <-.
  rewrite E7 in E8. injection E8 as <-.
  rewrite E9 in E10. injection E10 as <-.
  rewrite E11 in E12. injection E12 as <-.
  rewrite E14 in E15. injection E15 as <-.
  exists snils_a, dob_a, fi, fd.
  split; [exact E7|]. split; [exact E9|]. split.
  - cbn [fuzz_ratio fuzz_partial_ratio fuzz_token_sort_ratio fuzzywuzzy].
    rewrite !fuzz_ratio_same, !fuzz_partial_ratio_same,
      !fuzz_token_sort_ratio_same.
    assert (str_eqb snils_a snils_a = true) as ->
      by (unfold str_eqb; by rewrite bool_decide_eq_true_2).
    assert (str_eqb dob_a dob_a = true) as ->
      by (unfold str_eqb; by rewrite bool_decide_eq_true_2).
    cbn [andb]. do 5 f_equal. f_equal.
    apply bind_Ok in E7 as (v & _ & E7).
    apply normalize_snils_length in E7 as [-> | Hl]; [reflexivity|].
    rewrite Hl. destruct snils_a; [discriminate | reflexivity].
  - split.
    + intros n Hn. apply getitem_Ok in E11. rewrite Hn in E11.
      injection E11 as <-. cbn in E13. rewrite Z.sub_diag in E13.
      injection E13 as <-. cbn in E17. by injection E17 as <-.
    + intros n Hn. apply getitem_Ok in E14. rewrite Hn in E14.
      injection E14 as <-. cbn in E16. rewrite Z.sub_diag in E16.
      injection E16 as <-. cbn in E18. by injection E18 as <-.
Qed.

Lemma extract_features_self_witness :
  extract_features (EXAMPLE_RECORDS !!! 1) (EXAMPLE_RECORDS !!! 1)
  = Ok [ percent 100; percent 100; percent 100; percent 100; percent 100;
         Fl 1; Fl 0; Fl 0; Fl 0 ].
Proof.
  destruct (extract_features (EXAMPLE_RECORDS !!! 1) (EXAMPLE_RECORDS !!! 1))
    as [features|e] eqn:E; [|vm_compute in E; discriminate].
  destruct (extract_features_self (EXAMPLE_RECORDS !!! 1) features E)
    as (snils & dob & f8 & f9 & Es & Ed & -> & H8 & H9).
  vm_compute in Es. injection Es as <-.
  vm_compute in Ed. injection Ed as <-.
  rewrite (H8 3%Z eq_refl), (H9 2%Z eq_refl). reflexivity.
Defined.

(* ===================================================================== *)
(** * The formats that can parse *)
(* ===================================================================== *)

(** X8.  Two of the five formats are dead code: for every input, the
    loop over [formats] gives what it would give with the list
    ["%d/%m/%Y", "%Y-%m-%d", "%d %m %Y"] alone, because the text that
    reaches [strptime] never contains the full stop that "%d.%m.%Y" and
    "%d.%m'%y" require. *)
Theorem dotted_formats_dead (v : pyval) :
  normalize_dob v =
  if pd_isna v || is_empty_str v then Ok []
  else try_formats (dob_clean v)
         [ u "%d/%m/%Y"; u "%Y-%m-%d"; u "%d %m %Y" ].
Proof.
  unfold normalize_dob. destruct (_ || _); [reflexivity|].
  destruct (dotted_formats_never_parse v) as [E1 E2].
  unfold formats. cbn [try_formats]. rewrite E1, E2. cbn [mbind res_bind].
  destruct (strptime (dob_clean v) (u "%d/%m/%Y")); [reflexivity|].
  cbn [mbind res_bind].
  destruct (strptime (dob_clean v) (u "%Y-%m-%d")); [reflexivity|].
  cbn [mbind res_bind].
  destruct (strptime (dob_clean v) (u "%d %m %Y")); reflexivity.
Qed.
(* ===================================================================== *)
(** * What the patterns of the directives read *)
(* ===================================================================== *)

Ltac split_match H :=
  repeat match type of H with
  | context [if ?c then _ else _] => destruct c eqn:?
  | context [match ?x with Some _ => _ | None => _ end] =>
    destruct x eqn:?
  end.

Lemma rmatch_day_inv {A} (s : str) (pos : nat) (gs : groups)
    (k : str → nat → groups → option A) (r : A) :
  rmatch re_day s pos gs k = Some r →
  ∃ dt t, s = dt ++ t ∧ is_day_text dt = true
          ∧ k t (length dt + pos) gs = Some r.
Proof.
  unfold re_day. cbn [rmatch]. intros E.
  destruct s as [|a [|b t]]; [discriminate| |].
  - split_match E; try discriminate.
    all: exists [a], []; split; [reflexivity|]; split; [done | cbn; congruence].
  - split_match E; try discriminate;
      first [ exists [a; b], t; split; [reflexivity|]; split; [|cbn; congruence];
              cbn [is_day_text];
              repeat match goal with H : _ = true |- _ => rewrite H end;
              by rewrite ?orb_true_r
            | exists [a], (b :: t); split; [reflexivity|]; split; [|cbn; congruence];
              cbn [is_day_text]; done ].
Qed.

Lemma rmatch_month_inv {A} (s : str) (pos : nat) (gs : groups)
    (k : str → nat → groups → option A) (r : A) :
  rmatch re_month s pos gs k = Some r →
  ∃ mt t, s = mt ++ t ∧ is_month_text mt = true
          ∧ k t (length mt + pos) gs = Some r.
Proof.
  unfold re_month. cbn [rmatch]. intros E.
  destruct s as [|a [|b t]]; [discriminate| |].
  - split_match E; try discriminate.
    all: exists [a], []; split; [reflexivity|]; split; [done | cbn; congruence].
  - split_match E; try discriminate;
      first [ exists [a; b], t; split; [reflexivity|]; split; [|cbn; congruence];
              cbn [is_month_text];
              repeat match goal with H : _ = true |- _ => rewrite H end;
              by rewrite ?orb_true_r
            | exists [a], (b :: t); split; [reflexivity|]; split; [|cbn; congruence];
              cbn [is_month_text]; done ].
Qed.

Lemma rmatch_year4_inv {A} (s : str) (pos : nat) (gs : groups)
    (k : str → nat → groups → option A) (r : A) :
  rmatch re_year4 s pos gs k = Some r →
  ∃ yt t, s = yt ++ t ∧ is_year_text yt = true
          ∧ k t (length yt + pos) gs = Some r.
Proof.
  unfold re_year4.
  destruct s as [|a [|b [|c [|e t]]]]; cbn [rmatch];
    try (intros E; by repeat case_match).
  intros E. repeat case_match; try discriminate.
  exists [a; b; c; e], t. split; [reflexivity|]. split; [|exact E].
  unfold is_year_text. cbn [length Nat.eqb forallb andb].
  by repeat match goal with H : is_decimal _ = true |- _ => rewrite H end.
Qed.

Lemma star_inv {A} (p : N → bool) (s : str) (pos : nat)
    (k : str → nat → option A) (r : A) :
  star p s pos k = Some r →
  ∃ ws t, s = ws ++ t ∧ forallb p ws = true ∧ k t (length ws + pos) = Some r.
Proof.
  revert pos. induction s as [|c s IH]; intros pos; cbn [star].
  - intros E. by exists [], [].
  - destruct (p c) eqn:Hc; [|intros E; by exists [], (c :: s)].
    destruct (star p s (S pos) k) as [a|] eqn:Es.
    + intros [= ->]. apply IH in Es as (ws & t & -> & Hws & Hk).
      exists (c :: ws), t. split; [reflexivity|]. split.
      * cbn. by rewrite Hc.
      * cbn [length]. by rewrite Nat.add_succ_comm.
    + intros E. by exists [], (c :: s).
Qed.

Lemma rmatch_spaces_inv {A} (s : str) (pos : nat) (gs : groups)
    (k : str → nat → groups → option A) (r : A) :
  rmatch re_spaces s pos gs k = Some r →
  ∃ ws t, s = ws ++ t ∧ is_blank ws = true
          ∧ k t (length ws + pos) gs = Some r.
Proof.
  unfold re_spaces. cbn [rmatch]. destruct s as [|c s]; [discriminate|].
  destruct (is_space c) eqn:Hc; [|discriminate].
  intros (ws & t & -> & Hws & Hk)%star_inv.
  exists (c :: ws), t. split; [reflexivity|]. split.
  - unfold is_blank. cbn. by rewrite Hc.
  - cbn [length]. by rewrite Nat.add_succ_comm.
Qed.

(** The other direction: a text of the field, followed by something that
    is no digit, is read as a whole. *)
Lemma in_range_digit (lo hi c : N) :
  (ch "0" <= lo)%N → (hi <= ch "9")%N →
  in_range lo hi c = true → is_decimal c = true.
Proof.
  intros Hlo Hhi [H1%N.leb_le H2%N.leb_le]%andb_true_iff.
  apply digit_is_decimal. unfold is_ascii_digit, in_range.
  apply andb_true_intro. split; apply N.leb_le; lia.
Qed.

Lemma rmatch_day_text {A} (dt t : str) (pos : nat) (gs : groups)
    (k : str → nat → groups → option A) (r : A) :
  is_day_text dt = true → no_digit_ahead t →
  k t (length dt + pos) gs = Some r →
  rmatch re_day (dt ++ t) pos gs k = Some r.
Proof.
  intros Hdt Ht Hk. unfold re_day.
  destruct dt as [|a [|b [|]]]; try discriminate.
  - cbn [is_day_text] in Hdt. cbn [length Nat.add] in Hk. cbn [app rmatch].
    assert (∀ lo hi, (ch "0" <= lo)%N → (hi <= ch "9")%N →
              match t with
              | x :: t' => if in_range lo hi x then k t' (S (S pos)) gs else None
              | [] => None
              end = None) as Hr.
    { intros lo hi Hlo Hhi. destruct t as [|x t']; [reflexivity|].
      destruct (in_range lo hi x) eqn:E; [|reflexivity].
      apply in_range_digit in E; [|done..]. cbn [no_digit_ahead] in Ht. congruence. }
    assert (match t with
            | x :: t' => if is_decimal x then k t' (S (S pos)) gs else None
            | [] => None
            end = None) as Hd.
    { destruct t as [|x t']; [reflexivity|]. cbn [no_digit_ahead] in Ht.
      by rewrite Ht. }
    rewrite Hd, !Hr by done. rewrite Hdt, Hk.
    by repeat match goal with |- context [if ?c then _ else _] =>
      destruct c end.
  - cbn [length Nat.add] in Hk. cbn [app rmatch]. cbn [is_day_text] in Hdt.
    rewrite Hk.
    destruct (a =? ch "3")%N eqn:E3, (in_range (ch "0") (ch "1") b) eqn:E01,
      (in_range (ch "1") (ch "2") a) eqn:E12, (is_decimal b) eqn:Eb,
      (a =? ch "0")%N eqn:E0, (in_range (ch "1") (ch "9") b) eqn:E19,
      (a =? ch " ")%N eqn:Es; try reflexivity; try discriminate;
      try (apply N.eqb_eq in Es; subst a; discriminate).
    all: destruct (in_range (ch "1") (ch "9") a) eqn:Ea; try reflexivity.
    all: apply N.eqb_eq in Es; subst a; discriminate.
Qed.

Lemma rmatch_month_text {A} (mt t : str) (pos : nat) (gs : groups)
    (k : str → nat → groups → option A) (r : A) :
  is_month_text mt = true → no_digit_ahead t →
  k t (length mt + pos) gs = Some r →
  rmatch re_month (mt ++ t) pos gs k = Some r.
Proof.
  intros Hmt Ht Hk. unfold re_month.
  destruct mt as [|a [|b [|]]]; try discriminate.
  - cbn [is_month_text] in Hmt. cbn [length Nat.add] in Hk.
    cbn [app rmatch].
    assert (∀ lo hi, (ch "0" <= lo)%N → (hi <= ch "9")%N →
              match t with
              | x :: t' => if in_range lo hi x then k t' (S (S pos)) gs else None
              | [] => None
              end = None) as Hr.
    { intros lo hi Hlo Hhi. destruct t as [|x t']; [reflexivity|].
      destruct (in_range lo hi x) eqn:E; [|reflexivity].
      apply in_range_digit in E; [|done..]. cbn [no_digit_ahead] in Ht.
      congruence. }
    rewrite !Hr by done. rewrite Hmt, Hk.
    by repeat match goal with |- context [if ?c then _ else _] =>
      destruct c end.
  - cbn [length Nat.add] in Hk. cbn [app rmatch]. cbn [is_month_text] in Hmt.
    rewrite Hk.
    destruct (a =? ch "1")%N eqn:E1, (in_range (ch "0") (ch "2") b) eqn:E02,
      (a =? ch "0")%N eqn:E0, (in_range (ch "1") (ch "9") b) eqn:E19;
      try reflexivity; discriminate.
Qed.

Lemma star_run {A} (p : N → bool) (ws t : str) (pos : nat)
    (k : str → nat → option A) (r : A) :
  forallb p ws = true →
  match t with c :: _ => p c = false | [] => True end →
  k t (length ws + pos) = Some r →
  star p (ws ++ t) pos k = Some r.
Proof.
  intros Hws Ht. revert pos. induction ws as [|c ws IH]; intros pos Hk.
  - cbn [app length Nat.add] in *. destruct t as [|x t]; [exact Hk|].
    cbn [star]. by rewrite Ht.
  - cbn [forallb] in Hws. apply andb_true_iff in Hws as [Hc Hws].
    cbn [app star]. rewrite Hc. rewrite (IH Hws (S pos)); [reflexivity|].
    cbn [length] in Hk. by rewrite Nat.add_succ_comm in Hk.
Qed.

Lemma rmatch_spaces_run {A} (ws t : str) (pos : nat) (gs : groups)
    (k : str → nat → groups → option A) (r : A) :
  is_blank ws = true →
  match t with c :: _ => is_space c = false | [] => True end →
  k t (length ws + pos) gs = Some r →
  rmatch re_spaces (ws ++ t) pos gs k = Some r.
Proof.
  unfold is_blank. intros [Hne Hws]%andb_true_iff Ht Hk.
  destruct ws as [|c ws]; [discriminate|]. cbn [forallb] in Hws.
  apply andb_true_iff in Hws as [Hc Hws].
  unfold re_spaces. cbn [app rmatch]. rewrite Hc.
  apply star_run; [exact Hws | exact Ht |].
  cbn [length] in Hk. by rewrite Nat.add_succ_comm in Hk.
Qed.

Lemma rmatch_year4_text {A} (yt t : str) (pos : nat) (gs : groups)
    (k : str → nat → groups → option A) :
  is_year_text yt = true →
  rmatch re_year4 (yt ++ t) pos gs k = k t (length yt + pos) gs.
Proof.
  unfold is_year_text. intros [Hl Hd]%andb_true_iff.
  destruct yt as [|a [|b [|c [|e [|]]]]]; try discriminate.
  cbn [forallb] in Hd.
  apply andb_true_iff in Hd as [Ha Hd]. apply andb_true_iff in Hd as [Hb Hd].
  apply andb_true_iff in Hd as [Hc Hd]. apply andb_true_iff in Hd as [He _].
  by apply rmatch_year4_digits.
Qed.

(** The first character of a field. *)
Lemma day_text_head (dt : str) :
  is_day_text dt = true →
  ∃ a dt', dt = a :: dt' ∧ (is_decimal a = true ∨ a = ch " ").
Proof.
  destruct dt as [|a [|b [|]]]; try discriminate; cbn [is_day_text].
  - intros H. exists a, []. split; [done|]. left.
    by apply (in_range_digit (ch "1") (ch "9")).
  - intros H. exists a, [b]. split; [done|].
    repeat (apply orb_true_iff in H as [H|H]);
      apply andb_true_iff in H as [H _].
    + apply N.eqb_eq in H as ->. by left.
    + left. by apply (in_range_digit (ch "1") (ch "2")).
    + apply N.eqb_eq in H as ->. by left.
    + apply N.eqb_eq in H as ->. by right.
Qed.

Lemma month_text_head (mt : str) :
  is_month_text mt = true →
  ∃ a mt', mt = a :: mt' ∧ is_decimal a = true.
Proof.
  destruct mt as [|a [|b [|]]]; try discriminate; cbn [is_month_text].
  - intros H. exists a, []. split; [done|].
    by apply (in_range_digit (ch "1") (ch "9")).
  - intros H. exists a, [b]. split; [done|].
    apply orb_true_iff in H as [H|H]; apply andb_true_iff in H as [H _];
      by apply N.eqb_eq in H as ->.
Qed.

Lemma year_text_head (yt : str) :
  is_year_text yt = true →
  length yt = 4 ∧ ∃ a yt', yt = a :: yt' ∧ is_decimal a = true.
Proof.
  unfold is_year_text. intros [Hl Hd]%andb_true_iff.
  apply Nat.eqb_eq in Hl. split; [exact Hl|].
  destruct yt as [|a yt']; [discriminate|]. cbn [forallb] in Hd.
  apply andb_true_iff in Hd as [Ha _]. by exists a, yt'.
Qed.

Lemma space_cases (c : N) :
  is_space c = true →
  (c = 9 ∨ c = 10 ∨ c = 11 ∨ c = 12 ∨ c = 13 ∨ c = 28 ∨ c = 29 ∨ c =
   30 ∨ c = 31 ∨ c = 32 ∨ c = 133 ∨ c = 160 ∨ c = 5760 ∨ c = 8192 ∨ c
   = 8193 ∨ c = 8194 ∨ c = 8195 ∨ c = 8196 ∨ c = 8197 ∨ c = 8198 ∨ c =
   8199 ∨ c = 8200 ∨ c = 8201 ∨ c = 8202 ∨ c = 8232 ∨ c = 8233 ∨ c =
   8239 ∨ c = 8287 ∨ c = 12288)%N.
Proof.
  unfold is_space.
  rewrite !orb_true_iff, !andb_true_iff, !N.eqb_eq, !N.leb_le. lia.
Qed.

Lemma decimal_not_space (c : N) : is_decimal c = true → is_space c = false.
Proof.
  intros Hd. destruct (is_space c) eqn:Hs; [|reflexivity]. exfalso.
  apply space_cases in Hs.
  repeat (destruct Hs as [-> | Hs]; [by vm_compute in Hd|]).
  subst c. by vm_compute in Hd.
Qed.

(** The same for the named groups of the directives. *)
Lemma take_field (f t : str) (pos : nat) :
  take (length f + pos - pos) (f ++ t) = f.
Proof.
  rewrite Nat.add_sub. rewrite take_app_length'; reflexivity.
Qed.

Lemma group_day_inv {A} (n : N) (s : str) (pos : nat) (gs : groups)
    (k : str → nat → groups → option A) (r : A) :
  rmatch (Group n re_day) s pos gs k = Some r →
  ∃ dt t, s = dt ++ t ∧ is_day_text dt = true
          ∧ k t (length dt + pos) ((n, dt) :: gs) = Some r.
Proof.
  cbn [rmatch]. intros (dt & t & -> & Hdt & Hk)%rmatch_day_inv.
  rewrite take_field in Hk. by exists dt, t.
Qed.

Lemma group_month_inv {A} (n : N) (s : str) (pos : nat) (gs : groups)
    (k : str → nat → groups → option A) (r : A) :
  rmatch (Group n re_month) s pos gs k = Some r →
  ∃ mt t, s = mt ++ t ∧ is_month_text mt = true
          ∧ k t (length mt + pos) ((n, mt) :: gs) = Some r.
Proof.
  cbn [rmatch]. intros (mt & t & -> & Hmt & Hk)%rmatch_month_inv.
  rewrite take_field in Hk. by exists mt, t.
Qed.

Lemma group_year4_inv {A} (n : N) (s : str) (pos : nat) (gs : groups)
    (k : str → nat → groups → option A) (r : A) :
  rmatch (Group n re_year4) s pos gs k = Some r →
  ∃ yt t, s = yt ++ t ∧ is_year_text yt = true
          ∧ k t (length yt + pos) ((n, yt) :: gs) = Some r.
Proof.
  cbn [rmatch]. intros (yt & t & -> & Hyt & Hk)%rmatch_year4_inv.
  rewrite take_field in Hk. by exists yt, t.
Qed.

Lemma group_day_text {A} (n : N) (dt t : str) (pos : nat) (gs : groups)
    (k : str → nat → groups → option A) (r : A) :
  is_day_text dt = true → no_digit_ahead t →
  k t (length dt + pos) ((n, dt) :: gs) = Some r →
  rmatch (Group n re_day) (dt ++ t) pos gs k = Some r.
Proof.
  intros Hdt Ht Hk. cbn [rmatch]. apply rmatch_day_text; [done..|].
  by rewrite take_field.
Qed.

Lemma group_month_text {A} (n : N) (mt t : str) (pos : nat) (gs : groups)
    (k : str → nat → groups → option A) (r : A) :
  is_month_text mt = true → no_digit_ahead t →
  k t (length mt + pos) ((n, mt) :: gs) = Some r →
  rmatch (Group n re_month) (mt ++ t) pos gs k = Some r.
Proof.
  intros Hmt Ht Hk. cbn [rmatch]. apply rmatch_month_text; [done..|].
  by rewrite take_field.
Qed.

Lemma group_year4_text {A} (n : N) (yt t : str) (pos : nat) (gs : groups)
    (k : str → nat → groups → option A) :
  is_year_text yt = true →
  rmatch (Group n re_year4) (yt ++ t) pos gs k
  = k t (length yt + pos) ((n, yt) :: gs).
Proof.
  intros Hyt. cbn [rmatch]. rewrite rmatch_year4_text by done.
  by rewrite take_field.
Qed.

Lemma rmatch_lit_inv {A} (c : N) (s : str) (pos : nat) (gs : groups)
    (k : str → nat → groups → option A) (r : A) :
  rmatch (Lit c) s pos gs k = Some r →
  ∃ t, s = c :: t ∧ k t (S pos) gs = Some r.
Proof.
  cbn [rmatch]. destruct s as [|x t]; [discriminate|].
  destruct (x =? c)%N eqn:E; [|discriminate]. apply N.eqb_eq in E as ->.
  intros Hk. by exists t.
Qed.

Lemma date_of_groups_dmY (dt mt yt : str) :
  date_of_groups [(ch "Y", yt); (ch "m", mt); (ch "d", dt)]
  = date_of_texts yt mt dt.
Proof. reflexivity. Qed.

Lemma date_of_groups_Ymd (dt mt yt : str) :
  date_of_groups [(ch "d", dt); (ch "m", mt); (ch "Y", yt)]
  = date_of_texts yt mt dt.
Proof. reflexivity. Qed.

Lemma rmatch_cat {A} (r1 r2 : regex) (s : str) (pos : nat) (gs : groups)
    (k : str → nat → groups → option A) :
  rmatch (Cat r1 r2) s pos gs k
  = rmatch r1 s pos gs (fun s' pos' gs' => rmatch r2 s' pos' gs' k).
Proof. reflexivity. Qed.

Lemma rmatch_lit_same {A} (c : N) (t : str) (pos : nat) (gs : groups)
    (k : str → nat → groups → option A) :
  rmatch (Lit c) (c :: t) pos gs k = k t (S pos) gs.
Proof. cbn [rmatch]. by rewrite N.eqb_refl. Qed.

Lemma rmatch_eps {A} (s : str) (pos : nat) (gs : groups)
    (k : str → nat → groups → option A) :
  rmatch Eps s pos gs k = k s pos gs.
Proof. reflexivity. Qed.

Ltac field_lengths H :=
  repeat (rewrite ?length_app in H; cbn [length] in H).

(** [strptime] on a text in the layout of the format: the match takes the
    three fields, and the date is the one that they denote. *)
Lemma strptime_slashes_text (dt mt yt : str) :
  is_day_text dt = true → is_month_text mt = true → is_year_text yt = true →
  strptime (dt ++ ch "/" :: mt ++ ch "/" :: yt) (u "%d/%m/%Y")
  = date_of_texts yt mt dt.
Proof.
  intros Hdt Hmt Hyt. unfold strptime. rewrite pattern_dmy_slash.
  unfold re_match.
  assert (rmatch (Cat (Group (ch "d") re_day) (Cat (Lit (ch "/"))
            (Cat (Group (ch "m") re_month) (Cat (Lit (ch "/"))
            (Cat (Group (ch "Y") re_year4) Eps)))))
            (dt ++ ch "/" :: mt ++ ch "/" :: yt) 0 []
            (fun _ pos gs => Some (pos, gs))
          = Some (length (dt ++ ch "/" :: mt ++ ch "/" :: yt),
                  [(ch "Y", yt); (ch "m", mt); (ch "d", dt)])) as ->.
  { rewrite rmatch_cat.
    apply (group_day_text (ch "d")); [done | reflexivity |].
    rewrite rmatch_cat, rmatch_lit_same, rmatch_cat.
    apply (group_month_text (ch "m")); [done | reflexivity |].
    rewrite rmatch_cat, rmatch_lit_same, rmatch_cat.
    rewrite <- (app_nil_r yt) at 1.
    rewrite (group_year4_text (ch "Y")) by done. rewrite rmatch_eps.
    f_equal. f_equal. repeat (rewrite ?length_app; cbn [length]). lia. }
  rewrite Nat.eqb_refl. cbn [negb]. by rewrite date_of_groups_dmY.
Qed.

Lemma strptime_hyphens_text (dt mt yt : str) :
  is_day_text dt = true → is_month_text mt = true → is_year_text yt = true →
  strptime (yt ++ ch "-" :: mt ++ ch "-" :: dt) (u "%Y-%m-%d")
  = date_of_texts yt mt dt.
Proof.
  intros Hdt Hmt Hyt. unfold strptime. rewrite pattern_ymd.
  unfold re_match.
  assert (rmatch (Cat (Group (ch "Y") re_year4) (Cat (Lit (ch "-"))
            (Cat (Group (ch "m") re_month) (Cat (Lit (ch "-"))
            (Cat (Group (ch "d") re_day) Eps)))))
            (yt ++ ch "-" :: mt ++ ch "-" :: dt) 0 []
            (fun _ pos gs => Some (pos, gs))
          = Some (length (yt ++ ch "-" :: mt ++ ch "-" :: dt),
                  [(ch "d", dt); (ch "m", mt); (ch "Y", yt)])) as ->.
  { rewrite rmatch_cat.
    rewrite (group_year4_text (ch "Y")) by done.
    rewrite rmatch_cat, rmatch_lit_same, rmatch_cat.
    apply (group_month_text (ch "m")); [done | reflexivity |].
    rewrite rmatch_cat, rmatch_lit_same, rmatch_cat.
    rewrite <- (app_nil_r dt) at 1.
    apply (group_day_text (ch "d")); [done | exact I |].
    rewrite rmatch_eps.
    f_equal. f_equal. repeat (rewrite ?length_app; cbn [length]). lia. }
  rewrite Nat.eqb_refl. cbn [negb]. by rewrite date_of_groups_Ymd.
Qed.

Lemma blank_head (ws : str) :
  is_blank ws = true → ∃ c ws', ws = c :: ws' ∧ is_space c = true.
Proof.
  unfold is_blank. intros [Hne Hws]%andb_true_iff.
  destruct ws as [|c ws']; [discriminate|]. cbn [forallb] in Hws.
  apply andb_true_iff in Hws as [Hc _]. by exists c, ws'.
Qed.

Lemma blank_no_digit_ahead (ws t : str) :
  is_blank ws = true → no_digit_ahead (ws ++ t).
Proof.
  intros (c & ws' & -> & Hc)%blank_head. cbn [app no_digit_ahead].
  destruct (is_decimal c) eqn:Hd; [|reflexivity].
  apply decimal_not_space in Hd. congruence.
Qed.

Lemma strptime_spaces_text (dt ws1 mt ws2 yt : str) :
  is_day_text dt = true → is_month_text mt = true → is_year_text yt = true →
  is_blank ws1 = true → is_blank ws2 = true →
  strptime (dt ++ ws1 ++ mt ++ ws2 ++ yt) (u "%d %m %Y")
  = date_of_texts yt mt dt.
Proof.
  intros Hdt Hmt Hyt Hws1 Hws2. unfold strptime. rewrite pattern_dmy_space.
  unfold re_match.
  destruct (month_text_head mt Hmt) as (m0 & mt' & Em & Hm0).
  destruct (year_text_head yt Hyt) as (_ & y0 & yt' & Ey & Hy0).
  assert (rmatch (Cat (Group (ch "d") re_day) (Cat re_spaces
            (Cat (Group (ch "m") re_month) (Cat re_spaces
            (Cat (Group (ch "Y") re_year4) Eps)))))
            (dt ++ ws1 ++ mt ++ ws2 ++ yt) 0 []
            (fun _ pos gs => Some (pos, gs))
          = Some (length (dt ++ ws1 ++ mt ++ ws2 ++ yt),
                  [(ch "Y", yt); (ch "m", mt); (ch "d", dt)])) as ->.
  { rewrite rmatch_cat.
    apply (group_day_text (ch "d"));
      [done | by apply blank_no_digit_ahead |].
    rewrite rmatch_cat.
    apply rmatch_spaces_run; [done | |].
    { rewrite Em. cbn [app]. by apply decimal_not_space. }
    rewrite rmatch_cat.
    apply (group_month_text (ch "m"));
      [done | by apply blank_no_digit_ahead |].
    rewrite rmatch_cat.
    apply rmatch_spaces_run; [done | |].
    { rewrite Ey. by apply decimal_not_space. }
    rewrite rmatch_cat.
    rewrite <- (app_nil_r yt) at 1.
    rewrite (group_year4_text (ch "Y")) by done. rewrite rmatch_eps.
    f_equal. f_equal. repeat (rewrite ?length_app; cbn [length]). lia. }
  rewrite Nat.eqb_refl. cbn [negb]. by rewrite date_of_groups_dmY.
Qed.

(** Together: on a text in the layout of its format, [strptime] gives the
    date of the fields. *)
Lemma strptime_dob_text (l : layout) (dt mt yt s : str) :
  dob_text l dt mt yt s →
  strptime s (layout_format l) = date_of_texts yt mt dt.
Proof.
  intros (Hl & Hdt & Hmt & Hyt). destruct l; cbn [laid_out layout_format] in *.
  - subst s. by apply strptime_slashes_text.
  - subst s. by apply strptime_hyphens_text.
  - destruct Hl as (ws1 & ws2 & Hws1 & Hws2 & ->).
    by apply strptime_spaces_text.
Qed.

(** And [strptime] with a format returns a date only on a text in its
    layout. *)
Lemma strptime_layout (l : layout) (s : str) (date : datetime) :
  strptime s (layout_format l) = Ok date →
  ∃ dt mt yt, dob_text l dt mt yt s.
Proof.
  unfold strptime, dob_text.
  destruct l; cbn [layout_format laid_out];
    [rewrite pattern_dmy_slash | rewrite pattern_ymd
     | rewrite pattern_dmy_space];
    unfold re_match;
    (destruct (rmatch _ _ _ _ _) as [[fin found]|] eqn:E; [|discriminate]);
    (destruct (length s =? fin) eqn:El; [|discriminate]);
    apply Nat.eqb_eq in El; intros _.
  - rewrite rmatch_cat in E.
    apply group_day_inv in E as (dt & t1 & -> & Hdt & E).
    rewrite rmatch_cat in E. apply rmatch_lit_inv in E as (t & -> & E).
    rewrite rmatch_cat in E.
    apply group_month_inv in E as (mt & t2 & -> & Hmt & E).
    rewrite rmatch_cat in E. apply rmatch_lit_inv in E as (t & -> & E).
    rewrite rmatch_cat in E.
    apply group_year4_inv in E as (yt & t3 & -> & Hyt & E).
    rewrite rmatch_eps in E. injection E as <- <-.
    field_lengths El.
    assert (t3 = []) as -> by (destruct t3; [done | cbn [length] in El; lia]).
    rewrite app_nil_r. by exists dt, mt, yt.
  - rewrite rmatch_cat in E.
    apply group_year4_inv in E as (yt & t1 & -> & Hyt & E).
    rewrite rmatch_cat in E. apply rmatch_lit_inv in E as (t & -> & E).
    rewrite rmatch_cat in E.
    apply group_month_inv in E as (mt & t2 & -> & Hmt & E).
    rewrite rmatch_cat in E. apply rmatch_lit_inv in E as (t & -> & E).
    rewrite rmatch_cat in E.
    apply group_day_inv in E as (dt & t3 & -> & Hdt & E).
    rewrite rmatch_eps in E. injection E as <- <-.
    field_lengths El.
    assert (t3 = []) as -> by (destruct t3; [done | cbn [length] in El; lia]).
    rewrite app_nil_r. by exists dt, mt, yt.
  - rewrite rmatch_cat in E.
    apply group_day_inv in E as (dt & t1 & -> & Hdt & E).
    rewrite rmatch_cat in E.
    apply rmatch_spaces_inv in E as (ws1 & t & -> & Hws1 & E).
    rewrite rmatch_cat in E.
    apply group_month_inv in E as (mt & t2 & -> & Hmt & E).
    rewrite rmatch_cat in E.
    apply rmatch_spaces_inv in E as (ws2 & t & -> & Hws2 & E).
    rewrite rmatch_cat in E.
    apply group_year4_inv in E as (yt & t3 & -> & Hyt & E).
    rewrite rmatch_eps in E. injection E as <- <-.
    field_lengths El.
    assert (t3 = []) as -> by (destruct t3; [done | cbn [length] in El; lia]).
    rewrite app_nil_r. exists dt, mt, yt.
    split; [by exists ws1, ws2 | done].
Qed.

(* ===================================================================== *)
(** * The texts that [normalize_dob] accepts *)
(* ===================================================================== *)

Lemma day_text_chars (dt : str) :
  is_day_text dt = true → forallb (fun c => is_decimal c || is_space c) dt = true.
Proof.
  destruct dt as [|a [|b [|]]]; try discriminate; cbn [is_day_text forallb].
  - intros H. apply in_range_digit in H; [|done..]. by rewrite H.
  - intros H.
    repeat (apply orb_true_iff in H as [H|H]);
      apply andb_true_iff in H as [Ha Hb].
    + apply N.eqb_eq in Ha as ->.
      apply in_range_digit in Hb; [|done..]. by rewrite Hb.
    + apply in_range_digit in Ha; [|done..]. by rewrite Ha, Hb.
    + apply N.eqb_eq in Ha as ->.
      apply in_range_digit in Hb; [|done..]. by rewrite Hb.
    + apply N.eqb_eq in Ha as ->.
      apply in_range_digit in Hb; [|done..]. by rewrite Hb.
Qed.

Lemma month_text_chars (mt : str) :
  is_month_text mt = true →
  forallb (fun c => is_decimal c || is_space c) mt = true.
Proof.
  destruct mt as [|a [|b [|]]]; try discriminate;
    cbn [is_month_text forallb].
  - intros H. apply in_range_digit in H; [|done..]. by rewrite H.
  - intros H.
    apply orb_true_iff in H as [H|H]; apply andb_true_iff in H as [Ha Hb];
      apply N.eqb_eq in Ha as ->;
      (apply in_range_digit in Hb; [|done..]); by rewrite Hb.
Qed.

Lemma forallb_weaken {A} (p q : A → bool) (l : list A) :
  (∀ x, p x = true → q x = true) → forallb p l = true → forallb q l = true.
Proof.
  intros Hpq. induction l as [|x l IH]; [done|]. cbn [forallb].
  intros [Hx Hl]%andb_true_iff. by rewrite (Hpq x Hx), IH.
Qed.

Lemma year_text_chars (yt : str) :
  is_year_text yt = true →
  forallb (fun c => is_decimal c || is_space c) yt = true.
Proof.
  unfold is_year_text. intros [_ H]%andb_true_iff.
  revert H. apply forallb_weaken. by intros c ->.
Qed.

Lemma blank_chars (ws : str) :
  is_blank ws = true →
  forallb (fun c => is_decimal c || is_space c) ws = true.
Proof.
  unfold is_blank. intros [_ H]%andb_true_iff.
  revert H. apply forallb_weaken. intros c ->. apply orb_true_r.
Qed.

Lemma forallb_app_intro {A} (p : A → bool) (l1 l2 : list A) :
  forallb p l1 = true → forallb p l2 = true → forallb p (l1 ++ l2) = true.
Proof. intros H1 H2. rewrite forallb_app. by rewrite H1, H2. Qed.

Lemma dob_text_chars (l : layout) (dt mt yt s : str) :
  dob_text l dt mt yt s → forallb (layout_char l) s = true.
Proof.
  intros (Hl & Hdt%day_text_chars & Hmt%month_text_chars
          & Hyt%year_text_chars).
  assert (∀ f, forallb (fun c => is_decimal c || is_space c) f = true →
               forallb (layout_char l) f = true) as Hf.
  { intros f. apply forallb_weaken. intros c Hc. unfold layout_char.
    by rewrite Hc. }
  destruct l; cbn [laid_out] in Hl.
  - subst s. apply forallb_app_intro; [by apply Hf|]. cbn [forallb].
    apply andb_true_intro. split; [reflexivity|].
    apply forallb_app_intro; [by apply Hf|]. cbn [forallb].
    apply andb_true_intro. split; [reflexivity | by apply Hf].
  - subst s. apply forallb_app_intro; [by apply Hf|]. cbn [forallb].
    apply andb_true_intro. split; [reflexivity|].
    apply forallb_app_intro; [by apply Hf|]. cbn [forallb].
    apply andb_true_intro. split; [reflexivity | by apply Hf].
  - destruct Hl as (ws1 & ws2 & Hws1%blank_chars & Hws2%blank_chars & ->).
    repeat (apply forallb_app_intro; [by apply Hf|]). by apply Hf.
Qed.

Lemma forallb_elem (p : N → bool) (s : str) (c : N) :
  forallb p s = true → c ∈ s → p c = true.
Proof.
  rewrite forallb_forall. intros H Hc. apply H. by apply list_elem_of_In.
Qed.

(** A text has one layout at most: the separator tells. *)
Lemma dob_text_layout_unique (l l' : layout) (dt mt yt dt' mt' yt' s : str) :
  dob_text l dt mt yt s → dob_text l' dt' mt' yt' s → l = l'.
Proof.
  intros H H'.
  pose proof (dob_text_chars _ _ _ _ _ H) as Hc.
  pose proof (dob_text_chars _ _ _ _ _ H') as Hc'.
  destruct H as (Hl & _), H' as (Hl' & _).
  assert (∀ l0 dt0 mt0 yt0, laid_out l0 dt0 mt0 yt0 s →
            match l0 with
            | Slashes => ch "/" ∈ s
            | Hyphens => ch "-" ∈ s
            | Spaces => True
            end) as Hsep.
  { intros [] dt0 mt0 yt0 E; cbn [laid_out] in E; [| |done]; subst s;
      apply elem_of_app; right; left. }
  pose proof (Hsep _ _ _ _ Hl) as S1. pose proof (Hsep _ _ _ _ Hl') as S2.
  destruct l, l'; try reflexivity; exfalso;
    first [ by pose proof (forallb_elem _ _ _ Hc S2)
          | by pose proof (forallb_elem _ _ _ Hc' S1) ].
Qed.

Lemma strptime_other_layout (l l' : layout) (dt mt yt s : str) :
  dob_text l dt mt yt s → l ≠ l' →
  ∃ e, strptime s (layout_format l') = Raise e.
Proof.
  intros H Hne. destruct (strptime s (layout_format l')) as [date|e] eqn:E;
    [|by exists e].
  apply strptime_layout in E as (dt' & mt' & yt' & H').
  destruct Hne. by eapply dob_text_layout_unique.
Qed.

Lemma strptime_needs_dot (s fmt : str) :
  ch "." ∉ s → fmt = u "%d.%m.%Y" ∨ fmt = u "%d.%m'%y" →
  strptime s fmt = Raise ValueError.
Proof.
  intros Hs [-> | ->]; unfold strptime;
    [rewrite pattern_dmy_dot | rewrite pattern_dmy_short];
    (destruct (re_match _ _) as [[fin found]|] eqn:E; [|reflexivity]);
    destruct Hs; eapply re_match_literal; by rewrite E.
Qed.

(** The loop over the formats on a text in a layout. *)
Lemma try_formats_dob_text (l : layout) (dt mt yt s : str) :
  dob_text l dt mt yt s →
  try_formats s formats = iso_result (date_of_texts yt mt dt).
Proof.
  intros H.
  assert (ch "." ∉ s) as Hdot.
  { intros Hin. by pose proof (forallb_elem _ _ _ (dob_text_chars _ _ _ _ _ H) Hin)
      as Hc; destruct l. }
  unfold formats. cbn [try_formats].
  rewrite (strptime_needs_dot s (u "%d.%m.%Y")) by (done || by left).
  rewrite (strptime_needs_dot s (u "%d.%m'%y")) by (done || by right).
  cbn [mbind res_bind].
  pose proof (strptime_dob_text l dt mt yt s H) as Hl.
  assert (∀ l', l ≠ l' → ∃ e, strptime s (layout_format l') = Raise e) as Ho.
  { intros l'. by apply strptime_other_layout with dt mt yt. }
  destruct l; cbn [layout_format] in Hl; rewrite <- Hl.
  - destruct (strptime s (u "%d/%m/%Y")); [reflexivity|].
    destruct (Ho Hyphens) as [e1 E1]; [done|].
    destruct (Ho Spaces) as [e2 E2]; [done|].
    cbn [layout_format] in E1, E2. by rewrite E1, E2.
  - destruct (Ho Slashes) as [e1 E1]; [done|].
    destruct (Ho Spaces) as [e2 E2]; [done|].
    cbn [layout_format] in E1, E2. rewrite E1, E2. cbn [mbind res_bind].
    by destruct (strptime s (u "%Y-%m-%d")).
  - destruct (Ho Slashes) as [e1 E1]; [done|].
    destruct (Ho Hyphens) as [e2 E2]; [done|].
    cbn [layout_format] in E1, E2. rewrite E1, E2. cbn [mbind res_bind].
    by destruct (strptime s (u "%d %m %Y")).
Qed.

Lemma dob_text_nonempty (l : layout) (dt mt yt s : str) :
  dob_text l dt mt yt s → s ≠ [].
Proof.
  intros (Hl & (a & dt' & -> & _)%day_text_head & _
          & (_ & b & yt' & -> & _)%year_text_head).
  destruct l; cbn [laid_out] in Hl.
  - by subst s.
  - by subst s.
  - destruct Hl as (ws1 & ws2 & _ & _ & ->). done.
Qed.

Lemma py_lower_nil (s : str) : py_lower s = [] → s = [].
Proof.
  destruct s as [|c s]; [done|]. unfold py_lower. cbn [flat_map].
  unfold lower_cp. by repeat case_match.
Qed.

(** [normalize_dob] on an input whose cleaned text is in a layout. *)
Lemma normalize_dob_of_text (v : pyval) (l : layout) (dt mt yt : str) :
  dob_text l dt mt yt (dob_clean v) →
  normalize_dob v = iso_result (date_of_texts yt mt dt).
Proof.
  intros H. unfold normalize_dob.
  destruct (pd_isna v || is_empty_str v) eqn:E;
    [|by apply (try_formats_dob_text l)].
  exfalso. destruct v as [| |z|s].
  - apply dob_text_chars in H.
    assert (dob_clean PyNone = u "none") as Ec by (by vm_compute).
    rewrite Ec in H. clear -H. destruct l; vm_compute in H; discriminate.
  - apply dob_text_chars in H.
    assert (dob_clean PyNaN = u "nan") as Ec by (by vm_compute).
    rewrite Ec in H. clear -H. destruct l; vm_compute in H; discriminate.
  - clear -E. cbn [pd_isna is_empty_str orb] in E. discriminate.
  - cbn [pd_isna is_empty_str orb] in E. destruct s; [|clear -E; discriminate].
    by apply dob_text_nonempty in H.
Qed.

(** A result other than the empty sentinel comes from a text in a layout. *)
Lemma normalize_dob_text (v : pyval) (r : str) :
  normalize_dob v = Ok r → r ≠ [] →
  ∃ l dt mt yt y m d,
    dob_text l dt mt yt (dob_clean v)
    ∧ date_of_texts yt mt dt = Ok (Datetime y m d)
    ∧ valid_date y m d = true
    ∧ r = iso_date y m d.
Proof.
  intros E Hr.
  destruct (normalize_dob_cases v)
    as [E' | (fmt & y & m & d & Hin & Hp & V & E')]; [congruence|].
  assert (r = iso_date y m d) as -> by congruence.
  destruct (dotted_formats_never_parse v) as [D1 D2].
  assert (∃ l, fmt = layout_format l) as [l ->].
  { unfold formats in Hin. apply list_elem_of_In in Hin. cbn [In] in Hin.
    destruct Hin as [<-|[<-|[<-|[<-|[<-|[]]]]]]; try congruence;
      [by exists Slashes | by exists Hyphens | by exists Spaces]. }
  destruct (strptime_layout _ _ _ Hp) as (dt & mt & yt & H).
  exists l, dt, mt, yt, y, m, d. split; [exact H|].
  split; [by rewrite <- (strptime_dob_text l dt mt yt _ H) | done].
Qed.

(* ===================================================================== *)
(** * The cleaning of [normalize_dob], part by part *)
(* ===================================================================== *)

Lemma startswith_head_ne (a b : N) (w s : str) :
  a ≠ b → startswith (a :: w) (b :: s) = false.
Proof.
  intros Hne. cbn [startswith].
  destruct (N.eqb_spec a b); [done | reflexivity].
Qed.

Lemma letter_ne (a b : N) : is_letter a = true → is_letter b = false → a ≠ b.
Proof. congruence. Qed.

Lemma startswith_app_plain (w x B : str) :
  forallb is_letter w = true → forallb (fun c => negb (is_letter c)) B = true →
  startswith w (x ++ B) = startswith w x.
Proof.
  intros Hw HB. revert x. induction w as [|a w IH]; intros x; [by destruct x|].
  cbn [forallb] in Hw. apply andb_true_iff in Hw as [Ha Hw].
  destruct x as [|c x].
  - cbn [app]. destruct B as [|b B]; [reflexivity|].
    cbn [forallb] in HB. apply andb_true_iff in HB as [Hb _].
    apply negb_true_iff in Hb. apply startswith_head_ne. by apply letter_ne.
  - cbn [app startswith]. by rewrite IH.
Qed.

Lemma py_in_plain (w B : str) :
  w ≠ [] → forallb is_letter w = true →
  forallb (fun c => negb (is_letter c)) B = true → py_in w B = false.
Proof.
  intros Hne Hw. destruct w as [|a w]; [done|].
  cbn [forallb] in Hw. apply andb_true_iff in Hw as [Ha _].
  induction B as [|b B IH]; [reflexivity|]. cbn [forallb].
  intros [Hb HB]%andb_true_iff. apply negb_true_iff in Hb.
  cbn [py_in]. rewrite (IH HB), orb_false_r.
  apply startswith_head_ne. by apply letter_ne.
Qed.

Lemma py_in_app_plain (w x B : str) :
  w ≠ [] → forallb is_letter w = true →
  forallb (fun c => negb (is_letter c)) B = true →
  py_in w (x ++ B) = py_in w x.
Proof.
  intros Hne Hw HB. induction x as [|c x IH].
  - cbn [app]. rewrite py_in_plain by done. by destruct w.
  - cbn [app py_in]. rewrite IH.
    change (c :: x ++ B) with ((c :: x) ++ B).
    by rewrite startswith_app_plain.
Qed.

Lemma py_in_plain_app (w A t : str) :
  w ≠ [] → forallb is_letter w = true →
  forallb (fun c => negb (is_letter c)) A = true →
  py_in w (A ++ t) = py_in w t.
Proof.
  intros Hne Hw. destruct w as [|a w]; [done|].
  cbn [forallb] in Hw. apply andb_true_iff in Hw as [Ha _].
  induction A as [|b A IH]; [reflexivity|]. cbn [forallb].
  intros [Hb HA]%andb_true_iff. apply negb_true_iff in Hb.
  cbn [app py_in]. rewrite (IH HA).
  rewrite startswith_head_ne; [reflexivity | by apply letter_ne].
Qed.

(** A literal word as a pattern matches where the text starts with it. *)
Lemma rmatch_word {A} (w s : str) (pos : nat) (gs : groups)
    (k : str → nat → groups → option A) :
  rmatch (re_word w) s pos gs k =
  if startswith w s then k (drop (length w) s) (length w + pos) gs else None.
Proof.
  revert s pos. induction w as [|a w IH]; intros s pos; [by destruct s|].
  cbn [re_word rmatch startswith]. destruct s as [|x s]; [reflexivity|].
  rewrite N.eqb_sym. destruct (a =? x)%N; [|reflexivity].
  rewrite IH. cbn [andb length drop]. by rewrite Nat.add_succ_comm.
Qed.

Lemma re_match_word (w s : str) :
  re_match (re_word w) s =
  if startswith w s then Some (length w, []) else None.
Proof.
  unfold re_match. rewrite rmatch_word. by rewrite Nat.add_0_r.
Qed.

Lemma startswith_length (w s : str) :
  startswith w s = true → length w <= length s.
Proof.
  revert s. induction w as [|a w IH]; intros s; [cbn; lia|].
  destruct s as [|x s]; [discriminate|]. cbn [startswith length].
  intros [_ H]%andb_true_iff. apply IH in H. lia.
Qed.

Lemma re_sub_word_plain_app (w n A t : str) :
  w ≠ [] → forallb is_letter w = true →
  forallb (fun c => negb (is_letter c)) A = true →
  re_sub_from (re_word w) n 0 (A ++ t) = A ++ re_sub_from (re_word w) n 0 t.
Proof.
  intros Hne Hw. destruct w as [|a w]; [done|].
  cbn [forallb] in Hw. apply andb_true_iff in Hw as [Ha _].
  induction A as [|b A IH]; [reflexivity|]. cbn [forallb].
  intros [Hb HA]%andb_true_iff. apply negb_true_iff in Hb.
  cbn [app re_sub_from]. rewrite re_match_word.
  rewrite startswith_head_ne by (by apply letter_ne). by rewrite (IH HA).
Qed.

Lemma re_sub_word_app_plain (w n x B : str) (skip : nat) :
  w ≠ [] → forallb is_letter w = true →
  forallb (fun c => negb (is_letter c)) B = true → skip <= length x →
  re_sub_from (re_word w) n skip (x ++ B)
  = re_sub_from (re_word w) n skip x ++ B.
Proof.
  intros Hne Hw HB. revert skip. induction x as [|c x IH]; intros skip Hs.
  - cbn [length] in Hs. assert (skip = 0) as -> by lia. cbn [app].
    rewrite <- (app_nil_r B) at 1. rewrite re_sub_word_plain_app by done.
    cbn [re_sub_from]. by rewrite app_nil_r.
  - cbn [app re_sub_from]. destruct skip as [|k].
    + rewrite !re_match_word.
      change (c :: x ++ B) with ((c :: x) ++ B).
      rewrite startswith_app_plain by done.
      destruct (startswith w (c :: x)) eqn:E.
      * apply startswith_length in E. cbn [length] in E.
        destruct (length w) as [|m] eqn:El; [by destruct w|].
        rewrite IH by lia. by rewrite app_assoc.
      * by rewrite IH by lia.
    + cbn [length] in Hs. apply IH. lia.
Qed.

Lemma month_step_mid (w n A X B : str) :
  w ≠ [] → forallb is_letter w = true →
  forallb (fun c => negb (is_letter c)) A = true →
  forallb (fun c => negb (is_letter c)) B = true →
  (if py_in w (A ++ X ++ B) then re_sub (re_word w) n (A ++ X ++ B)
   else A ++ X ++ B)
  = A ++ (if py_in w X then re_sub (re_word w) n X else X) ++ B.
Proof.
  intros Hne Hw HA HB.
  rewrite py_in_plain_app, py_in_app_plain by done.
  destruct (py_in w X); [|reflexivity]. unfold re_sub.
  rewrite re_sub_word_plain_app by done.
  by rewrite re_sub_word_app_plain by (done || lia).
Qed.

Lemma month_map_letters :
  Forall (fun wn : str * str => wn.1 ≠ [] ∧ forallb is_letter wn.1 = true)
    month_map.
Proof. repeat constructor; done. Qed.

(** The month substitution works inside a run of letters: what surrounds
    it, if it holds no letter, stays as it is. *)
Lemma sub_months_mid (A X B : str) :
  forallb (fun c => negb (is_letter c)) A = true →
  forallb (fun c => negb (is_letter c)) B = true →
  sub_months (A ++ X ++ B) = A ++ sub_months X ++ B.
Proof.
  intros HA HB. unfold sub_months. revert X.
  induction month_map_letters as [|[w n] l [Hne Hw] _ IH]; intros X;
    [reflexivity|].
  cbn [fold_left fst snd] in *. rewrite month_step_mid by done. apply IH.
Qed.

Lemma dob_plain_cases (c : N) :
  dob_plain c = true →
  is_ascii_digit c = true ∨ is_space c = true ∨ c = ch "/" ∨ c = ch "-".
Proof.
  unfold dob_plain. rewrite !orb_true_iff, !N.eqb_eq. tauto.
Qed.

Lemma dob_plain_stable (c : N) :
  dob_plain c = true →
  lower_cp c = [c]
  ∧ ((c =? 0x433) || (c =? 0x433) || (c =? ch "."))%N = false
  ∧ dob_allowed c = true ∧ is_letter c = false.
Proof.
  intros [H|[H|[->| ->]]]%dob_plain_cases; [| |done..].
  - digit_cases H; done.
  - apply space_cases in H.
    repeat (destruct H as [-> | H]; [done|]). by subst c.
Qed.

Lemma py_lower_plain (s : str) :
  forallb dob_plain s = true → py_lower s = s.
Proof.
  unfold py_lower. induction s as [|c s IH]; [reflexivity|]. cbn [forallb].
  intros [Hc Hs]%andb_true_iff. cbn [flat_map].
  destruct (dob_plain_stable c Hc) as (-> & _). by rewrite (IH Hs).
Qed.

Lemma dob_kept_app (s t : str) : dob_kept (s ++ t) = dob_kept s ++ dob_kept t.
Proof.
  unfold dob_kept, py_lower, re_year_marks, re_not_allowed.
  rewrite !re_sub_class_delete.
  by rewrite flat_map_app, !List.filter_app.
Qed.

Lemma dob_kept_plain (s : str) : forallb dob_plain s = true → dob_kept s = s.
Proof.
  intros Hs. unfold dob_kept, re_year_marks, re_not_allowed.
  rewrite py_lower_plain by done. rewrite !re_sub_class_delete.
  assert (Forall (fun c => dob_plain c = true) s) as HF.
  { apply Forall_forall. intros c Hc. eapply forallb_forall in Hs; [done|].
    by apply list_elem_of_In. }
  rewrite (filter_all _ s).
  2:{ eapply Forall_impl; [exact HF|]. intros c Hc. cbv beta.
      by destruct (dob_plain_stable c Hc) as (_ & -> & _). }
  apply filter_all. eapply Forall_impl; [exact HF|]. intros c Hc. cbv beta.
  by destruct (dob_plain_stable c Hc) as (_ & _ & -> & _).
Qed.

Lemma plain_no_letter (s : str) :
  forallb dob_plain s = true →
  forallb (fun c => negb (is_letter c)) s = true.
Proof.
  apply forallb_weaken. intros c Hc.
  by destruct (dob_plain_stable c Hc) as (_ & _ & _ & ->).
Qed.

Lemma dob_clean_kept (s : str) :
  dob_clean (PyStr s) = sub_months (dob_kept s).
Proof. reflexivity. Qed.

(** The cleaning of a text made of a plain part, any part, a plain part
    and a part that the deletions remove altogether. *)
Lemma dob_clean_mid (A X B J : str) :
  forallb dob_plain A = true → forallb dob_plain B = true →
  dob_kept J = [] →
  dob_clean (PyStr (A ++ X ++ B ++ J)) = A ++ sub_months (dob_kept X) ++ B.
Proof.
  intros HA HB HJ. rewrite dob_clean_kept.
  rewrite !dob_kept_app, HJ, app_nil_r.
  rewrite (dob_kept_plain A), (dob_kept_plain B) by done.
  by apply sub_months_mid; apply plain_no_letter.
Qed.

Lemma dob_clean_word (A X B : str) :
  forallb dob_plain A = true → forallb dob_plain B = true →
  dob_clean (PyStr (A ++ X ++ B)) = A ++ sub_months (dob_kept X) ++ B.
Proof.
  intros HA HB.
  pose proof (dob_clean_mid A X B [] HA HB eq_refl) as E.
  by rewrite app_nil_r in E.
Qed.

Lemma sub_months_kept_nil : sub_months (dob_kept []) = [].
Proof. reflexivity. Qed.

Lemma dob_clean_plain (s : str) :
  forallb dob_plain s = true → dob_clean (PyStr s) = s.
Proof.
  intros Hs.
  pose proof (dob_clean_word s [] [] Hs eq_refl) as E.
  rewrite sub_months_kept_nil in E. by rewrite !app_nil_r in E.
Qed.

(* ===================================================================== *)
(** * Dates that are accepted, dates that are refused *)
(* ===================================================================== *)

Lemma iso_date_nonempty (y m d : N) : iso_date y m d ≠ [].
Proof.
  intros E. apply (f_equal length) in E.
  pose proof (iso_date_shape y m d) as Hs.
  destruct (iso_date y m d) as [|? ?]; [discriminate Hs | discriminate E].
Qed.


Lemma num_text_digits (n : N) (t : str) :
  num_text n t → Forall (fun c => is_ascii_digit c = true) t.
Proof. intros [-> | [_ ->]]; apply zero_pad_digits. Qed.

Lemma num_text_int (n : N) (t : str) :
  (n < 100)%N → num_text n t → py_int t = Ok n.
Proof.
  intros Hn [-> | [H10 ->]]; apply py_int_zero_pad; done.
Qed.

Lemma num_text_day (d : N) (t : str) :
  (1 <= d <= 31)%N → num_text d t → is_day_text t = true.
Proof.
  intros Hd Ht.
  assert (d = 1 ∨ d = 2 ∨ d = 3 ∨ d = 4 ∨ d = 5 ∨ d = 6 ∨ d = 7 ∨ d = 8
          ∨ d = 9 ∨ d = 10 ∨ d = 11 ∨ d = 12 ∨ d = 13 ∨ d = 14 ∨ d = 15
          ∨ d = 16 ∨ d = 17 ∨ d = 18 ∨ d = 19 ∨ d = 20 ∨ d = 21 ∨ d = 22
          ∨ d = 23 ∨ d = 24 ∨ d = 25 ∨ d = 26 ∨ d = 27 ∨ d = 28 ∨ d = 29
          ∨ d = 30 ∨ d = 31)%N as Hc by lia.
  clear Hd.
  repeat (destruct Hc as [-> | Hc];
          [destruct Ht as [-> | [H10 ->]]; [reflexivity | (reflexivity || by exfalso)]|]).
  subst d. destruct Ht as [-> | [H10 ->]]; [reflexivity | done].
Qed.

Lemma num_text_month (m : N) (t : str) :
  (1 <= m <= 12)%N → num_text m t → is_month_text t = true.
Proof.
  intros Hm Ht.
  assert (m = 1 ∨ m = 2 ∨ m = 3 ∨ m = 4 ∨ m = 5 ∨ m = 6 ∨ m = 7 ∨ m = 8
          ∨ m = 9 ∨ m = 10 ∨ m = 11 ∨ m = 12)%N as Hc by lia.
  clear Hm.
  repeat (destruct Hc as [-> | Hc];
          [destruct Ht as [-> | [H10 ->]]; [reflexivity | (reflexivity || by exfalso)]|]).
  subst m. destruct Ht as [-> | [H10 ->]]; [reflexivity | done].
Qed.

Lemma year_text_pad (y : N) : is_year_text (zero_pad 4 y) = true.
Proof.
  unfold is_year_text. rewrite zero_pad_length. cbn [Nat.eqb andb].
  induction (zero_pad_digits 4 y) as [|c l Hc _ IH]; [reflexivity|].
  cbn [forallb]. by rewrite (digit_is_decimal c Hc), IH.
Qed.

Lemma digits_plain (t : str) :
  Forall (fun c => is_ascii_digit c = true) t → forallb dob_plain t = true.
Proof.
  induction 1 as [|c l Hc _ IH]; [reflexivity|]. cbn [forallb].
  unfold dob_plain at 1. by rewrite Hc, IH.
Qed.

Lemma blank_plain (ws : str) : is_blank ws = true → forallb dob_plain ws = true.
Proof.
  unfold is_blank. intros [_ H]%andb_true_iff. revert H.
  apply forallb_weaken. intros c Hc. unfold dob_plain. rewrite Hc.
  by rewrite orb_true_r.
Qed.

Lemma laid_out_plain (l : layout) (dt mt yt s : str) :
  laid_out l dt mt yt s →
  forallb dob_plain dt = true → forallb dob_plain mt = true →
  forallb dob_plain yt = true → forallb dob_plain s = true.
Proof.
  intros Hl Hdt Hmt Hyt. destruct l; cbn [laid_out] in Hl.
  - subst s. rewrite forallb_app. cbn [forallb]. rewrite forallb_app.
    cbn [forallb]. by rewrite Hdt, Hmt, Hyt.
  - subst s. rewrite forallb_app. cbn [forallb]. rewrite forallb_app.
    cbn [forallb]. by rewrite Hdt, Hmt, Hyt.
  - destruct Hl as (ws1 & ws2 & Hws1%blank_plain & Hws2%blank_plain & ->).
    rewrite !forallb_app. by rewrite Hdt, Hmt, Hyt, Hws1, Hws2.
Qed.

Lemma date_of_numbers (y m d : N) (dt mt : str) :
  (y < 10000)%N → (m < 100)%N → (d < 100)%N →
  num_text d dt → num_text m mt →
  iso_result (date_of_texts (zero_pad 4 y) mt dt)
  = Ok (if valid_date y m d then iso_date y m d else []).
Proof.
  intros Hy Hm Hd Hdt Hmt. unfold date_of_texts.
  rewrite py_int_zero_pad by done.
  rewrite (num_text_int m mt), (num_text_int d dt) by done.
  cbn [mbind res_bind]. unfold mk_datetime.
  destruct (valid_date y m d); [|reflexivity].
  cbn [iso_result]. by rewrite strftime_iso.
Qed.



Lemma is_sep_cases (c : N) :
  c = ch "/" ∨ c = ch "-" ∨ is_space c = true →
  dob_plain c = true ∧ is_ascii_digit c = false.
Proof.
  intros [->|[->|H]]; [done..|]. unfold dob_plain. rewrite H.
  split; [by rewrite orb_true_r|].
  destruct (is_ascii_digit c) eqn:E; [|reflexivity].
  apply digit_not_space in E. congruence.
Qed.

Lemma lower_cp_sep (x c : N) :
  c ∈ lower_cp x → c = ch "/" ∨ c = ch "-" ∨ is_space c = true → c = x.
Proof.
  intros Hin Hc. unfold lower_cp in Hin.
  assert (c = 47 ∨ c = 45 ∨ is_space c = true)%N as Hc' by exact Hc.
  assert (c ≠ 0x69 ∧ c ≠ 0x307 ∧ c ≠ 0x6B
          ∧ ¬ (0x61 <= c <= 0x7A) ∧ ¬ (0x430 <= c <= 0x45F))%N as Hn.
  { destruct Hc' as [->|[->|E]]; [lia..|]. apply space_cases in E. lia. }
  clear Hc Hc'. destruct Hn as (N1 & N2 & N3 & N4 & N5).
  repeat case_match;
    repeat match goal with
    | H : (_ && _) = true |- _ => apply andb_true_iff in H as [? ?]
    | H : (_ <=? _)%N = true |- _ => apply N.leb_le in H
    end.
  - apply list_elem_of_singleton in Hin. lia.
  - apply list_elem_of_singleton in Hin. lia.
  - apply list_elem_of_singleton in Hin. lia.
  - apply list_elem_of_In in Hin. cbn [In] in Hin.
    destruct Hin as [<-|[<-|[]]]; done.
  - apply list_elem_of_singleton in Hin. done.
  - by apply list_elem_of_singleton in Hin.
Qed.

Lemma month_map_digits :
  Forall (fun wn : str * str =>
            Forall (fun c => is_ascii_digit c = true) wn.2) month_map.
Proof. repeat constructor. Qed.

Lemma sub_months_elem (s : str) (c : N) :
  c ∈ sub_months s → c ∈ s ∨ is_ascii_digit c = true.
Proof.
  unfold sub_months. revert s.
  induction month_map_digits as [|[w n] l Hn _ IH]; intros s; [by left|].
  cbn [fold_left fst snd] in *. intros [H|H]%IH; [|by right].
  destruct (py_in w s); [|by left].
  apply re_sub_from_elem in H as [H|H]; [by left|]. right.
  rewrite Forall_forall in Hn. by apply Hn.
Qed.

(** A separator in the cleaned text comes from the input. *)
Lemma dob_clean_sep (s : str) (c : N) :
  c ∈ dob_clean (PyStr s) →
  c = ch "/" ∨ c = ch "-" ∨ is_space c = true → c ∈ s.
Proof.
  intros Hin Hc. destruct (is_sep_cases c Hc) as [_ Hd].
  rewrite dob_clean_kept in Hin.
  apply sub_months_elem in Hin as [Hin|Hin]; [|congruence].
  unfold dob_kept, re_year_marks, re_not_allowed in Hin.
  rewrite !re_sub_class_delete in Hin.
  apply filter_elem in Hin as [Hin _]. apply filter_elem in Hin as [Hin _].
  unfold py_lower in Hin. apply list_elem_of_In, in_flat_map in Hin.
  destruct Hin as (x & Hx & Hin). apply list_elem_of_In in Hx, Hin.
  by rewrite (lower_cp_sep x c Hin Hc).
Qed.

Lemma dob_text_separator (l : layout) (dt mt yt s : str) :
  dob_text l dt mt yt s →
  ∃ c, c ∈ s ∧ (c = ch "/" ∨ c = ch "-" ∨ is_space c = true).
Proof.
  intros (Hl & _). destruct l; cbn [laid_out] in Hl.
  - exists (ch "/"). split; [|by left]. subst s. apply elem_of_app. right. left.
  - exists (ch "-"). split; [|right; by left]. subst s.
    apply elem_of_app. right. left.
  - destruct Hl as (ws1 & ws2 & (c & ws & -> & Hc)%blank_head & _ & ->).
    exists c. split; [|by right; right].
    apply elem_of_app. right. left.
Qed.

Lemma normalize_dob_empty (v : pyval) :
  (∀ r, normalize_dob v = Ok r → r ≠ [] → False) → normalize_dob v = Ok [].
Proof.
  intros H. destruct (normalize_dob_Ok v) as [r E]. rewrite E.
  destruct r as [|c r]; [reflexivity|]. by destruct (H _ E).
Qed.

(** X11.  No separator, no date.  A text without a slash, a hyphen or a
    white space character is never understood as a date: every date
    written with full stops (the form of the placeholder, "01.01.1990"),
    or with no separator at all, gives the empty sentinel. *)
Theorem normalize_dob_needs_separator (s : str) :
  (∀ c, c ∈ s → c ≠ ch "/" ∧ c ≠ ch "-" ∧ is_space c = false) →
  normalize_dob (PyStr s) = Ok [].
Proof.
  intros Hs. apply normalize_dob_empty. intros r E Hr.
  destruct (normalize_dob_text _ r E Hr)
    as (l & dt & mt & yt & y & m & d & H & _).
  destruct (dob_text_separator _ _ _ _ _ H) as (c & Hin & Hc).
  apply dob_clean_sep in Hin; [|exact Hc].
  destruct (Hs c Hin) as (H1 & H2 & H3).
  destruct Hc as [?|[?|?]]; congruence.
Qed.

Lemma normalize_dob_needs_separator_witness :
  normalize_dob (PyStr (u "01.01.1990")) = Ok [].
Proof.
  apply normalize_dob_needs_separator. intros c Hc.
  apply list_elem_of_In in Hc. cbn in Hc.
  repeat (destruct Hc as [<- | Hc]; [done|]). destruct Hc.
Defined.

Lemma day_text_last (dt : str) :
  is_day_text dt = true → ∃ t c, dt = t ++ [c] ∧ is_decimal c = true.
Proof.
  destruct dt as [|a [|b [|]]]; try discriminate; cbn [is_day_text].
  - intros H. exists [], a. split; [done|].
    by apply in_range_digit in H.
  - intros H. exists [a], b. split; [done|].
    repeat (apply orb_true_iff in H as [H|H]);
      apply andb_true_iff in H as [_ H]; try done;
      by apply in_range_digit in H.
Qed.

Lemma year_text_last (yt : str) :
  is_year_text yt = true → ∃ t c, yt = t ++ [c] ∧ is_decimal c = true.
Proof.
  unfold is_year_text. intros [Hl Hd]%andb_true_iff.
  destruct yt as [|a [|b [|c [|e [|]]]]]; try discriminate.
  exists [a; b; c], e. split; [done|]. cbn [forallb] in Hd.
  do 3 (apply andb_true_iff in Hd as [_ Hd]).
  by apply andb_true_iff in Hd as [Hd _].
Qed.

Lemma dob_text_last (l : layout) (dt mt yt s : str) :
  dob_text l dt mt yt s → ∃ t c, s = t ++ [c] ∧ is_decimal c = true.
Proof.
  intros (Hl & (t1 & c1 & -> & H1)%day_text_last & _
          & (t2 & c2 & -> & H2)%year_text_last).
  destruct l; cbn [laid_out] in Hl.
  - subst s. exists ((t1 ++ [c1]) ++ ch "/" :: mt ++ ch "/" :: t2), c2.
    split; [|done].
    repeat (rewrite <- app_assoc || rewrite <- app_comm_cons). reflexivity.
  - subst s. exists ((t2 ++ [c2]) ++ ch "-" :: mt ++ ch "-" :: t1), c1.
    split; [|done].
    repeat (rewrite <- app_assoc || rewrite <- app_comm_cons). reflexivity.
  - destruct Hl as (ws1 & ws2 & _ & _ & ->).
    exists ((t1 ++ [c1]) ++ ws1 ++ mt ++ ws2 ++ t2), c2.
    split; [|done].
    repeat (rewrite <- app_assoc || rewrite <- app_comm_cons). reflexivity.
Qed.

Lemma sub_months_snoc (x : str) (w : N) :
  is_letter w = false → sub_months (x ++ [w]) = sub_months x ++ [w].
Proof.
  intros Hw.
  assert (forallb (fun c => negb (is_letter c)) [w] = true) as H
    by (cbn [forallb]; by rewrite Hw).
  pose proof (sub_months_mid [] x [w] eq_refl H) as E.
  by rewrite !app_nil_l in E.
Qed.

Lemma dob_clean_snoc (s junk : str) (w : N) :
  is_space w = true → dob_kept junk = [] →
  dob_clean (PyStr (s ++ w :: junk)) = dob_clean (PyStr s) ++ [w].
Proof.
  intros Hw Hj.
  assert (dob_plain w = true) as Hp
    by (unfold dob_plain; rewrite Hw; by rewrite orb_true_r).
  rewrite !dob_clean_kept.
  replace (s ++ w :: junk) with (s ++ [w] ++ junk) by reflexivity.
  rewrite !dob_kept_app, Hj, app_nil_r.
  rewrite (dob_kept_plain [w]) by (cbn [forallb]; by rewrite Hp).
  apply sub_months_snoc. by destruct (dob_plain_stable w Hp) as (_ & _ & _ & ->).
Qed.

(** X12.  Nothing may follow the date.  An input that ends in a white
    space character, or in a white space character followed by characters
    that the cleaning deletes (the year mark " г." of the example
    records), is never understood: the result is the empty sentinel,
    whatever precedes. *)
Theorem normalize_dob_trailing (s junk : str) (w : N) :
  is_space w = true → dob_kept junk = [] →
  normalize_dob (PyStr (s ++ w :: junk)) = Ok [].
Proof.
  intros Hw Hj. apply normalize_dob_empty. intros r E Hr.
  destruct (normalize_dob_text _ r E Hr)
    as (l & dt & mt & yt & y & m & d & H & _).
  rewrite (dob_clean_snoc s junk w Hw Hj) in H.
  destruct (dob_text_last _ _ _ _ _ H) as (t & c & Et & Hc).
  apply app_inj_tail in Et as [_ <-].
  apply decimal_not_space in Hc. congruence.
Qed.

Lemma normalize_dob_trailing_witness :
  normalize_dob (PyStr (u "1 янв 1990 г.")) = Ok [].
Proof.
  apply (normalize_dob_trailing (u "1 янв 1990") (u "г.") (ch " "));
    reflexivity.
Defined.

(* ===================================================================== *)
(** * The month words *)
(* ===================================================================== *)

Lemma sub_months_fold (s : str) : sub_months s = fold_left month_step month_map s.
Proof. reflexivity. Qed.

Lemma fold_months_elem (l : list (str * str)) (s : str) (c : N) :
  Forall (fun wn : str * str =>
            Forall (fun c => is_ascii_digit c = true) wn.2) l →
  c ∈ fold_left month_step l s → c ∈ s ∨ is_ascii_digit c = true.
Proof.
  intros Hl. revert s.
  induction Hl as [|[w n] l Hn _ IH]; intros s; [by left|].
  cbn [fold_left]. intros [H|H]%IH; [|by right].
  unfold month_step in H. cbn [fst snd] in H.
  destruct (py_in w s); [|by left].
  apply re_sub_from_elem in H as [H|H]; [by left|]. right.
  rewrite Forall_forall in Hn. by apply Hn.
Qed.

Lemma startswith_elem (w s : str) (c : N) :
  startswith w s = true → c ∈ w → c ∈ s.
Proof.
  revert s. induction w as [|a w IH]; intros s Hs Hc.
  - by apply elem_of_nil in Hc.
  - destruct s as [|x s]; [discriminate|]. cbn [startswith] in Hs.
    apply andb_true_iff in Hs as [Ha Hs]. apply N.eqb_eq in Ha as ->.
    apply elem_of_cons in Hc as [->|Hc]; [left | right; by apply IH].
Qed.

Lemma py_in_elem (w s : str) (c : N) : py_in w s = true → c ∈ w → c ∈ s.
Proof.
  intros Hin Hc. induction s as [|x s IH].
  - cbn [py_in] in Hin. rewrite orb_false_r in Hin.
    by apply (startswith_elem w).
  - cbn [py_in] in Hin. apply orb_true_iff in Hin as [H|H].
    + by apply (startswith_elem w).
    + right. by apply IH.
Qed.

Lemma dob_kept_no_mark (s : str) : 0x433%N ∉ dob_kept s.
Proof.
  unfold dob_kept, re_year_marks, re_not_allowed.
  rewrite !re_sub_class_delete.
  intros [[_ H]%filter_elem _]%filter_elem. discriminate.
Qed.

Lemma dob_clean_fold (v : pyval) :
  dob_clean v = fold_left month_step month_map (dob_kept (py_str v)).
Proof. unfold dob_clean, sub_months, dob_kept. reflexivity. Qed.

Lemma fold_left_step {A B} (f : A → B → A) (x : B) (l : list B) (a : A) :
  fold_left f (x :: l) a = fold_left f l (f a x).
Proof. reflexivity. Qed.

Lemma fold_months_split (s : str) :
  fold_left month_step month_map s
  = fold_left month_step (drop 8 month_map)
      (month_step (fold_left month_step (take 7 month_map) s)
         (u "авг", u "08")).
Proof.
  rewrite <- (take_drop_middle month_map 7 (u "авг", u "08") eq_refl) at 1.
  rewrite fold_left_app.
  apply (fold_left_step month_step (u "авг", u "08")).
Qed.

Lemma months_without_august :
  List.filter (fun wn => negb (str_eqb wn.1 (u "авг"))) month_map
  = take 7 month_map ++ drop 8 month_map.
Proof. reflexivity. Qed.

(** X14.  The entry 'авг' of [month_map] is dead code.  The letter г is
    deleted from every input before the loop over the month words runs,
    and no substitution brings it back, so the word for August is never
    found: the cleaned text is the one that the loop gives without that
    entry. *)
Theorem august_entry_dead (v : pyval) :
  dob_clean v =
  fold_left month_step
    (List.filter (fun wn => negb (str_eqb wn.1 (u "авг"))) month_map)
    (dob_kept (py_str v)).
Proof.
  rewrite dob_clean_fold, months_without_august, fold_months_split.
  pose proof (dob_kept_no_mark (py_str v)) as H0.
  set (s0 := dob_kept (py_str v)) in *. clearbody s0.
  rewrite fold_left_app. f_equal.
  set (s7 := fold_left month_step (take 7 month_map) s0).
  assert (0x433%N ∉ s7) as H7.
  { intros [H|H]%fold_months_elem; [done | discriminate |].
    repeat constructor. }
  unfold month_step. cbn [fst snd].
  destruct (py_in (u "авг") s7) eqn:E; [|reflexivity].
  destruct H7. apply (py_in_elem _ _ _ E).
  right. right. left.
Qed.

Lemma dob_kept_lower (X w : str) :
  py_lower X = w →
  dob_kept X
  = List.filter dob_allowed
      (List.filter (fun c => negb ((c =? 0x433) || (c =? 0x433)
                                   || (c =? ch "."))%N) w).
Proof.
  intros <-. unfold dob_kept, re_year_marks, re_not_allowed.
  rewrite !re_sub_class_delete. by rewrite filter_negb_negb.
Qed.



(* ===================================================================== *)
(** * Replacing a word: what can and what cannot appear *)
(* ===================================================================== *)

Lemma startswith_app_agree (x a Y : str) :
  startswith x (a ++ Y) = true → agree x a = true.
Proof.
  unfold agree. revert a. induction x as [|c x IH]; intros a; [done|].
  destruct a as [|d a]; [by rewrite orb_true_r|].
  cbn [app startswith]. intros [Hc H]%andb_true_iff.
  apply N.eqb_eq in Hc as <-. rewrite N.eqb_refl. cbn [andb]. by apply IH.
Qed.

Lemma py_in_app_no_clash (x r Y : str) :
  forallb (fun t => negb (agree x t)) (tails r) = true →
  py_in x (r ++ Y) = py_in x Y.
Proof.
  induction r as [|d r IH]; [done|]. cbn [tails forallb].
  intros [Hd Hr]%andb_true_iff. apply negb_true_iff in Hd.
  cbn [app py_in]. rewrite (IH Hr).
  destruct (startswith x (d :: r ++ Y)) eqn:E; [|reflexivity].
  apply (startswith_app_agree x (d :: r) Y) in E. congruence.
Qed.

Lemma startswith_replaced (y w r t : str) :
  forallb (fun y' => negb (agree y' r)) (tails y) = true →
  startswith y (replace_from w r 0 t) = true → startswith y t = true.
Proof.
  revert t. induction y as [|a y IH]; intros t; [done|].
  cbn [tails forallb]. intros [Ha Hy]%andb_true_iff.
  apply negb_true_iff in Ha.
  destruct t as [|b t]; [done|]. cbn [replace_from].
  destruct (startswith w (b :: t)).
  - intros E. apply startswith_app_agree in E. congruence.
  - cbn [startswith]. intros [-> E]%andb_true_iff. by rewrite (IH t Hy E).
Qed.

Lemma py_in_suffix (x t s : str) :
  t `suffix_of` s → startswith x t = true → py_in x s = true.
Proof.
  intros [l ->] Ht. induction l as [|c l IH].
  - destruct t; cbn [app py_in]; by rewrite Ht.
  - cbn [app py_in]. by rewrite IH, orb_true_r.
Qed.

(** An occurrence of [x] in the result of a replacement, when [x] cannot
    touch the replacement text, is an occurrence in the original text, at
    a place where the replaced word does not start. *)
Lemma py_in_replaced (x w r s : str) (skip : nat) :
  no_clash x r = true → x ≠ [] →
  py_in x (replace_from w r skip s) = true →
  ∃ t, t `suffix_of` s ∧ startswith x t = true ∧ startswith w t = false.
Proof.
  intros [H1 H2]%andb_true_iff Hx. revert skip.
  induction s as [|c s IH]; intros skip.
  - cbn [replace_from py_in]. by destruct x.
  - cbn [replace_from]. destruct skip as [|n].
    + destruct (startswith w (c :: s)) eqn:Ew.
      * rewrite (py_in_app_no_clash x r _ H1).
        intros (t & Ht & E)%IH. exists t. split; [by apply suffix_cons_r | done].
      * cbn [py_in]. intros [E|E]%orb_true_iff.
        -- exists (c :: s). split; [done|]. split; [|done].
           destruct x as [|a x]; [done|]. cbn [startswith] in E |- *.
           apply andb_true_iff in E as [-> E]. cbn [tl] in H2.
           by rewrite (startswith_replaced x w r s H2 E).
        -- apply IH in E as (t & Ht & E). exists t.
           split; [by apply suffix_cons_r | done].
    + intros (t & Ht & E)%IH. exists t. split; [by apply suffix_cons_r | done].
Qed.

Lemma replace_removes (w r s : str) :
  no_clash w r = true → w ≠ [] → py_in w (py_replace w r s) = false.
Proof.
  intros Hc Hw. destruct (py_in w (py_replace w r s)) eqn:E; [|reflexivity].
  apply py_in_replaced in E as (t & _ & E1 & E2); [congruence | done..].
Qed.

Lemma replace_brings_none (x w r s : str) :
  no_clash x r = true → x ≠ [] →
  py_in x s = false → py_in x (py_replace w r s) = false.
Proof.
  intros Hc Hx Hs. destruct (py_in x (py_replace w r s)) eqn:E; [|reflexivity].
  apply py_in_replaced in E as (t & Ht & E1 & _); [|done..].
  rewrite (py_in_suffix x t s Ht E1) in Hs. discriminate.
Qed.

Lemma Ok_inj {A} (a b : A) : Ok a = Ok b → a = b.
Proof. by intros [= ->]. Qed.

Lemma normalize_mnn_eq (v : pyval) :
  normalize_mnn v =
  Ok (if pd_isna v then []
      else fix_typos
             (re_sub re_spaces [ch " "] (py_lower (py_strip (py_str v))))).
Proof. unfold normalize_mnn, fix_typos. by destruct (pd_isna v). Qed.

Lemma typo_step_free (x w r s : str) :
  x ≠ [] → no_clash x r = true → (x = w ∨ py_in x s = false) →
  py_in x (typo_step s (w, r)) = false.
Proof.
  intros Hx Hc Hs. unfold typo_step. cbn [fst snd].
  destruct (py_in w s) eqn:E.
  - destruct Hs as [-> | Hs]; [by apply replace_removes|].
    by apply replace_brings_none.
  - destruct Hs as [-> | Hs]; done.
Qed.

Lemma fold_typo_free (l : list (str * str)) (xs : list str) (s : str) :
  (∀ x, x ∈ xs ∨ x ∈ map fst l →
        x ≠ [] ∧ ∀ wr, wr ∈ l → no_clash x wr.2 = true) →
  (∀ x, x ∈ xs → py_in x s = false) →
  ∀ x, x ∈ xs ∨ x ∈ map fst l → py_in x (fold_left typo_step l s) = false.
Proof.
  revert xs s. induction l as [|[w r] l IH]; intros xs s Hok Hs x Hx.
  - destruct Hx as [Hx|Hx]; [by apply Hs | by apply elem_of_nil in Hx].
  - cbn [fold_left]. apply (IH (w :: xs)).
    + intros y Hy. destruct (Hok y) as [Hy1 Hy2].
      { cbn [map fst]. rewrite !elem_of_cons in *. tauto. }
      split; [done|]. intros wr Hwr. apply Hy2. by right.
    + intros y Hy. destruct (Hok y) as [Hy1 Hy2].
      { cbn [map fst]. rewrite !elem_of_cons in *. tauto. }
      apply typo_step_free; [done | apply (Hy2 (w, r)); left|].
      apply elem_of_cons in Hy as [->|Hy]; [by left | right; by apply Hs].
    + cbn [map fst] in Hx. rewrite !elem_of_cons in *. tauto.
Qed.

Lemma typo_table_ok_spec (l : list (str * str)) :
  typo_table_ok l = true →
  ∀ x, x ∈ map fst l → x ≠ [] ∧ ∀ wr, wr ∈ l → no_clash x wr.2 = true.
Proof.
  unfold typo_table_ok. rewrite forallb_forall. intros H x Hx.
  apply list_elem_of_In, H, andb_true_iff in Hx as [H1 H2]. split.
  - intros ->. discriminate.
  - intros wr Hwr. rewrite forallb_forall in H2. apply H2.
    by apply list_elem_of_In.
Qed.

Lemma typo_fix_ok : typo_table_ok typo_fix = true.
Proof. vm_compute. reflexivity. Qed.

Lemma fix_typos_free (s : str) (wr : str * str) :
  wr ∈ typo_fix → py_in wr.1 (fix_typos s) = false.
Proof.
  intros Hwr. unfold fix_typos. apply (fold_typo_free typo_fix []).
  - intros x [Hx|Hx]; [by apply elem_of_nil in Hx|].
    by apply typo_table_ok_spec; [apply typo_fix_ok|].
  - intros x Hx. by apply elem_of_nil in Hx.
  - right. apply list_elem_of_fmap. by exists wr.
Qed.

(** X15.  The two misspellings are gone.  Whatever the input, the result
    of [normalize_mnn] contains neither 'парацитамол' nor 'ибупрафен': each
    replacement removes every occurrence of its word, and neither
    replacement can form the other word or its own anew. *)
Theorem normalize_mnn_typo_free (v : pyval) (r : str) :
  normalize_mnn v = Ok r →
  ∀ wr, wr ∈ typo_fix → py_in wr.1 r = false.
Proof.
  rewrite normalize_mnn_eq. intros <-%Ok_inj wr Hwr.
  destruct (pd_isna v); [|by apply fix_typos_free].
  apply list_elem_of_In in Hwr. unfold typo_fix in Hwr. cbn [In] in Hwr.
  destruct Hwr as [<-|[<-|[]]]; reflexivity.
Qed.

Lemma normalize_mnn_typo_free_witness :
  py_in (u "парацитамол", u "парацетамол").1 (u "парацетамол") = false.
Proof.
  apply (normalize_mnn_typo_free (PyStr (u "Парацитамол")));
    [vm_compute; reflexivity | left].
Defined.

(* ===================================================================== *)
(** * White space in a drug name *)
(* ===================================================================== *)

Lemma lstrip_length (t : str) : length (lstrip t) <= length t.
Proof.
  induction t as [|c t IH]; [done|]. cbn [lstrip].
  destruct (is_space c); cbn [length]; lia.
Qed.

Lemma drop_lstrip (t : str) :
  drop (length t - length (lstrip t)) t = lstrip t.
Proof.
  induction t as [|c t IH]; [done|]. cbn [lstrip].
  destruct (is_space c).
  - pose proof (lstrip_length t). cbn [length].
    replace (S (length t) - length (lstrip t))
      with (S (length t - length (lstrip t))) by lia.
    exact IH.
  - by rewrite Nat.sub_diag.
Qed.

(** The greedy run of white space takes all of it. *)
Lemma star_greedy (t : str) (pos : nat) (gs : groups) :
  star is_space t pos (fun _ pos' => Some (pos', gs))
  = Some (pos + (length t - length (lstrip t)), gs).
Proof.
  revert pos. induction t as [|c t IH]; intros pos.
  - cbn. by rewrite Nat.add_0_r.
  - cbn [star lstrip]. destruct (is_space c).
    + rewrite IH. pose proof (lstrip_length t). cbn [length].
      do 2 f_equal. lia.
    + by rewrite Nat.sub_diag, Nat.add_0_r.
Qed.

Lemma re_sub_from_skip (r : regex) (repl t : str) (n : nat) :
  n <= length t →
  re_sub_from r repl n t = re_sub_from r repl 0 (drop n t).
Proof.
  revert n. induction t as [|c t IH]; intros n Hn.
  - cbn [length] in Hn. by assert (n = 0) as -> by lia.
  - destruct n as [|n]; [done|]. cbn [re_sub_from drop length] in *.
    apply IH. lia.
Qed.

(** One step of [re.sub(r'\s+', repl, s)]. *)
Lemma re_sub_spaces_cons (repl : str) (c : N) (t : str) :
  re_sub_from re_spaces repl 0 (c :: t) =
  if is_space c then repl ++ re_sub_from re_spaces repl 0 (lstrip t)
  else c :: re_sub_from re_spaces repl 0 t.
Proof.
  cbn [re_sub_from]. unfold re_match, re_spaces. cbn [rmatch].
  destruct (is_space c); [|reflexivity].
  rewrite star_greedy. cbn [Nat.add].
  rewrite re_sub_from_skip by lia. by rewrite drop_lstrip.
Qed.

Lemma lstrip_head (t : str) :
  match lstrip t with
  | c :: _ => is_space c = false
  | [] => True
  end.
Proof.
  induction t as [|c t IH]; [done|]. cbn [lstrip].
  by destruct (is_space c) eqn:E.
Qed.

Lemma lstrip_same (t : str) :
  match t with c :: _ => is_space c = false | [] => True end →
  lstrip t = t.
Proof. destruct t as [|c t]; [done|]. cbn [lstrip]. by intros ->. Qed.

Lemma lstrip_last (t : str) (c : N) :
  last t = Some c → is_space c = false → last (lstrip t) = Some c.
Proof.
  intros Hl Hc. induction t as [|x t IH]; [done|]. cbn [lstrip].
  destruct (is_space x) eqn:Ex; [|done].
  destruct t as [|y t]; [cbn in Hl; congruence|]. by apply IH.
Qed.

(** After the substitution the white space is in normal form, when the
    text did not end in white space. *)
Lemma re_sub_spaces_single (n : nat) (s : str) (b : bool) :
  length s <= n →
  (∀ c, last s = Some c → is_space c = false) →
  (if b then match s with c :: _ => is_space c = false | [] => False end
   else True) →
  single_spaced b (re_sub_from re_spaces [ch " "] 0 s) = true.
Proof.
  revert s b. induction n as [|n IH]; intros s b Hn Hlast Hb.
  - destruct s; [|cbn in Hn; lia]. by destruct b.
  - destruct s as [|c t]; [by destruct b|].
    rewrite re_sub_spaces_cons. destruct (is_space c) eqn:Ec.
    + destruct b; [congruence|]. cbn [app single_spaced].
      change (is_space (ch " ")) with true. cbn [negb andb].
      rewrite N.eqb_refl. cbn [andb].
      destruct t as [|y t]; [by rewrite (Hlast c eq_refl) in Ec|].
      destruct (last (y :: t)) as [z|] eqn:Ez; [|by apply last_None in Ez].
      assert (is_space z = false) as Hz by (by apply Hlast).
      pose proof (lstrip_last _ _ Ez Hz) as El.
      pose proof (lstrip_head (y :: t)) as Hh.
      pose proof (lstrip_length (y :: t)) as Hlen.
      apply IH.
      * cbn [length] in *. lia.
      * intros c' Hc'. congruence.
      * destruct (lstrip (y :: t)); [discriminate El | exact Hh].
    + cbn [single_spaced]. rewrite Ec. apply IH.
      * cbn [length] in Hn. lia.
      * intros c' Hc'. apply Hlast. by destruct t.
      * exact I.
Qed.

Lemma single_spaced_word (w rest : str) (b : bool) :
  w ≠ [] → forallb (fun c => negb (is_space c)) w = true →
  single_spaced b (w ++ rest) = single_spaced false rest.
Proof.
  intros Hw Hs. revert b. induction w as [|c w IH]; intros b; [done|].
  cbn [forallb] in Hs. apply andb_true_iff in Hs as [Hc Hs].
  apply negb_true_iff in Hc. cbn [app single_spaced]. rewrite Hc.
  destruct w as [|d w]; [reflexivity|]. by apply IH.
Qed.

Lemma startswith_drop (w s : str) :
  startswith w s = true → s = w ++ drop (length w) s.
Proof.
  revert s. induction w as [|a w IH]; intros s; [done|].
  destruct s as [|x s]; [done|]. cbn [startswith].
  intros [->%N.eqb_eq H]%andb_true_iff. cbn [length drop app].
  f_equal. by apply IH.
Qed.

(** Replacing a word by a word leaves the white space where it is. *)
Lemma replace_single_spaced (w r s : str) (b : bool) (skip : nat) :
  w ≠ [] → forallb (fun c => negb (is_space c)) w = true →
  r ≠ [] → forallb (fun c => negb (is_space c)) r = true →
  single_spaced b (drop skip s) = true →
  single_spaced b (replace_from w r skip s) = true.
Proof.
  intros Hw Hws Hr Hrs. revert b skip.
  induction s as [|c t IH]; intros b skip; [by rewrite drop_nil|].
  cbn [replace_from]. destruct skip as [|n]; [|apply IH].
  rewrite drop_0. destruct (startswith w (c :: t)) eqn:E.
  - intros Hs. rewrite single_spaced_word by done. apply IH.
    rewrite (startswith_drop _ _ E) in Hs.
    rewrite single_spaced_word in Hs by done.
    destruct w as [|a w]; [done|]. cbn [length drop] in Hs.
    replace (length (a :: w) - 1) with (length w) by (cbn [length]; lia).
    exact Hs.
  - cbn [single_spaced]. destruct (is_space c).
    + intros [H1 H2]%andb_true_iff. rewrite H1. cbn [andb].
      apply (IH true 0). by rewrite drop_0.
    + intros Hs. apply (IH false 0). by rewrite drop_0.
Qed.

Lemma typo_step_single_spaced (s : str) (wr : str * str) (b : bool) :
  wr ∈ typo_fix → single_spaced b s = true →
  single_spaced b (typo_step s wr) = true.
Proof.
  intros Hwr Hs. unfold typo_step. destruct (py_in wr.1 s); [|done].
  apply list_elem_of_In in Hwr. unfold typo_fix in Hwr. cbn [In] in Hwr.
  destruct Hwr as [<-|[<-|[]]]; cbn [fst snd];
    (apply replace_single_spaced; [done | reflexivity | done | reflexivity|]);
    by rewrite drop_0.
Qed.

Lemma fix_typos_single_spaced (s : str) (b : bool) :
  single_spaced b s = true → single_spaced b (fix_typos s) = true.
Proof.
  unfold fix_typos.
  assert (∀ wr, wr ∈ typo_fix → wr ∈ typo_fix) as Hsub by done.
  revert s Hsub. generalize typo_fix at 1 3.
  induction l as [|wr l IH]; intros s Hsub Hs; [done|].
  cbn [fold_left]. apply IH.
  - intros wr' Hwr'. apply Hsub. by right.
  - apply typo_step_single_spaced; [apply Hsub; left | done].
Qed.

Lemma fix_typos_nil : fix_typos [] = [].
Proof. reflexivity. Qed.

(** [str.strip()] leaves no white space at either end. *)
Lemma lstrip_snoc (l : str) (a : N) :
  is_space a = false → lstrip (l ++ [a]) = lstrip l ++ [a].
Proof.
  intros Ha. induction l as [|c l IH]; cbn [app lstrip]; [by rewrite Ha|].
  by destruct (is_space c).
Qed.

Lemma py_strip_ends (s : str) :
  match py_strip s with
  | c :: _ => is_space c = false
  | [] => True
  end
  ∧ ∀ c, last (py_strip s) = Some c → is_space c = false.
Proof.
  unfold py_strip. pose proof (lstrip_head s) as Hh.
  destruct (lstrip s) as [|a x] eqn:Ex; [done|].
  cbn [rev]. rewrite lstrip_snoc by done. rewrite rev_app_distr.
  cbn [rev app]. split; [exact Hh|].
  pose proof (lstrip_head (rev x)) as Hr.
  intros c. destruct (lstrip (rev x)) as [|z y]; cbn [rev app].
  - by intros [= <-].
  - change (a :: rev y ++ [z]) with ((a :: rev y) ++ [z]).
    rewrite last_snoc. by intros [= <-].
Qed.

Lemma lower_cp_space (c : N) : is_space c = true → lower_cp c = [c].
Proof.
  intros H. apply space_cases in H.
  repeat (destruct H as [-> | H]; [reflexivity|]). by subst c.
Qed.

Lemma lower_cp_no_space (c x : N) :
  is_space c = false → x ∈ lower_cp c → is_space x = false.
Proof.
  intros Hc Hx. destruct (is_space x) eqn:Ex; [|reflexivity].
  assert (x = ch "/" ∨ x = ch "-" ∨ is_space x = true) as Hs by tauto.
  rewrite (lower_cp_sep c x Hx Hs) in Ex. congruence.
Qed.

Lemma lower_cp_nonempty (c : N) : lower_cp c ≠ [].
Proof. unfold lower_cp. by repeat case_match. Qed.

Lemma py_lower_ends (s : str) :
  match s with c :: _ => is_space c = false | [] => True end →
  (∀ c, last s = Some c → is_space c = false) →
  match py_lower s with c :: _ => is_space c = false | [] => True end
  ∧ ∀ c, last (py_lower s) = Some c → is_space c = false.
Proof.
  intros Hh Hl. split.
  - destruct s as [|a s]; [done|]. unfold py_lower. cbn [flat_map].
    pose proof (lower_cp_nonempty a) as Hne.
    pose proof (lower_cp_no_space a) as Hns.
    destruct (lower_cp a) as [|x l]; [done|]. cbn [app].
    apply Hns; [done | left].
  - intros c Hc. destruct (decide (s = [])) as [->|Hne]; [done|].
    destruct (exists_last Hne) as (s' & a & ->).
    rewrite last_snoc in Hl. specialize (Hl a eq_refl).
    unfold py_lower in Hc. rewrite flat_map_app in Hc. cbn [flat_map] in Hc.
    rewrite app_nil_r in Hc.
    pose proof (lower_cp_nonempty a) as Hn.
    destruct (exists_last Hn) as (l & z & El). rewrite El in Hc.
    rewrite app_assoc, last_snoc in Hc. injection Hc as <-.
    apply (lower_cp_no_space a); [done|]. rewrite El.
    apply elem_of_app. right. left.
Qed.

Lemma single_spaced_ends (s : str) (b : bool) :
  single_spaced b s = true →
  (if b then match s with c :: _ => is_space c = false | [] => False end
   else True)
  ∧ ∀ c, last s = Some c → is_space c = false.
Proof.
  revert b. induction s as [|a s IH]; intros b.
  - cbn. by destruct b.
  - cbn [single_spaced]. destruct (is_space a) eqn:Ea.
    + intros [[_ Hb]%andb_true_iff Hs]%andb_true_iff.
      apply negb_true_iff in Hb as ->. split; [done|].
      destruct (IH true Hs) as [Hh Hl]. destruct s as [|y s]; [done|].
      exact Hl.
    + intros Hs. split; [by destruct b|].
      destruct (IH false Hs) as [_ Hl].
      destruct s as [|y s]; [by intros c [= <-] | exact Hl].
Qed.

Lemma ws_normal_ends (r : str) :
  ws_normal r = true → r ≠ [] →
  match r with c :: _ => is_space c = false | [] => True end
  ∧ ∀ c, last r = Some c → is_space c = false.
Proof.
  unfold ws_normal. destruct r as [|a r]; [done|].
  cbn [length Nat.eqb orb]. intros Hn _.
  destruct (single_spaced_ends _ _ Hn) as [Hh Hl]. by split.
Qed.

Lemma normalize_mnn_ws_normal_aux (v : pyval) (r : str) :
  normalize_mnn v = Ok r → ws_normal r = true.
Proof.
  rewrite normalize_mnn_eq. intros <-%Ok_inj.
  destruct (pd_isna v); [reflexivity|].
  destruct (py_strip_ends (py_str v)) as [Hh Hl].
  destruct (py_lower_ends _ Hh Hl) as [Hh' Hl'].
  set (s := py_lower (py_strip (py_str v))) in *. clearbody s.
  unfold ws_normal. destruct s as [|a s].
  - reflexivity.
  - rewrite (fix_typos_single_spaced _ true); [apply orb_true_r|].
    by apply (re_sub_spaces_single (length (a :: s))).
Qed.

(** X16.  The normal form of the white space.  Whatever the input, the
    result of [normalize_mnn] is empty or starts and ends with a
    character that is not white space, and every white space character
    in it is the space U+0020 standing alone between two words. *)
Theorem normalize_mnn_ws_normal (v : pyval) (r : str) :
  normalize_mnn v = Ok r →
  ws_normal r = true
  ∧ (r ≠ [] →
     match r with c :: _ => is_space c = false | [] => True end
     ∧ ∀ c, last r = Some c → is_space c = false).
Proof.
  intros E. pose proof (normalize_mnn_ws_normal_aux v r E) as Hn.
  split; [exact Hn|]. by apply ws_normal_ends.
Qed.

Lemma normalize_mnn_ws_normal_witness :
  ws_normal (u "парацетамол форте") = true
  ∧ (u "парацетамол форте" ≠ [] →
     match u "парацетамол форте" with
     | c :: _ => is_space c = false
     | [] => True
     end
     ∧ ∀ c, last (u "парацетамол форте") = Some c → is_space c = false).
Proof.
  apply (normalize_mnn_ws_normal (PyStr (u "  Парацитамол    ФОРТЕ ")));
    vm_compute; reflexivity.
Defined.

(* ===================================================================== *)
(** * [normalize_mnn] on its own result *)
(* ===================================================================== *)

Lemma lower_cp_fixed (x : N) :
  ¬ (0x41 <= x <= 0x5A)%N → ¬ (0x410 <= x <= 0x42F)%N →
  ¬ (0x400 <= x <= 0x40F)%N → x ≠ 0x130%N → x ≠ 0x212A%N →
  lower_cp x = [x].
Proof.
  intros H1 H2 H3 H4 H5. unfold lower_cp.
  repeat case_match; try reflexivity; exfalso;
    repeat match goal with
    | H : (_ && _) = true |- _ => apply andb_true_iff in H as [? ?]
    | H : (_ <=? _)%N = true |- _ => apply N.leb_le in H
    | H : (_ =? _)%N = true |- _ => apply N.eqb_eq in H
    end; lia.
Qed.

Lemma lower_cp_idem (c x : N) : x ∈ lower_cp c → lower_cp x = [x].
Proof.
  unfold lower_cp at 1.
  repeat case_match;
    repeat match goal with
    | H : (_ && _) = true |- _ => apply andb_true_iff in H as [? ?]
    | H : (_ && _) = false |- _ => apply andb_false_iff in H
    | H : (_ <=? _)%N = true |- _ => apply N.leb_le in H
    | H : (_ =? _)%N = true |- _ => apply N.eqb_eq in H
    | H : (_ =? _)%N = false |- _ => apply N.eqb_neq in H
    end;
    rewrite ?N.leb_gt in *; intros Hx; apply list_elem_of_In in Hx;
    cbn [In] in Hx.
  - destruct Hx as [<-|[]]. apply lower_cp_fixed; lia.
  - destruct Hx as [<-|[]]. apply lower_cp_fixed; lia.
  - destruct Hx as [<-|[]]. apply lower_cp_fixed; lia.
  - destruct Hx as [<-|[<-|[]]]; reflexivity.
  - destruct Hx as [<-|[]]. reflexivity.
  - destruct Hx as [<-|[]]. apply lower_cp_fixed; lia.
Qed.

Lemma is_lowered_spec (s : str) :
  is_lowered s = true ↔ ∀ c, c ∈ s → lower_cp c = [c].
Proof.
  unfold is_lowered. rewrite forallb_forall. split.
  - intros H c Hc. apply list_elem_of_In, H in Hc.
    by apply bool_decide_eq_true in Hc.
  - intros H c Hc. apply bool_decide_eq_true, H. by apply list_elem_of_In.
Qed.

Lemma py_lower_lowered (s : str) : is_lowered s = true → py_lower s = s.
Proof.
  rewrite is_lowered_spec. unfold py_lower.
  induction s as [|c s IH]; intros H; [done|]. cbn [flat_map].
  rewrite (H c) by left. cbn [app]. f_equal. apply IH.
  intros x Hx. apply H. by right.
Qed.

Lemma py_lower_is_lowered (s : str) : is_lowered (py_lower s) = true.
Proof.
  apply is_lowered_spec. intros x Hx. unfold py_lower in Hx.
  apply list_elem_of_In, in_flat_map in Hx as (c & _ & Hx).
  apply (lower_cp_idem c). by apply list_elem_of_In.
Qed.

Lemma replace_from_elem (w r s : str) (skip : nat) (c : N) :
  c ∈ replace_from w r skip s → c ∈ s ∨ c ∈ r.
Proof.
  revert skip. induction s as [|x t IH]; intros skip; cbn [replace_from].
  - intros H. by apply elem_of_nil in H.
  - destruct skip as [|n].
    + destruct (startswith w (x :: t)).
      * intros [H|H]%elem_of_app; [by right|].
        destruct (IH _ H); [left; by right | by right].
      * intros [->|H]%elem_of_cons; [left; left|].
        destruct (IH _ H); [left; by right | by right].
    + intros H. destruct (IH _ H); [left; by right | by right].
Qed.

Lemma fix_typos_lowered (s : str) :
  is_lowered s = true → is_lowered (fix_typos s) = true.
Proof.
  unfold fix_typos.
  assert (Forall (fun wr : str * str => is_lowered wr.2 = true) typo_fix)
    as Hl by (by repeat constructor).
  revert s. induction Hl as [|[w r] l Hr _ IH]; intros s Hs; [done|].
  cbn [fold_left]. apply IH. unfold typo_step. cbn [fst snd] in *.
  destruct (py_in w s); [|done]. apply is_lowered_spec. intros c Hc.
  apply replace_from_elem in Hc as [Hc|Hc].
  - exact (proj1 (is_lowered_spec s) Hs c Hc).
  - exact (proj1 (is_lowered_spec r) Hr c Hc).
Qed.

Lemma re_sub_spaces_lowered (s : str) :
  is_lowered s = true →
  is_lowered (re_sub re_spaces [ch " "] s) = true.
Proof.
  intros Hs. apply is_lowered_spec. intros c Hc.
  apply re_sub_from_elem in Hc as [Hc|Hc].
  - by apply (is_lowered_spec s).
  - by apply list_elem_of_singleton in Hc as ->.
Qed.

Lemma py_strip_same (r : str) :
  match r with c :: _ => is_space c = false | [] => True end →
  (∀ c, last r = Some c → is_space c = false) →
  py_strip r = r.
Proof.
  intros Hh Hl. unfold py_strip. rewrite (lstrip_same r Hh).
  rewrite lstrip_same; [apply rev_involutive|].
  destruct (rev r) as [|z y] eqn:E; [done|]. apply Hl.
  apply (f_equal (@rev N)) in E. rewrite rev_involutive in E. subst r.
  cbn [rev]. apply last_snoc.
Qed.

Lemma re_sub_spaces_same (s : str) (b : bool) :
  single_spaced b s = true → re_sub_from re_spaces [ch " "] 0 s = s.
Proof.
  revert b. induction s as [|c t IH]; intros b; [done|].
  rewrite re_sub_spaces_cons. cbn [single_spaced].
  destruct (is_space c).
  - intros [[Hc _]%andb_true_iff Ht]%andb_true_iff.
    apply N.eqb_eq in Hc as ->.
    destruct (single_spaced_ends _ _ Ht) as [Hh _].
    rewrite lstrip_same by (by destruct t). cbn [app]. f_equal.
    by apply (IH true).
  - intros Ht. f_equal. by apply (IH false).
Qed.

Lemma fold_typo_same (l : list (str * str)) (s : str) :
  (∀ wr, wr ∈ l → py_in wr.1 s = false) → fold_left typo_step l s = s.
Proof.
  induction l as [|wr l IH]; intros H; [done|]. cbn [fold_left].
  unfold typo_step at 2. rewrite (H wr) by left. apply IH.
  intros wr' Hwr'. apply H. by right.
Qed.



(* ===================================================================== *)
(** * A drug name is its words *)
(* ===================================================================== *)

Lemma lstrip_blank_app (ws t : str) :
  forallb is_space ws = true → lstrip (ws ++ t) = lstrip t.
Proof.
  induction ws as [|c ws IH]; [done|]. cbn [forallb app lstrip].
  intros [-> H]%andb_true_iff. by apply IH.
Qed.

Lemma lstrip_app (l m : str) : lstrip l ≠ [] → lstrip (l ++ m) = lstrip l ++ m.
Proof.
  induction l as [|c l IH]; [done|]. cbn [app lstrip].
  destruct (is_space c); [exact IH | done].
Qed.

Lemma lstrip_split (s : str) :
  ∃ ws, forallb is_space ws = true ∧ s = ws ++ lstrip s.
Proof.
  induction s as [|c s (ws & Hws & E)]; [by exists []|]. cbn [lstrip].
  destruct (is_space c) eqn:Ec; [|by exists []].
  exists (c :: ws). cbn [forallb app]. rewrite Ec, Hws. split; [done|].
  by rewrite <- E.
Qed.

Lemma forallb_rev {A} (p : A → bool) (l : list A) :
  forallb p (rev l) = forallb p l.
Proof.
  induction l as [|x l IH]; [done|]. cbn [rev forallb].
  rewrite forallb_app, IH. cbn [forallb]. rewrite andb_true_r.
  apply andb_comm.
Qed.

(** [rstrip]: [strip] is [lstrip] followed by it. *)
Lemma rstrip_blank (x b : str) :
  forallb is_space b = true →
  rev (lstrip (rev (x ++ b))) = rev (lstrip (rev x)).
Proof.
  intros Hb. rewrite rev_app_distr, lstrip_blank_app; [done|].
  by rewrite forallb_rev.
Qed.

Lemma rstrip_app (x y : str) :
  forallb is_space y = false →
  rev (lstrip (rev (x ++ y))) = x ++ rev (lstrip (rev y)).
Proof.
  intros Hy. rewrite rev_app_distr, lstrip_app.
  - by rewrite rev_app_distr, rev_involutive.
  - intros E. apply lstrip_nil in E. rewrite forallb_rev in E. congruence.
Qed.

Lemma rstrip_word (w : str) :
  forallb (fun c => negb (is_space c)) w = true →
  rev (lstrip (rev w)) = w.
Proof.
  intros Hw. rewrite lstrip_same; [apply rev_involutive|].
  rewrite <- forallb_rev in Hw. destruct (rev w) as [|c l]; [done|].
  cbn [forallb] in Hw. apply andb_true_iff in Hw as [Hc _].
  by apply negb_true_iff in Hc.
Qed.

Lemma rstrip_head (a : N) (y : str) :
  is_space a = false →
  ∃ y', rev (lstrip (rev (a :: y))) = a :: y'.
Proof.
  intros Ha. change (a :: y) with ([a] ++ y).
  destruct (forallb is_space y) eqn:Ey.
  - rewrite rstrip_blank by done. exists []. apply rstrip_word.
    cbn [forallb]. by rewrite Ha.
  - rewrite rstrip_app by done. by eexists.
Qed.

(** The first word of a text that starts with one. *)
Lemma first_word (a : N) (s : str) :
  is_space a = false →
  ∃ w t, a :: s = (a :: w) ++ t
         ∧ forallb (fun c => negb (is_space c)) (a :: w) = true
         ∧ match t with c :: _ => is_space c = true | [] => True end.
Proof.
  intros Ha. revert a Ha. induction s as [|c s IH]; intros a Ha.
  - exists [], []. cbn [forallb]. by rewrite Ha.
  - destruct (is_space c) eqn:Ec.
    + exists [], (c :: s). cbn [forallb]. by rewrite Ha.
    + destruct (IH c Ec) as (w & t & E & Hw & Ht).
      exists (c :: w), t. split; [by rewrite E|]. split; [|done].
      cbn [forallb] in *. by rewrite Ha.
Qed.

Lemma split_word (cur w t : str) :
  forallb (fun c => negb (is_space c)) w = true →
  match t with c :: _ => is_space c = true | [] => True end →
  fuzz.split_from cur (w ++ t) =
  match rev cur ++ w with
  | [] => fuzz.split_from [] t
  | x => x :: fuzz.split_from [] t
  end.
Proof.
  intros Hw Ht. revert cur. induction w as [|a w IH]; intros cur.
  - rewrite app_nil_r. cbn [app]. destruct t as [|c t].
    + cbn [fuzz.split_from]. destruct cur as [|x cur]; [done|].
      by destruct (rev (x :: cur)) eqn:E;
        [apply (f_equal length) in E; rewrite length_rev in E|].
    + cbn [fuzz.split_from]. rewrite Ht.
      destruct cur as [|x cur]; [done|].
      by destruct (rev (x :: cur)) eqn:E;
        [apply (f_equal length) in E; rewrite length_rev in E|].
  - cbn [forallb] in Hw. apply andb_true_iff in Hw as [Ha Hw].
    apply negb_true_iff in Ha. cbn [app fuzz.split_from]. rewrite Ha.
    rewrite (IH Hw (a :: cur)). cbn [rev]. by rewrite <- app_assoc.
Qed.

Lemma split_first_word (a : N) (w t : str) :
  forallb (fun c => negb (is_space c)) (a :: w) = true →
  match t with c :: _ => is_space c = true | [] => True end →
  fuzz.split_from [] ((a :: w) ++ t) = (a :: w) :: fuzz.split_from [] t.
Proof. intros Hw Ht. by rewrite (split_word [] (a :: w) t Hw Ht). Qed.

Lemma split_blank (ws t : str) :
  forallb is_space ws = true →
  fuzz.split_from [] (ws ++ t) = fuzz.split_from [] t.
Proof.
  induction ws as [|c ws IH]; [done|]. cbn [forallb app fuzz.split_from].
  intros [-> H]%andb_true_iff. by apply IH.
Qed.

Lemma sub_spaces_word (w t : str) :
  forallb (fun c => negb (is_space c)) w = true →
  re_sub_from re_spaces [ch " "] 0 (w ++ t)
  = w ++ re_sub_from re_spaces [ch " "] 0 t.
Proof.
  induction w as [|a w IH]; [done|]. cbn [forallb app].
  intros [Ha Hw]%andb_true_iff. apply negb_true_iff in Ha.
  rewrite re_sub_spaces_cons, Ha. by rewrite IH.
Qed.

Lemma sub_spaces_blank (c : N) (ws t : str) :
  is_space c = true → forallb is_space ws = true →
  re_sub_from re_spaces [ch " "] 0 (c :: ws ++ t)
  = ch " " :: re_sub_from re_spaces [ch " "] 0 (lstrip t).
Proof.
  intros Hc Hws. rewrite re_sub_spaces_cons, Hc.
  by rewrite lstrip_blank_app.
Qed.

Lemma py_lower_app (s t : str) : py_lower (s ++ t) = py_lower s ++ py_lower t.
Proof. unfold py_lower. apply flat_map_app. Qed.

Lemma py_lower_blank (ws : str) :
  forallb is_space ws = true → py_lower ws = ws.
Proof.
  unfold py_lower. induction ws as [|c ws IH]; [done|]. cbn [forallb flat_map].
  intros [Hc H]%andb_true_iff. by rewrite (lower_cp_space c Hc), IH.
Qed.

Lemma py_lower_word (w : str) :
  forallb (fun c => negb (is_space c)) w = true →
  forallb (fun c => negb (is_space c)) (py_lower w) = true.
Proof.
  unfold py_lower. induction w as [|c w IH]; [done|]. cbn [forallb flat_map].
  intros [Hc H]%andb_true_iff. apply negb_true_iff in Hc.
  rewrite forallb_app, (IH H), andb_true_r. apply forallb_forall.
  intros x Hx. apply negb_true_iff, (lower_cp_no_space c); [done|].
  by apply list_elem_of_In.
Qed.

(** The text between the two substitutions, word by word. *)
Lemma squeeze_words (n : nat) (s : str) :
  length s <= n →
  match s with c :: _ => is_space c = false | [] => True end →
  re_sub_from re_spaces [ch " "] 0 (py_lower (rev (lstrip (rev s))))
  = fuzz.join (map py_lower (fuzz.split_from [] s)).
Proof.
  revert s. induction n as [|n IH]; intros s Hn Hs.
  - by destruct s; [|cbn in Hn; lia].
  - destruct s as [|a s]; [done|].
    destruct (first_word a s Hs) as (w & t & E & Hw & Ht). rewrite E.
    rewrite (split_first_word a w t Hw Ht). cbn [map].
    destruct (forallb is_space t) eqn:Eb.
    + rewrite rstrip_blank, rstrip_word by done.
      pose proof (split_blank t [] Eb) as Es. rewrite app_nil_r in Es.
      rewrite Es. cbn [fuzz.split_from map fuzz.join].
      pose proof (sub_spaces_word (py_lower (a :: w)) []
                    (py_lower_word _ Hw)) as Ef.
      rewrite app_nil_r in Ef. rewrite Ef. cbn [re_sub_from].
      by rewrite app_nil_r.
    + rewrite rstrip_app by done.
      destruct t as [|c t]; [discriminate|].
      destruct (lstrip_split (c :: t)) as (ws & Hws & Et).
      pose proof (lstrip_head (c :: t)) as Hy.
      destruct (lstrip (c :: t)) as [|y0 y] eqn:Ey.
      { rewrite app_nil_r in Et. rewrite Et, Hws in Eb. discriminate. }
      destruct ws as [|c' ws]; [cbn [app] in Et; congruence|].
      injection Et as <- Et. cbn [forallb] in Hws.
      apply andb_true_iff in Hws as [_ Hws].
      assert (forallb is_space (y0 :: y) = false) as Eny.
      { cbn [forallb]. by rewrite Hy. }
      rewrite Et. change (c :: ws ++ y0 :: y) with ((c :: ws) ++ y0 :: y).
      rewrite rstrip_app by done.
      rewrite (split_blank (c :: ws)) by (cbn [forallb]; by rewrite Ht, Hws).
      rewrite !py_lower_app.
      rewrite (py_lower_blank (c :: ws)) by (cbn [forallb]; by rewrite Ht, Hws).
      rewrite sub_spaces_word by (by apply py_lower_word).
      destruct (rstrip_head y0 y Hy) as (y' & Er).
      cbn [app]. rewrite sub_spaces_blank by done.
      rewrite lstrip_same.
      2:{ rewrite Er. unfold py_lower. cbn [flat_map].
          pose proof (lower_cp_nonempty y0) as Hne.
          pose proof (lower_cp_no_space y0) as Hns.
          destruct (lower_cp y0) as [|x l]; [done|]. cbn [app].
          apply Hns; [done | left]. }
      rewrite IH; [|apply (f_equal length) in E; rewrite Et in E;
                    rewrite !length_app in E; cbn [length] in *;
                    rewrite ?length_app in E; cbn [length] in E; lia | done].
      destruct (first_word y0 y Hy) as (w2 & t2 & E2 & Hw2 & Ht2).
      rewrite E2, (split_first_word y0 w2 t2 Hw2 Ht2).
      cbn [map fuzz.join]. reflexivity.
Qed.

Lemma split_lstrip (s : str) :
  fuzz.split_from [] (lstrip s) = fuzz.split_from [] s.
Proof.
  destruct (lstrip_split s) as (ws & Hws & E). rewrite E at 2.
  by rewrite split_blank.
Qed.


(* ===================================================================== *)
(** * A record without a drug name *)
(* ===================================================================== *)

Lemma fuzz_ratio_empty (s : str) : s ≠ [] → fuzz.ratio [] s = 0%Z.
Proof.
  intros Hs. unfold fuzz.ratio, fuzz.checked, str_eqb.
  by rewrite bool_decide_eq_false_2.
Qed.

Lemma fuzz_partial_ratio_empty (s : str) :
  s ≠ [] → fuzz.partial_ratio [] s = 0%Z.
Proof.
  intros Hs. unfold fuzz.partial_ratio, fuzz.checked, str_eqb.
  by rewrite bool_decide_eq_false_2.
Qed.

Lemma normalize_mnn_isna (v : pyval) :
  pd_isna v = true → normalize_mnn v = Ok [].
Proof. rewrite normalize_mnn_eq. by intros ->. Qed.

(** X19.  A missing drug name, with the scorers of fuzzywuzzy.  When the
    first record has no drug name (None or nan), dimensions 1 and 2 of
    the vector are 1.0 if the drug name of the second record is missing
    too, or normalises to the empty text, and 0.0 otherwise: two records
    that both lack the name count as having the same name. *)
Theorem extract_features_mnn_missing (row_a row_b : gmap string pyval)
    (va vb : pyval) (mnn_b : str) (features : list pyfloat) :
  row_a !! K_MNN = Some va → row_b !! K_MNN = Some vb →
  pd_isna va = true → normalize_mnn vb = Ok mnn_b →
  extract_features row_a row_b = Ok features →
  dim 1 features
  = Some (percent (if bool_decide (mnn_b = []) then 100 else 0))
  ∧ dim 2 features
    = Some (percent (if bool_decide (mnn_b = []) then 100 else 0)).
Proof.
  intros Ha Hb Hna Hnb
    (mnn_a & mnn_b' & issued_a & issued_b & disp_a & disp_b & snils_a
     & snils_b & dob_a & dob_b & qi_a & qi_b & qi & qd_a & qd_b & qd
     & fi & fd & E1 & E2 & _ & _ & _ & _ & _ & _ & _ & _
     & _ & _ & _ & _ & _ & _ & _ & _ & ->)%extract_features_Ok.
  unfold getitem in E1, E2. rewrite Ha in E1. rewrite Hb in E2.
  cbn [mbind res_bind] in E1, E2.
  rewrite (normalize_mnn_isna va Hna) in E1. apply Ok_inj in E1 as <-.
  rewrite Hnb in E2. apply Ok_inj in E2 as <-.
  cbn [dim Nat.sub lookup list_lookup fuzz_ratio fuzz_partial_ratio
       fuzzywuzzy].
  destruct (decide (mnn_b = [])) as [->|Hne].
  - rewrite bool_decide_eq_true_2 by done.
    by rewrite fuzz_ratio_same, fuzz_partial_ratio_same.
  - rewrite bool_decide_eq_false_2 by done.
    by rewrite fuzz_ratio_empty, fuzz_partial_ratio_empty.
Qed.

Lemma extract_features_mnn_missing_witness :
  ∃ features,
    extract_features
      (record (PyStr (u "12345678900")) (PyStr (u "1990-01-01")) PyNaN
         (PyStr (u "таб. 200мг")) (PyStr (u "таб.")) (PyInt 2) (PyInt 2))
      (record (PyStr (u "12345678900")) (PyStr (u "1990-01-01")) PyNone
         (PyStr (u "таб 500мг")) (PyStr (u "таб")) (PyInt 3) (PyInt 1))
    = Ok features
    ∧ dim 1 features = Some (percent 100)
    ∧ dim 2 features = Some (percent 100).
Proof.
  destruct (extract_features
      (record (PyStr (u "12345678900")) (PyStr (u "1990-01-01")) PyNaN
         (PyStr (u "таб. 200мг")) (PyStr (u "таб.")) (PyInt 2) (PyInt 2))
      (record (PyStr (u "12345678900")) (PyStr (u "1990-01-01")) PyNone
         (PyStr (u "таб 500мг")) (PyStr (u "таб")) (PyInt 3) (PyInt 1)))
    as [features|e] eqn:E; [|vm_compute in E; discriminate].
  exists features. split; [reflexivity|].
  refine (extract_features_mnn_missing _ _ PyNaN PyNone [] features
            _ _ _ _ E); reflexivity.
Defined.

(* ===================================================================== *)
(** * A birth date that is not text *)
(* ===================================================================== *)

Lemma u_ascii (a : ascii) (s : string) :
  (N_of_ascii a <? 0x80)%N = true →
  u (String a s) = N_of_ascii a :: u s.
Proof.
  intros Ha. unfold u. cbn [list_ascii_of_string map utf8_decode].
  by rewrite Ha.
Qed.

Lemma uint_digits (d : Decimal.uint) :
  Forall (fun c => is_ascii_digit c = true) (u (NilEmpty.string_of_uint d)).
Proof.
  induction d; cbn [NilEmpty.string_of_uint]; [constructor|..];
    (rewrite u_ascii by reflexivity; constructor; [reflexivity | assumption]).
Qed.

Lemma int_text (z : Z) :
  ∃ ds, Forall (fun c => is_ascii_digit c = true) ds
        ∧ (py_str (PyInt z) = ds ∨ py_str (PyInt z) = ch "-" :: ds).
Proof.
  cbn [py_str]. unfold NilZero.string_of_int.
  assert (∀ d, Forall (fun c => is_ascii_digit c = true)
                 (u (NilZero.string_of_uint d))) as Hz.
  { intros d. unfold NilZero.string_of_uint.
    destruct d; try apply uint_digits. by repeat constructor. }
  destruct (Z.to_int z) as [d|d].
  - exists (u (NilZero.string_of_uint d)). split; [apply Hz | by left].
  - exists (u (NilZero.string_of_uint d)). split; [apply Hz|]. right.
    by rewrite u_ascii.
Qed.

Lemma dob_clean_py_str (v : pyval) : dob_clean v = dob_clean (PyStr (py_str v)).
Proof.
  rewrite (dob_clean_fold v).
  exact (eq_sym (dob_clean_fold (PyStr (py_str v)))).
Qed.



(* ===================================================================== *)
(** * The fields of a date, one reading only *)
(* ===================================================================== *)

Lemma app_sep_inj (c : N) (l1 r1 l2 r2 : str) :
  c ∉ l1 → c ∉ l2 → l1 ++ c :: r1 = l2 ++ c :: r2 → l1 = l2 ∧ r1 = r2.
Proof.
  revert l2. induction l1 as [|x l1 IH]; intros l2 H1 H2 E.
  - destruct l2 as [|y l2]; [by injection E as <-|].
    injection E as <- _. destruct H2. left.
  - destruct l2 as [|y l2].
    + injection E as -> _. destruct H1. left.
    + injection E as <- E. destruct (IH l2) as [<- <-]; [| |done|done].
      * intros H. apply H1. by right.
      * intros H. apply H2. by right.
Qed.

Lemma span_unique (p : N → bool) (a a' b b' : str) :
  forallb p a = true → forallb p a' = true →
  match b with c :: _ => p c = false | [] => True end →
  match b' with c :: _ => p c = false | [] => True end →
  a ++ b = a' ++ b' → a = a' ∧ b = b'.
Proof.
  revert a'. induction a as [|x a IH]; intros a' Ha Ha' Hb Hb' E.
  - destruct a' as [|y a']; [done|]. cbn [app] in E. subst b.
    cbn [forallb] in Ha'. apply andb_true_iff in Ha' as [Hy _]. congruence.
  - cbn [forallb] in Ha. apply andb_true_iff in Ha as [Hx Ha].
    destruct a' as [|y a'].
    + cbn [app] in E. subst b'. congruence.
    + cbn [forallb] in Ha'. apply andb_true_iff in Ha' as [_ Ha'].
      injection E as <- E. by destruct (IH a' Ha Ha' Hb Hb' E) as [<- <-].
Qed.

Lemma digits_no_char (t : str) (c : N) :
  Forall (fun x => is_ascii_digit x = true) t → is_ascii_digit c = false →
  c ∉ t.
Proof.
  intros Ht Hc Hin. rewrite Forall_forall in Ht. specialize (Ht c Hin).
  congruence.
Qed.

Lemma field_no_char (t : str) (c : N) :
  forallb (fun x => is_decimal x || is_space x) t = true →
  is_decimal c || is_space c = false → c ∉ t.
Proof.
  intros Ht Hc Hin. pose proof (forallb_elem _ _ _ Ht Hin) as H.
  cbv beta in H. congruence.
Qed.

Lemma digits_nonspace (t : str) :
  Forall (fun x => is_ascii_digit x = true) t →
  forallb (fun c => negb (is_space c)) t = true.
Proof.
  induction 1 as [|c l Hc _ IH]; [done|]. cbn [forallb].
  by rewrite (digit_not_space c Hc), IH.
Qed.

Lemma day_text_nonspace (a : N) (dt : str) :
  is_day_text (a :: dt) = true → is_space a = false →
  forallb (fun c => negb (is_space c)) (a :: dt) = true.
Proof.
  intros H Ha. destruct (day_text_last _ H) as (t & c & E & Hc).
  apply decimal_not_space in Hc. cbn [forallb]. rewrite Ha. cbn [negb andb].
  destruct dt as [|b [|]]; [done | | discriminate H].
  destruct t as [|x [|y t]].
  - discriminate E.
  - injection E as _ <-. cbn [forallb]. by rewrite Hc.
  - apply (f_equal length) in E. cbn [length] in E.
    rewrite length_app in E. cbn [length] in E. lia.
Qed.

Lemma month_text_nonspace (mt : str) :
  is_month_text mt = true →
  forallb (fun c => negb (is_space c)) mt = true.
Proof.
  destruct mt as [|a [|b [|]]]; try discriminate;
    cbn [is_month_text forallb].
  - intros H. apply in_range_digit in H; [|done..].
    by rewrite (decimal_not_space _ H).
  - intros H.
    apply orb_true_iff in H as [H|H]; apply andb_true_iff in H as [Ha Hb];
      apply N.eqb_eq in Ha as ->;
      (apply in_range_digit in Hb; [|done..]);
      by rewrite (decimal_not_space _ Hb).
Qed.

Lemma blank_spaces (ws : str) : is_blank ws = true → forallb is_space ws = true.
Proof. unfold is_blank. by intros [_ H]%andb_true_iff. Qed.

Lemma head_space_fails (ws t : str) :
  is_blank ws = true →
  match ws ++ t with
  | c :: _ => negb (is_space c) = false
  | [] => True
  end.
Proof. intros (c & ws' & -> & Hc)%blank_head. cbn [app]. by rewrite Hc. Qed.

Lemma head_digit_fails (f t : str) :
  (∃ a f', f = a :: f' ∧ is_space a = false) →
  match f ++ t with c :: _ => is_space c = false | [] => True end.
Proof. by intros (a & f' & -> & Ha). Qed.

(** A text laid out with fields of digits has no other reading. *)
Lemma dob_text_unique (l l' : layout) (dt mt yt dt' mt' yt' s : str) :
  Forall (fun x => is_ascii_digit x = true) dt →
  Forall (fun x => is_ascii_digit x = true) mt →
  Forall (fun x => is_ascii_digit x = true) yt →
  dt ≠ [] → mt ≠ [] → yt ≠ [] →
  laid_out l dt mt yt s → dob_text l' dt' mt' yt' s →
  l = l' ∧ dt = dt' ∧ mt = mt' ∧ yt = yt'.
Proof.
  intros Hdt Hmt Hyt Ndt Nmt Nyt Hl H'.
  pose proof (dob_text_chars _ _ _ _ _ H') as Hc'.
  destruct H' as (Hl' & Hdt' & Hmt' & Hyt').
  assert (forallb dob_plain s = true) as Hp
    by (apply (laid_out_plain l dt mt yt); [done|by apply digits_plain..]).
  assert (l = l') as <-.
  { destruct l, l'; try reflexivity; exfalso; cbn [laid_out] in Hl, Hl'.
    - assert (ch "/" ∈ s) as Hin
        by (rewrite Hl; apply elem_of_app; right; left).
      by pose proof (forallb_elem _ _ _ Hc' Hin).
    - assert (ch "/" ∈ s) as Hin
        by (rewrite Hl; apply elem_of_app; right; left).
      by pose proof (forallb_elem _ _ _ Hc' Hin).
    - assert (ch "-" ∈ s) as Hin
        by (rewrite Hl; apply elem_of_app; right; left).
      by pose proof (forallb_elem _ _ _ Hc' Hin).
    - assert (ch "-" ∈ s) as Hin
        by (rewrite Hl; apply elem_of_app; right; left).
      by pose proof (forallb_elem _ _ _ Hc' Hin).
    - destruct Hl as (ws1 & ws2 & Hw1%blank_spaces & Hw2%blank_spaces & Hl).
      assert (ch "/" ∈ s) as Hin
        by (rewrite Hl'; apply elem_of_app; right; left).
      rewrite Hl in Hin. rewrite !elem_of_app in Hin.
      destruct Hin as [Hin|[Hin|[Hin|[Hin|Hin]]]].
      * by apply (digits_no_char _ _ Hdt) in Hin.
      * by pose proof (forallb_elem _ _ _ Hw1 Hin).
      * by apply (digits_no_char _ _ Hmt) in Hin.
      * by pose proof (forallb_elem _ _ _ Hw2 Hin).
      * by apply (digits_no_char _ _ Hyt) in Hin.
    - destruct Hl as (ws1 & ws2 & Hw1%blank_spaces & Hw2%blank_spaces & Hl).
      assert (ch "-" ∈ s) as Hin
        by (rewrite Hl'; apply elem_of_app; right; left).
      rewrite Hl in Hin. rewrite !elem_of_app in Hin.
      destruct Hin as [Hin|[Hin|[Hin|[Hin|Hin]]]].
      * by apply (digits_no_char _ _ Hdt) in Hin.
      * by pose proof (forallb_elem _ _ _ Hw1 Hin).
      * by apply (digits_no_char _ _ Hmt) in Hin.
      * by pose proof (forallb_elem _ _ _ Hw2 Hin).
      * by apply (digits_no_char _ _ Hyt) in Hin. }
  split; [reflexivity|].
  pose proof (day_text_chars _ Hdt') as Cd.
  pose proof (month_text_chars _ Hmt') as Cm.
  pose proof (year_text_chars _ Hyt') as Cy.
  destruct l; cbn [laid_out] in Hl, Hl'.
  - rewrite Hl in Hl'.
    apply (app_sep_inj (ch "/")) in Hl' as [<- Hl'];
      [|by apply digits_no_char | by apply field_no_char].
    apply (app_sep_inj (ch "/")) in Hl' as [<- <-];
      [done | by apply digits_no_char | by apply field_no_char].
  - rewrite Hl in Hl'.
    apply (app_sep_inj (ch "-")) in Hl' as [<- Hl'];
      [|by apply digits_no_char | by apply field_no_char].
    apply (app_sep_inj (ch "-")) in Hl' as [<- <-];
      [done | by apply digits_no_char | by apply field_no_char].
  - destruct Hl as (ws1 & ws2 & Hw1 & Hw2 & Hl).
    destruct Hl' as (ws1' & ws2' & Hw1' & Hw2' & Hl').
    rewrite Hl in Hl'. clear Hl Hp Hc'.
    assert (∀ f, Forall (fun x => is_ascii_digit x = true) f → f ≠ [] →
                 ∃ a f', f = a :: f' ∧ is_space a = false) as Hhead.
    { intros f Hf Hne. destruct f as [|a f']; [done|]. exists a, f'.
      split; [done|]. apply digit_not_space. by inversion Hf. }
    destruct (Hhead dt Hdt Ndt) as (a & dt0 & Ea & Ha).
    destruct (day_text_head dt' Hdt') as (a' & dt0' & Ea' & _).
    assert (a' = a) as ->.
    { rewrite Ea, Ea' in Hl'. by injection Hl' as ->. }
    pose proof (day_text_nonspace a dt0') as Nd'. rewrite <- Ea' in Nd'.
    apply (span_unique (fun c => negb (is_space c))) in Hl'
      as [<- Hl'];
      [| by apply digits_nonspace | by apply Nd'
       | by apply head_space_fails | by apply head_space_fails].
    destruct (month_text_head mt' Hmt') as (b' & mt0' & Eb' & Hb').
    apply (span_unique is_space) in Hl' as [<- Hl'];
      [| by apply blank_spaces | by apply blank_spaces
       | apply head_digit_fails; by apply Hhead
       | apply head_digit_fails; exists b', mt0';
         split; [done | by apply decimal_not_space]].
    apply (span_unique (fun c => negb (is_space c))) in Hl'
      as [<- Hl'];
      [| by apply digits_nonspace | by apply month_text_nonspace
       | by apply head_space_fails | by apply head_space_fails].
    destruct (year_text_head yt' Hyt') as (_ & y' & yt0' & Ey' & Hy').
    pose proof (Hhead yt Hyt Nyt) as Hy.
    apply (span_unique is_space) in Hl' as [<- <-];
      [done | by apply blank_spaces | by apply blank_spaces | |].
    + pose proof (head_digit_fails yt [] Hy) as Hf.
      by rewrite app_nil_r in Hf.
    + rewrite Ey'. by apply decimal_not_space.
Qed.

(** X21.  The shape of the fields.  In a text laid out as D/M/Y with
    slashes, Y-M-D with hyphens or D M Y with white space, with fields
    made of ASCII digits, the day must read as [%d] reads it (1 to 31 in
    one or two digits), the month as [%m] (1 to 12) and the year must
    have exactly four digits: otherwise the result is the empty
    sentinel.  So a two-digit year ("01/01/90") is never understood,
    nor a date with the month first ("12/31/1990"). *)
Theorem normalize_dob_field_shapes (l : layout) (dt mt yt s : str) :
  Forall (fun x => is_ascii_digit x = true) dt →
  Forall (fun x => is_ascii_digit x = true) mt →
  Forall (fun x => is_ascii_digit x = true) yt →
  dt ≠ [] → mt ≠ [] → yt ≠ [] →
  laid_out l dt mt yt s →
  is_day_text dt && is_month_text mt && is_year_text yt = false →
  normalize_dob (PyStr s) = Ok [].
Proof.
  intros Hdt Hmt Hyt Ndt Nmt Nyt Hl Hshape.
  apply normalize_dob_empty. intros r E Hr.
  destruct (normalize_dob_text _ r E Hr)
    as (l' & dt' & mt' & yt' & y & m & d & H & _).
  rewrite dob_clean_plain in H
    by (apply (laid_out_plain l dt mt yt); [done|by apply digits_plain..]).
  destruct (dob_text_unique l l' dt mt yt dt' mt' yt' s)
    as (_ & <- & <- & <-); try done.
  destruct H as (_ & H1 & H2 & H3). by rewrite H1, H2, H3 in Hshape.
Qed.

Lemma normalize_dob_field_shapes_witness :
  normalize_dob (PyStr (u "01/01/90")) = Ok []
  ∧ normalize_dob (PyStr (u "12/31/1990")) = Ok [].
Proof.
  split.
  - apply (normalize_dob_field_shapes Slashes (u "01") (u "01") (u "90"));
      try done; by repeat constructor.
  - apply (normalize_dob_field_shapes Slashes (u "12") (u "31") (u "1990"));
      try done; by repeat constructor.
Defined.

(* ===================================================================== *)
(** * The same birth date in two records *)
(* ===================================================================== *)

Lemma normalize_dob_writes (y m d : N) (s : str) :
  writes_date y m d s → normalize_dob (PyStr s) = Ok (iso_date y m d).
Proof.
  intros (V & l & dt & mt & Hdt & Hmt & Hl).
  destruct (valid_date_bounds y m d V) as (Hy & Hm & Hd).
  change (10 ^ N.of_nat 4)%N with 10000%N in Hy.
  assert (dob_text l dt mt (zero_pad 4 y) s) as H.
  { split; [done|]. split; [by apply (num_text_day d)|].
    split; [by apply (num_text_month m) | apply year_text_pad]. }
  assert (dob_clean (PyStr s) = s) as Hc.
  { apply dob_clean_plain. apply (laid_out_plain l dt mt (zero_pad 4 y));
      [done | | |]; apply digits_plain;
      [by apply (num_text_digits d) | by apply (num_text_digits m)
       | apply zero_pad_digits]. }
  rewrite <- Hc in H.
  rewrite (normalize_dob_of_text _ l dt mt (zero_pad 4 y) H).
  rewrite (date_of_numbers y m d) by (done || lia). by rewrite V.
Qed.

Lemma iso_date_inj (y m d y' m' d' : N) :
  valid_date y m d = true → valid_date y' m' d' = true →
  iso_date y m d = iso_date y' m' d' → y = y' ∧ m = m' ∧ d = d'.
Proof.
  intros V V' E. pose proof (strptime_iso_date y m d V) as H.
  rewrite E, (strptime_iso_date y' m' d' V') in H. by injection H as -> -> ->.
Qed.

(** X22.  The flag of the birth date compares dates, not texts.  When
    the birth dates of the two records are calendar dates written with
    numbers, each in any of the three layouts and with or without leading
    zeros, dimension 7 is 1.0 exactly when they are the same date. *)
Theorem dob_flag_same_date `{Fuzz} (row_a row_b : gmap string pyval)
    (sa sb : str) (y m d y' m' d' : N) (features : list pyfloat) :
  row_a !! K_DOB = Some (PyStr sa) → row_b !! K_DOB = Some (PyStr sb) →
  writes_date y m d sa → writes_date y' m' d' sb →
  extract_features row_a row_b = Ok features →
  dim 7 features =
  Some (if bool_decide (y = y' ∧ m = m' ∧ d = d') then Fl 1 else Fl 0).
Proof.
  intros Ha Hb Wa Wb
    (mnn_a & mnn_b & issued_a & issued_b & disp_a & disp_b & snils_a
     & snils_b & dob_a & dob_b & qi_a & qi_b & qi & qd_a & qd_b & qd
     & fi & fd & _ & _ & _ & _ & _ & _ & _ & _ & E9 & E10
     & _ & _ & _ & _ & _ & _ & _ & _ & ->)%extract_features_Ok.
  unfold getitem in E9, E10. rewrite Ha in E9. rewrite Hb in E10.
  cbn [mbind res_bind] in E9, E10.
  rewrite (normalize_dob_writes _ _ _ _ Wa) in E9.
  rewrite (normalize_dob_writes _ _ _ _ Wb) in E10.
  apply Ok_inj in E9 as <-. apply Ok_inj in E10 as <-.
  cbn [dim Nat.sub lookup list_lookup]. f_equal.
  destruct Wa as [V _], Wb as [V' _]. unfold str_eqb.
  rewrite (bool_decide_eq_false_2 (iso_date y m d = []))
    by apply iso_date_nonempty.
  cbn [negb]. rewrite andb_true_r.
  destruct (decide (y = y' ∧ m = m' ∧ d = d')) as [(<- & <- & <-)|Hne].
  - by rewrite !bool_decide_eq_true_2.
  - rewrite !bool_decide_eq_false_2; [done | done |].
    intros E. by apply iso_date_inj in E.
Qed.

Lemma dob_flag_same_date_witness :
  ∃ features,
    extract_features
      (record (PyStr (u "12345678900")) (PyStr (u "1/02/1990"))
         (PyStr (u "таб")) (PyStr (u "таб. 200мг")) (PyStr (u "таб."))
         (PyInt 2) (PyInt 2))
      (record (PyStr (u "12345678900")) (PyStr (u "1990-02-01"))
         (PyStr (u "таб")) (PyStr (u "таб 500мг")) (PyStr (u "таб"))
         (PyInt 3) (PyInt 1))
    = Ok features
    ∧ dim 7 features = Some (Fl 1).
Proof.
  destruct (extract_features
      (record (PyStr (u "12345678900")) (PyStr (u "1/02/1990"))
         (PyStr (u "таб")) (PyStr (u "таб. 200мг")) (PyStr (u "таб."))
         (PyInt 2) (PyInt 2))
      (record (PyStr (u "12345678900")) (PyStr (u "1990-02-01"))
         (PyStr (u "таб")) (PyStr (u "таб 500мг")) (PyStr (u "таб"))
         (PyInt 3) (PyInt 1)))
    as [features|e] eqn:E; [|vm_compute in E; discriminate].
  exists features. split; [reflexivity|].
  refine (dob_flag_same_date _ _ (u "1/02/1990") (u "1990-02-01")
            1990 2 1 1990 2 1 features _ _ _ _ E);
    [reflexivity | reflexivity | |].
  - split; [reflexivity|]. exists Slashes, (u "1"), (u "02").
    split; [right; by split|]. split; [by left | reflexivity].
  - split; [reflexivity|]. exists Hyphens, (u "01"), (u "02").
    split; [by left|]. split; [by left | reflexivity].
Defined.
